(** * Contract lifecycle and blueprint snapshots

    A shallow embedding of the contract store
    ([src/stores/contractStore.ts]) together with the parts of the
    lifecycle state machine, the dashboard projection and the blueprint
    store that it calls.

    JavaScript objects and arrays are reference values.  The store reads a
    blueprint's field array through a reference and [Array.prototype.sort]
    works in place, so arrays and field objects live in an explicit heap
    ([gmap] from locations to cells) and records hold locations.

    [String.prototype.trim] and [String.prototype.toLowerCase] work on
    Unicode text, so the strings they are applied to are sequences of
    UTF-16 code units, and the white space class and the lower-case
    conversion are those of ECMAScript and the Unicode Character
    Database. *)

From Stdlib Require Import ZArith NArith Ascii String.
From stdpp Require Import base tactics option list list_monad gmap strings sorting.

Local Open Scope string_scope.
Local Open Scope list_scope.
Local Open Scope nat_scope.

(* ===================================================================== *)
(** ** Domain types ([src/types], reconstructed from their uses)          *)
(* ===================================================================== *)

Inductive ContractStatus :=
  | CREATED | APPROVED | SENT | SIGNED | LOCKED | REVOKED.

Inductive FieldType := TEXT | DATE | SIGNATURE | CHECKBOX.

Inductive EditableBy := manager | client | both.

Inductive DashboardFilter := Active | Pending | Signed | Archived.

(** [value : string | boolean | null] *)
Inductive FieldValue :=
  | VNull
  | VBool (b : bool)
  | VString (s : string).

#[global] Instance ContractStatus_eq_dec : EqDecision ContractStatus.
Proof. solve_decision. Defined.
#[global] Instance FieldType_eq_dec : EqDecision FieldType.
Proof. solve_decision. Defined.
#[global] Instance EditableBy_eq_dec : EqDecision EditableBy.
Proof. solve_decision. Defined.
#[global] Instance DashboardFilter_eq_dec : EqDecision DashboardFilter.
Proof. solve_decision. Defined.
#[global] Instance FieldValue_eq_dec : EqDecision FieldValue.
Proof. solve_decision. Defined.

(** Heap locations: the identity of a JavaScript object or array. *)
Abbreviation loc := nat (only parsing).

(** Timestamps as returned by [getCurrentTimestamp()]. *)
Abbreviation Timestamp := string (only parsing).

(** Text that the code trims, lower-cases or searches (names, queries,
    addresses, messages) is a JavaScript string as the language has it:
    its sequence of UTF-16 code units, each below 65536.  Strings that
    are only copied and compared (ids, labels, timestamps) stay
    [string]. *)
Abbreviation jsstring := (list N) (only parsing).

(** The JavaScript string of an ASCII literal. *)
Definition js (s : string) : jsstring := N_of_ascii <$> list_ascii_of_string s.

Record BlueprintField := mkBlueprintField {
  bf_id : string;
  bf_type : FieldType;
  bf_label : string;
  bf_position : Z;
  bf_required : bool;
  bf_editableBy : option EditableBy;
  bf_placeholder : option string;
  bf_defaultChecked : option bool;
}.

Record ContractField := mkContractField {
  cf_id : string;
  cf_type : FieldType;
  cf_label : string;
  cf_position : Z;
  cf_required : bool;
  cf_editableBy : option EditableBy;
  cf_placeholder : option string;
  cf_value : FieldValue;
}.

(** [fields] is a reference to the array object, not the sequence itself. *)
Record Blueprint := mkBlueprint {
  b_id : string;
  b_name : jsstring;
  b_fields : loc;
  b_createdAt : Timestamp;
  b_updatedAt : Timestamp;
}.

Record Contract := mkContract {
  c_id : string;
  c_name : jsstring;
  c_blueprintId : string;
  c_blueprintName : jsstring;
  c_status : ContractStatus;
  c_fields : loc;
  c_createdAt : Timestamp;
  c_updatedAt : Timestamp;
}.

Record ContractCreateInput := mkInput {
  in_name : jsstring;
  in_blueprintId : string;
}.

#[global] Instance BlueprintField_eq_dec : EqDecision BlueprintField.
Proof. solve_decision. Defined.
#[global] Instance ContractField_eq_dec : EqDecision ContractField.
Proof. solve_decision. Defined.
#[global] Instance Blueprint_eq_dec : EqDecision Blueprint.
Proof. solve_decision. Defined.
#[global] Instance Contract_eq_dec : EqDecision Contract.
Proof. solve_decision. Defined.

(** [Array.prototype.includes] on an array of primitive values. *)
Definition includes {A} `{EqDecision A} (l : list A) (x : A) : bool :=
  bool_decide (x ∈ l).

(* ===================================================================== *)
(** ** Lifecycle state machine ([src/utils/stateMachine.ts])              *)
(* ===================================================================== *)

(** Modelled from the spec: [utils/stateMachine.ts] is not among the
    sources; the transition table below is the one of section 4.1, in the
    order listed there. *)
Definition VALID_TRANSITIONS (from : ContractStatus) : list ContractStatus :=
  match from with
  | CREATED => [APPROVED; REVOKED]
  | APPROVED => [SENT; REVOKED; CREATED]
  | SENT => [SIGNED; REVOKED]
  | SIGNED => [LOCKED]
  | LOCKED => []
  | REVOKED => []
  end.

(** Modelled from the spec: [getValidTransitions(from)] "returns the
    allowed set for [from]". *)
Definition getValidTransitions (from : ContractStatus) : list ContractStatus :=
  VALID_TRANSITIONS from.

(** Modelled from the spec: [canTransition(from, to)] is "true iff [to] is
    a member of the allowed set for [from]". *)
Definition canTransition (from to : ContractStatus) : bool :=
  includes (VALID_TRANSITIONS from) to.

(** Modelled from the spec: [getStatusesForFilter] of section 4.4. *)
Definition getStatusesForFilter (f : DashboardFilter) : list ContractStatus :=
  match f with
  | Active => [CREATED; APPROVED]
  | Pending => [SENT]
  | Signed => [SIGNED; LOCKED]
  | Archived => [REVOKED]
  end.

(** The bucket a status is displayed in (inverse of
    [getStatusesForFilter]). *)
Definition bucket_of (s : ContractStatus) : DashboardFilter :=
  match s with
  | CREATED | APPROVED => Active
  | SENT => Pending
  | SIGNED | LOCKED => Signed
  | REVOKED => Archived
  end.

Definition all_statuses : list ContractStatus :=
  [CREATED; APPROVED; SENT; SIGNED; LOCKED; REVOKED].

Definition all_filters : list DashboardFilter :=
  [Active; Pending; Signed; Archived].

(** [LIFECYCLE_STEPS] of [ContractView.tsx]: the forward order of the
    lifecycle; REVOKED is not a step. *)
Definition LIFECYCLE_STEPS : list ContractStatus :=
  [CREATED; APPROVED; SENT; SIGNED; LOCKED].

(** [Array.prototype.indexOf]: -1 when absent. *)
Fixpoint indexOf {A} `{EqDecision A} (l : list A) (x : A) : Z :=
  match l with
  | [] => (-1)%Z
  | y :: l' =>
      if decide (y = x) then 0%Z
      else let i := indexOf l' x in
           if (i <? 0)%Z then (-1)%Z else (i + 1)%Z
  end.

(** A transition is backward when both ends are lifecycle steps and the
    target comes strictly earlier. *)
Definition backward (from to : ContractStatus) : bool :=
  (0 <=? indexOf LIFECYCLE_STEPS to)%Z
  && (indexOf LIFECYCLE_STEPS to <? indexOf LIFECYCLE_STEPS from)%Z.

(** The transition table as the specification lists it, one constructor
    per arrow. *)
Inductive allowed : ContractStatus → ContractStatus → Prop :=
  | allowed_approve : allowed CREATED APPROVED
  | allowed_revoke_created : allowed CREATED REVOKED
  | allowed_send : allowed APPROVED SENT
  | allowed_revoke_approved : allowed APPROVED REVOKED
  | allowed_revert : allowed APPROVED CREATED
  | allowed_sign : allowed SENT SIGNED
  | allowed_revoke_sent : allowed SENT REVOKED
  | allowed_lock : allowed SIGNED LOCKED.

(* ===================================================================== *)
(** ** Strings                                                            *)
(* ===================================================================== *)

Definition in_range (c : N) (r : N * N) : bool :=
  ((r.1 <=? c) && (c <=? r.2))%N.

Definition is_high_surrogate (u : N) : bool := in_range u (0xD800, 0xDBFF)%N.

Definition is_low_surrogate (u : N) : bool := in_range u (0xDC00, 0xDFFF)%N.

(** [StringToCodePoints]: a high surrogate followed by a low surrogate is
    one code point; any other code unit is a code point by itself. *)
Fixpoint code_points (s : jsstring) : list N :=
  match s with
  | [] => []
  | u :: s' =>
      match s' with
      | v :: s'' =>
          if is_high_surrogate u && is_low_surrogate v
          then (0x10000 + (u - 0xD800) * 0x400 + (v - 0xDC00))%N
               :: code_points s''
          else u :: code_points s'
      | [] => [u]
      end
  end.

(** [UTF16EncodeCodePoint]; a number that is no code point (none arises
    from a string) is left as it is. *)
Definition code_units (c : N) : list N :=
  if ((0x10000 <=? c) && (c <? 0x110000))%N
  then [0xD800 + (c - 0x10000) / 0x400; 0xDC00 + (c - 0x10000) mod 0x400]%N
  else [c].

(** [CodePointsToString] *)
Definition from_code_points (l : list N) : jsstring := l ≫= code_units.

(** The simple lower-case mappings of the Unicode Character Database
    (version 14.0): the code points whose lower case is another single
    code point, with that code point. *)
Definition lowercase_table : list (N * N) :=
  [
   (0x41, 0x61); (0x42, 0x62); (0x43, 0x63); (0x44, 0x64); (0x45, 0x65);
   (0x46, 0x66); (0x47, 0x67); (0x48, 0x68); (0x49, 0x69); (0x4A, 0x6A);
   (0x4B, 0x6B); (0x4C, 0x6C); (0x4D, 0x6D); (0x4E, 0x6E); (0x4F, 0x6F);
   (0x50, 0x70); (0x51, 0x71); (0x52, 0x72); (0x53, 0x73); (0x54, 0x74);
   (0x55, 0x75); (0x56, 0x76); (0x57, 0x77); (0x58, 0x78); (0x59, 0x79);
   (0x5A, 0x7A); (0xC0, 0xE0); (0xC1, 0xE1); (0xC2, 0xE2); (0xC3, 0xE3);
   (0xC4, 0xE4); (0xC5, 0xE5); (0xC6, 0xE6); (0xC7, 0xE7); (0xC8, 0xE8);
   (0xC9, 0xE9); (0xCA, 0xEA); (0xCB, 0xEB); (0xCC, 0xEC); (0xCD, 0xED);
   (0xCE, 0xEE); (0xCF, 0xEF); (0xD0, 0xF0); (0xD1, 0xF1); (0xD2, 0xF2);
   (0xD3, 0xF3); (0xD4, 0xF4); (0xD5, 0xF5); (0xD6, 0xF6); (0xD8, 0xF8);
   (0xD9, 0xF9); (0xDA, 0xFA); (0xDB, 0xFB); (0xDC, 0xFC); (0xDD, 0xFD);
   (0xDE, 0xFE); (0x100, 0x101); (0x102, 0x103); (0x104, 0x105); (0x106, 0x107);
   (0x108, 0x109); (0x10A, 0x10B); (0x10C, 0x10D); (0x10E, 0x10F); (0x110, 0x111);
   (0x112, 0x113); (0x114, 0x115); (0x116, 0x117); (0x118, 0x119); (0x11A, 0x11B);
   (0x11C, 0x11D); (0x11E, 0x11F); (0x120, 0x121); (0x122, 0x123); (0x124, 0x125);
   (0x126, 0x127); (0x128, 0x129); (0x12A, 0x12B); (0x12C, 0x12D); (0x12E, 0x12F);
   (0x132, 0x133); (0x134, 0x135); (0x136, 0x137); (0x139, 0x13A); (0x13B, 0x13C);
   (0x13D, 0x13E); (0x13F, 0x140); (0x141, 0x142); (0x143, 0x144); (0x145, 0x146);
   (0x147, 0x148); (0x14A, 0x14B); (0x14C, 0x14D); (0x14E, 0x14F); (0x150, 0x151);
   (0x152, 0x153); (0x154, 0x155); (0x156, 0x157); (0x158, 0x159); (0x15A, 0x15B);
   (0x15C, 0x15D); (0x15E, 0x15F); (0x160, 0x161); (0x162, 0x163); (0x164, 0x165);
   (0x166, 0x167); (0x168, 0x169); (0x16A, 0x16B); (0x16C, 0x16D); (0x16E, 0x16F);
   (0x170, 0x171); (0x172, 0x173); (0x174, 0x175); (0x176, 0x177); (0x178, 0xFF);
   (0x179, 0x17A); (0x17B, 0x17C); (0x17D, 0x17E); (0x181, 0x253); (0x182, 0x183);
   (0x184, 0x185); (0x186, 0x254); (0x187, 0x188); (0x189, 0x256); (0x18A, 0x257);
   (0x18B, 0x18C); (0x18E, 0x1DD); (0x18F, 0x259); (0x190, 0x25B); (0x191, 0x192);
   (0x193, 0x260); (0x194, 0x263); (0x196, 0x269); (0x197, 0x268); (0x198, 0x199);
   (0x19C, 0x26F); (0x19D, 0x272); (0x19F, 0x275); (0x1A0, 0x1A1); (0x1A2, 0x1A3);
   (0x1A4, 0x1A5); (0x1A6, 0x280); (0x1A7, 0x1A8); (0x1A9, 0x283); (0x1AC, 0x1AD);
   (0x1AE, 0x288); (0x1AF, 0x1B0); (0x1B1, 0x28A); (0x1B2, 0x28B); (0x1B3, 0x1B4);
   (0x1B5, 0x1B6); (0x1B7, 0x292); (0x1B8, 0x1B9); (0x1BC, 0x1BD); (0x1C4, 0x1C6);
   (0x1C5, 0x1C6); (0x1C7, 0x1C9); (0x1C8, 0x1C9); (0x1CA, 0x1CC); (0x1CB, 0x1CC);
   (0x1CD, 0x1CE); (0x1CF, 0x1D0); (0x1D1, 0x1D2); (0x1D3, 0x1D4); (0x1D5, 0x1D6);
   (0x1D7, 0x1D8); (0x1D9, 0x1DA); (0x1DB, 0x1DC); (0x1DE, 0x1DF); (0x1E0, 0x1E1);
   (0x1E2, 0x1E3); (0x1E4, 0x1E5); (0x1E6, 0x1E7); (0x1E8, 0x1E9); (0x1EA, 0x1EB);
   (0x1EC, 0x1ED); (0x1EE, 0x1EF); (0x1F1, 0x1F3); (0x1F2, 0x1F3); (0x1F4, 0x1F5);
   (0x1F6, 0x195); (0x1F7, 0x1BF); (0x1F8, 0x1F9); (0x1FA, 0x1FB); (0x1FC, 0x1FD);
   (0x1FE, 0x1FF); (0x200, 0x201); (0x202, 0x203); (0x204, 0x205); (0x206, 0x207);
   (0x208, 0x209); (0x20A, 0x20B); (0x20C, 0x20D); (0x20E, 0x20F); (0x210, 0x211);
   (0x212, 0x213); (0x214, 0x215); (0x216, 0x217); (0x218, 0x219); (0x21A, 0x21B);
   (0x21C, 0x21D); (0x21E, 0x21F); (0x220, 0x19E); (0x222, 0x223); (0x224, 0x225);
   (0x226, 0x227); (0x228, 0x229); (0x22A, 0x22B); (0x22C, 0x22D); (0x22E, 0x22F);
   (0x230, 0x231); (0x232, 0x233); (0x23A, 0x2C65); (0x23B, 0x23C); (0x23D, 0x19A);
   (0x23E, 0x2C66); (0x241, 0x242); (0x243, 0x180); (0x244, 0x289); (0x245, 0x28C);
   (0x246, 0x247); (0x248, 0x249); (0x24A, 0x24B); (0x24C, 0x24D); (0x24E, 0x24F);
   (0x370, 0x371); (0x372, 0x373); (0x376, 0x377); (0x37F, 0x3F3); (0x386, 0x3AC);
   (0x388, 0x3AD); (0x389, 0x3AE); (0x38A, 0x3AF); (0x38C, 0x3CC); (0x38E, 0x3CD);
   (0x38F, 0x3CE); (0x391, 0x3B1); (0x392, 0x3B2); (0x393, 0x3B3); (0x394, 0x3B4);
   (0x395, 0x3B5); (0x396, 0x3B6); (0x397, 0x3B7); (0x398, 0x3B8); (0x399, 0x3B9);
   (0x39A, 0x3BA); (0x39B, 0x3BB); (0x39C, 0x3BC); (0x39D, 0x3BD); (0x39E, 0x3BE);
   (0x39F, 0x3BF); (0x3A0, 0x3C0); (0x3A1, 0x3C1); (0x3A3, 0x3C3); (0x3A4, 0x3C4);
   (0x3A5, 0x3C5); (0x3A6, 0x3C6); (0x3A7, 0x3C7); (0x3A8, 0x3C8); (0x3A9, 0x3C9);
   (0x3AA, 0x3CA); (0x3AB, 0x3CB); (0x3CF, 0x3D7); (0x3D8, 0x3D9); (0x3DA, 0x3DB);
   (0x3DC, 0x3DD); (0x3DE, 0x3DF); (0x3E0, 0x3E1); (0x3E2, 0x3E3); (0x3E4, 0x3E5);
   (0x3E6, 0x3E7); (0x3E8, 0x3E9); (0x3EA, 0x3EB); (0x3EC, 0x3ED); (0x3EE, 0x3EF);
   (0x3F4, 0x3B8); (0x3F7, 0x3F8); (0x3F9, 0x3F2); (0x3FA, 0x3FB); (0x3FD, 0x37B);
   (0x3FE, 0x37C); (0x3FF, 0x37D); (0x400, 0x450); (0x401, 0x451); (0x402, 0x452);
   (0x403, 0x453); (0x404, 0x454); (0x405, 0x455); (0x406, 0x456); (0x407, 0x457);
   (0x408, 0x458); (0x409, 0x459); (0x40A, 0x45A); (0x40B, 0x45B); (0x40C, 0x45C);
   (0x40D, 0x45D); (0x40E, 0x45E); (0x40F, 0x45F); (0x410, 0x430); (0x411, 0x431);
   (0x412, 0x432); (0x413, 0x433); (0x414, 0x434); (0x415, 0x435); (0x416, 0x436);
   (0x417, 0x437); (0x418, 0x438); (0x419, 0x439); (0x41A, 0x43A); (0x41B, 0x43B);
   (0x41C, 0x43C); (0x41D, 0x43D); (0x41E, 0x43E); (0x41F, 0x43F); (0x420, 0x440);
   (0x421, 0x441); (0x422, 0x442); (0x423, 0x443); (0x424, 0x444); (0x425, 0x445);
   (0x426, 0x446); (0x427, 0x447); (0x428, 0x448); (0x429, 0x449); (0x42A, 0x44A);
   (0x42B, 0x44B); (0x42C, 0x44C); (0x42D, 0x44D); (0x42E, 0x44E); (0x42F, 0x44F);
   (0x460, 0x461); (0x462, 0x463); (0x464, 0x465); (0x466, 0x467); (0x468, 0x469);
   (0x46A, 0x46B); (0x46C, 0x46D); (0x46E, 0x46F); (0x470, 0x471); (0x472, 0x473);
   (0x474, 0x475); (0x476, 0x477); (0x478, 0x479); (0x47A, 0x47B); (0x47C, 0x47D);
   (0x47E, 0x47F); (0x480, 0x481); (0x48A, 0x48B); (0x48C, 0x48D); (0x48E, 0x48F);
   (0x490, 0x491); (0x492, 0x493); (0x494, 0x495); (0x496, 0x497); (0x498, 0x499);
   (0x49A, 0x49B); (0x49C, 0x49D); (0x49E, 0x49F); (0x4A0, 0x4A1); (0x4A2, 0x4A3);
   (0x4A4, 0x4A5); (0x4A6, 0x4A7); (0x4A8, 0x4A9); (0x4AA, 0x4AB); (0x4AC, 0x4AD);
   (0x4AE, 0x4AF); (0x4B0, 0x4B1); (0x4B2, 0x4B3); (0x4B4, 0x4B5); (0x4B6, 0x4B7);
   (0x4B8, 0x4B9); (0x4BA, 0x4BB); (0x4BC, 0x4BD); (0x4BE, 0x4BF); (0x4C0, 0x4CF);
   (0x4C1, 0x4C2); (0x4C3, 0x4C4); (0x4C5, 0x4C6); (0x4C7, 0x4C8); (0x4C9, 0x4CA);
   (0x4CB, 0x4CC); (0x4CD, 0x4CE); (0x4D0, 0x4D1); (0x4D2, 0x4D3); (0x4D4, 0x4D5);
   (0x4D6, 0x4D7); (0x4D8, 0x4D9); (0x4DA, 0x4DB); (0x4DC, 0x4DD); (0x4DE, 0x4DF);
   (0x4E0, 0x4E1); (0x4E2, 0x4E3); (0x4E4, 0x4E5); (0x4E6, 0x4E7); (0x4E8, 0x4E9);
   (0x4EA, 0x4EB); (0x4EC, 0x4ED); (0x4EE, 0x4EF); (0x4F0, 0x4F1); (0x4F2, 0x4F3);
   (0x4F4, 0x4F5); (0x4F6, 0x4F7); (0x4F8, 0x4F9); (0x4FA, 0x4FB); (0x4FC, 0x4FD);
   (0x4FE, 0x4FF); (0x500, 0x501); (0x502, 0x503); (0x504, 0x505); (0x506, 0x507);
   (0x508, 0x509); (0x50A, 0x50B); (0x50C, 0x50D); (0x50E, 0x50F); (0x510, 0x511);
   (0x512, 0x513); (0x514, 0x515); (0x516, 0x517); (0x518, 0x519); (0x51A, 0x51B);
   (0x51C, 0x51D); (0x51E, 0x51F); (0x520, 0x521); (0x522, 0x523); (0x524, 0x525);
   (0x526, 0x527); (0x528, 0x529); (0x52A, 0x52B); (0x52C, 0x52D); (0x52E, 0x52F);
   (0x531, 0x561); (0x532, 0x562); (0x533, 0x563); (0x534, 0x564); (0x535, 0x565);
   (0x536, 0x566); (0x537, 0x567); (0x538, 0x568); (0x539, 0x569); (0x53A, 0x56A);
   (0x53B, 0x56B); (0x53C, 0x56C); (0x53D, 0x56D); (0x53E, 0x56E); (0x53F, 0x56F);
   (0x540, 0x570); (0x541, 0x571); (0x542, 0x572); (0x543, 0x573); (0x544, 0x574);
   (0x545, 0x575); (0x546, 0x576); (0x547, 0x577); (0x548, 0x578); (0x549, 0x579);
   (0x54A, 0x57A); (0x54B, 0x57B); (0x54C, 0x57C); (0x54D, 0x57D); (0x54E, 0x57E);
   (0x54F, 0x57F); (0x550, 0x580); (0x551, 0x581); (0x552, 0x582); (0x553, 0x583);
   (0x554, 0x584); (0x555, 0x585); (0x556, 0x586); (0x10A0, 0x2D00); (0x10A1, 0x2D01);
   (0x10A2, 0x2D02); (0x10A3, 0x2D03); (0x10A4, 0x2D04); (0x10A5, 0x2D05); (0x10A6, 0x2D06);
   (0x10A7, 0x2D07); (0x10A8, 0x2D08); (0x10A9, 0x2D09); (0x10AA, 0x2D0A); (0x10AB, 0x2D0B);
   (0x10AC, 0x2D0C); (0x10AD, 0x2D0D); (0x10AE, 0x2D0E); (0x10AF, 0x2D0F); (0x10B0, 0x2D10);
   (0x10B1, 0x2D11); (0x10B2, 0x2D12); (0x10B3, 0x2D13); (0x10B4, 0x2D14); (0x10B5, 0x2D15);
   (0x10B6, 0x2D16); (0x10B7, 0x2D17); (0x10B8, 0x2D18); (0x10B9, 0x2D19); (0x10BA, 0x2D1A);
   (0x10BB, 0x2D1B); (0x10BC, 0x2D1C); (0x10BD, 0x2D1D); (0x10BE, 0x2D1E); (0x10BF, 0x2D1F);
   (0x10C0, 0x2D20); (0x10C1, 0x2D21); (0x10C2, 0x2D22); (0x10C3, 0x2D23); (0x10C4, 0x2D24);
   (0x10C5, 0x2D25); (0x10C7, 0x2D27); (0x10CD, 0x2D2D); (0x13A0, 0xAB70); (0x13A1, 0xAB71);
   (0x13A2, 0xAB72); (0x13A3, 0xAB73); (0x13A4, 0xAB74); (0x13A5, 0xAB75); (0x13A6, 0xAB76);
   (0x13A7, 0xAB77); (0x13A8, 0xAB78); (0x13A9, 0xAB79); (0x13AA, 0xAB7A); (0x13AB, 0xAB7B);
   (0x13AC, 0xAB7C); (0x13AD, 0xAB7D); (0x13AE, 0xAB7E); (0x13AF, 0xAB7F); (0x13B0, 0xAB80);
   (0x13B1, 0xAB81); (0x13B2, 0xAB82); (0x13B3, 0xAB83); (0x13B4, 0xAB84); (0x13B5, 0xAB85);
   (0x13B6, 0xAB86); (0x13B7, 0xAB87); (0x13B8, 0xAB88); (0x13B9, 0xAB89); (0x13BA, 0xAB8A);
   (0x13BB, 0xAB8B); (0x13BC, 0xAB8C); (0x13BD, 0xAB8D); (0x13BE, 0xAB8E); (0x13BF, 0xAB8F);
   (0x13C0, 0xAB90); (0x13C1, 0xAB91); (0x13C2, 0xAB92); (0x13C3, 0xAB93); (0x13C4, 0xAB94);
   (0x13C5, 0xAB95); (0x13C6, 0xAB96); (0x13C7, 0xAB97); (0x13C8, 0xAB98); (0x13C9, 0xAB99);
   (0x13CA, 0xAB9A); (0x13CB, 0xAB9B); (0x13CC, 0xAB9C); (0x13CD, 0xAB9D); (0x13CE, 0xAB9E);
   (0x13CF, 0xAB9F); (0x13D0, 0xABA0); (0x13D1, 0xABA1); (0x13D2, 0xABA2); (0x13D3, 0xABA3);
   (0x13D4, 0xABA4); (0x13D5, 0xABA5); (0x13D6, 0xABA6); (0x13D7, 0xABA7); (0x13D8, 0xABA8);
   (0x13D9, 0xABA9); (0x13DA, 0xABAA); (0x13DB, 0xABAB); (0x13DC, 0xABAC); (0x13DD, 0xABAD);
   (0x13DE, 0xABAE); (0x13DF, 0xABAF); (0x13E0, 0xABB0); (0x13E1, 0xABB1); (0x13E2, 0xABB2);
   (0x13E3, 0xABB3); (0x13E4, 0xABB4); (0x13E5, 0xABB5); (0x13E6, 0xABB6); (0x13E7, 0xABB7);
   (0x13E8, 0xABB8); (0x13E9, 0xABB9); (0x13EA, 0xABBA); (0x13EB, 0xABBB); (0x13EC, 0xABBC);
   (0x13ED, 0xABBD); (0x13EE, 0xABBE); (0x13EF, 0xABBF); (0x13F0, 0x13F8); (0x13F1, 0x13F9);
   (0x13F2, 0x13FA); (0x13F3, 0x13FB); (0x13F4, 0x13FC); (0x13F5, 0x13FD); (0x1C90, 0x10D0);
   (0x1C91, 0x10D1); (0x1C92, 0x10D2); (0x1C93, 0x10D3); (0x1C94, 0x10D4); (0x1C95, 0x10D5);
   (0x1C96, 0x10D6); (0x1C97, 0x10D7); (0x1C98, 0x10D8); (0x1C99, 0x10D9); (0x1C9A, 0x10DA);
   (0x1C9B, 0x10DB); (0x1C9C, 0x10DC); (0x1C9D, 0x10DD); (0x1C9E, 0x10DE); (0x1C9F, 0x10DF);
   (0x1CA0, 0x10E0); (0x1CA1, 0x10E1); (0x1CA2, 0x10E2); (0x1CA3, 0x10E3); (0x1CA4, 0x10E4);
   (0x1CA5, 0x10E5); (0x1CA6, 0x10E6); (0x1CA7, 0x10E7); (0x1CA8, 0x10E8); (0x1CA9, 0x10E9);
   (0x1CAA, 0x10EA); (0x1CAB, 0x10EB); (0x1CAC, 0x10EC); (0x1CAD, 0x10ED); (0x1CAE, 0x10EE);
   (0x1CAF, 0x10EF); (0x1CB0, 0x10F0); (0x1CB1, 0x10F1); (0x1CB2, 0x10F2); (0x1CB3, 0x10F3);
   (0x1CB4, 0x10F4); (0x1CB5, 0x10F5); (0x1CB6, 0x10F6); (0x1CB7, 0x10F7); (0x1CB8, 0x10F8);
   (0x1CB9, 0x10F9); (0x1CBA, 0x10FA); (0x1CBD, 0x10FD); (0x1CBE, 0x10FE); (0x1CBF, 0x10FF);
   (0x1E00, 0x1E01); (0x1E02, 0x1E03); (0x1E04, 0x1E05); (0x1E06, 0x1E07); (0x1E08, 0x1E09);
   (0x1E0A, 0x1E0B); (0x1E0C, 0x1E0D); (0x1E0E, 0x1E0F); (0x1E10, 0x1E11); (0x1E12, 0x1E13);
   (0x1E14, 0x1E15); (0x1E16, 0x1E17); (0x1E18, 0x1E19); (0x1E1A, 0x1E1B); (0x1E1C, 0x1E1D);
   (0x1E1E, 0x1E1F); (0x1E20, 0x1E21); (0x1E22, 0x1E23); (0x1E24, 0x1E25); (0x1E26, 0x1E27);
   (0x1E28, 0x1E29); (0x1E2A, 0x1E2B); (0x1E2C, 0x1E2D); (0x1E2E, 0x1E2F); (0x1E30, 0x1E31);
   (0x1E32, 0x1E33); (0x1E34, 0x1E35); (0x1E36, 0x1E37); (0x1E38, 0x1E39); (0x1E3A, 0x1E3B);
   (0x1E3C, 0x1E3D); (0x1E3E, 0x1E3F); (0x1E40, 0x1E41); (0x1E42, 0x1E43); (0x1E44, 0x1E45);
   (0x1E46, 0x1E47); (0x1E48, 0x1E49); (0x1E4A, 0x1E4B); (0x1E4C, 0x1E4D); (0x1E4E, 0x1E4F);
   (0x1E50, 0x1E51); (0x1E52, 0x1E53); (0x1E54, 0x1E55); (0x1E56, 0x1E57); (0x1E58, 0x1E59);
   (0x1E5A, 0x1E5B); (0x1E5C, 0x1E5D); (0x1E5E, 0x1E5F); (0x1E60, 0x1E61); (0x1E62, 0x1E63);
   (0x1E64, 0x1E65); (0x1E66, 0x1E67); (0x1E68, 0x1E69); (0x1E6A, 0x1E6B); (0x1E6C, 0x1E6D);
   (0x1E6E, 0x1E6F); (0x1E70, 0x1E71); (0x1E72, 0x1E73); (0x1E74, 0x1E75); (0x1E76, 0x1E77);
   (0x1E78, 0x1E79); (0x1E7A, 0x1E7B); (0x1E7C, 0x1E7D); (0x1E7E, 0x1E7F); (0x1E80, 0x1E81);
   (0x1E82, 0x1E83); (0x1E84, 0x1E85); (0x1E86, 0x1E87); (0x1E88, 0x1E89); (0x1E8A, 0x1E8B);
   (0x1E8C, 0x1E8D); (0x1E8E, 0x1E8F); (0x1E90, 0x1E91); (0x1E92, 0x1E93); (0x1E94, 0x1E95);
   (0x1E9E, 0xDF); (0x1EA0, 0x1EA1); (0x1EA2, 0x1EA3); (0x1EA4, 0x1EA5); (0x1EA6, 0x1EA7);
   (0x1EA8, 0x1EA9); (0x1EAA, 0x1EAB); (0x1EAC, 0x1EAD); (0x1EAE, 0x1EAF); (0x1EB0, 0x1EB1);
   (0x1EB2, 0x1EB3); (0x1EB4, 0x1EB5); (0x1EB6, 0x1EB7); (0x1EB8, 0x1EB9); (0x1EBA, 0x1EBB);
   (0x1EBC, 0x1EBD); (0x1EBE, 0x1EBF); (0x1EC0, 0x1EC1); (0x1EC2, 0x1EC3); (0x1EC4, 0x1EC5);
   (0x1EC6, 0x1EC7); (0x1EC8, 0x1EC9); (0x1ECA, 0x1ECB); (0x1ECC, 0x1ECD); (0x1ECE, 0x1ECF);
   (0x1ED0, 0x1ED1); (0x1ED2, 0x1ED3); (0x1ED4, 0x1ED5); (0x1ED6, 0x1ED7); (0x1ED8, 0x1ED9);
   (0x1EDA, 0x1EDB); (0x1EDC, 0x1EDD); (0x1EDE, 0x1EDF); (0x1EE0, 0x1EE1); (0x1EE2, 0x1EE3);
   (0x1EE4, 0x1EE5); (0x1EE6, 0x1EE7); (0x1EE8, 0x1EE9); (0x1EEA, 0x1EEB); (0x1EEC, 0x1EED);
   (0x1EEE, 0x1EEF); (0x1EF0, 0x1EF1); (0x1EF2, 0x1EF3); (0x1EF4, 0x1EF5); (0x1EF6, 0x1EF7);
   (0x1EF8, 0x1EF9); (0x1EFA, 0x1EFB); (0x1EFC, 0x1EFD); (0x1EFE, 0x1EFF); (0x1F08, 0x1F00);
   (0x1F09, 0x1F01); (0x1F0A, 0x1F02); (0x1F0B, 0x1F03); (0x1F0C, 0x1F04); (0x1F0D, 0x1F05);
   (0x1F0E, 0x1F06); (0x1F0F, 0x1F07); (0x1F18, 0x1F10); (0x1F19, 0x1F11); (0x1F1A, 0x1F12);
   (0x1F1B, 0x1F13); (0x1F1C, 0x1F14); (0x1F1D, 0x1F15); (0x1F28, 0x1F20); (0x1F29, 0x1F21);
   (0x1F2A, 0x1F22); (0x1F2B, 0x1F23); (0x1F2C, 0x1F24); (0x1F2D, 0x1F25); (0x1F2E, 0x1F26);
   (0x1F2F, 0x1F27); (0x1F38, 0x1F30); (0x1F39, 0x1F31); (0x1F3A, 0x1F32); (0x1F3B, 0x1F33);
   (0x1F3C, 0x1F34); (0x1F3D, 0x1F35); (0x1F3E, 0x1F36); (0x1F3F, 0x1F37); (0x1F48, 0x1F40);
   (0x1F49, 0x1F41); (0x1F4A, 0x1F42); (0x1F4B, 0x1F43); (0x1F4C, 0x1F44); (0x1F4D, 0x1F45);
   (0x1F59, 0x1F51); (0x1F5B, 0x1F53); (0x1F5D, 0x1F55); (0x1F5F, 0x1F57); (0x1F68, 0x1F60);
   (0x1F69, 0x1F61); (0x1F6A, 0x1F62); (0x1F6B, 0x1F63); (0x1F6C, 0x1F64); (0x1F6D, 0x1F65);
   (0x1F6E, 0x1F66); (0x1F6F, 0x1F67); (0x1F88, 0x1F80); (0x1F89, 0x1F81); (0x1F8A, 0x1F82);
   (0x1F8B, 0x1F83); (0x1F8C, 0x1F84); (0x1F8D, 0x1F85); (0x1F8E, 0x1F86); (0x1F8F, 0x1F87);
   (0x1F98, 0x1F90); (0x1F99, 0x1F91); (0x1F9A, 0x1F92); (0x1F9B, 0x1F93); (0x1F9C, 0x1F94);
   (0x1F9D, 0x1F95); (0x1F9E, 0x1F96); (0x1F9F, 0x1F97); (0x1FA8, 0x1FA0); (0x1FA9, 0x1FA1);
   (0x1FAA, 0x1FA2); (0x1FAB, 0x1FA3); (0x1FAC, 0x1FA4); (0x1FAD, 0x1FA5); (0x1FAE, 0x1FA6);
   (0x1FAF, 0x1FA7); (0x1FB8, 0x1FB0); (0x1FB9, 0x1FB1); (0x1FBA, 0x1F70); (0x1FBB, 0x1F71);
   (0x1FBC, 0x1FB3); (0x1FC8, 0x1F72); (0x1FC9, 0x1F73); (0x1FCA, 0x1F74); (0x1FCB, 0x1F75);
   (0x1FCC, 0x1FC3); (0x1FD8, 0x1FD0); (0x1FD9, 0x1FD1); (0x1FDA, 0x1F76); (0x1FDB, 0x1F77);
   (0x1FE8, 0x1FE0); (0x1FE9, 0x1FE1); (0x1FEA, 0x1F7A); (0x1FEB, 0x1F7B); (0x1FEC, 0x1FE5);
   (0x1FF8, 0x1F78); (0x1FF9, 0x1F79); (0x1FFA, 0x1F7C); (0x1FFB, 0x1F7D); (0x1FFC, 0x1FF3);
   (0x2126, 0x3C9); (0x212A, 0x6B); (0x212B, 0xE5); (0x2132, 0x214E); (0x2160, 0x2170);
   (0x2161, 0x2171); (0x2162, 0x2172); (0x2163, 0x2173); (0x2164, 0x2174); (0x2165, 0x2175);
   (0x2166, 0x2176); (0x2167, 0x2177); (0x2168, 0x2178); (0x2169, 0x2179); (0x216A, 0x217A);
   (0x216B, 0x217B); (0x216C, 0x217C); (0x216D, 0x217D); (0x216E, 0x217E); (0x216F, 0x217F);
   (0x2183, 0x2184); (0x24B6, 0x24D0); (0x24B7, 0x24D1); (0x24B8, 0x24D2); (0x24B9, 0x24D3);
   (0x24BA, 0x24D4); (0x24BB, 0x24D5); (0x24BC, 0x24D6); (0x24BD, 0x24D7); (0x24BE, 0x24D8);
   (0x24BF, 0x24D9); (0x24C0, 0x24DA); (0x24C1, 0x24DB); (0x24C2, 0x24DC); (0x24C3, 0x24DD);
   (0x24C4, 0x24DE); (0x24C5, 0x24DF); (0x24C6, 0x24E0); (0x24C7, 0x24E1); (0x24C8, 0x24E2);
   (0x24C9, 0x24E3); (0x24CA, 0x24E4); (0x24CB, 0x24E5); (0x24CC, 0x24E6); (0x24CD, 0x24E7);
   (0x24CE, 0x24E8); (0x24CF, 0x24E9); (0x2C00, 0x2C30); (0x2C01, 0x2C31); (0x2C02, 0x2C32);
   (0x2C03, 0x2C33); (0x2C04, 0x2C34); (0x2C05, 0x2C35); (0x2C06, 0x2C36); (0x2C07, 0x2C37);
   (0x2C08, 0x2C38); (0x2C09, 0x2C39); (0x2C0A, 0x2C3A); (0x2C0B, 0x2C3B); (0x2C0C, 0x2C3C);
   (0x2C0D, 0x2C3D); (0x2C0E, 0x2C3E); (0x2C0F, 0x2C3F); (0x2C10, 0x2C40); (0x2C11, 0x2C41);
   (0x2C12, 0x2C42); (0x2C13, 0x2C43); (0x2C14, 0x2C44); (0x2C15, 0x2C45); (0x2C16, 0x2C46);
   (0x2C17, 0x2C47); (0x2C18, 0x2C48); (0x2C19, 0x2C49); (0x2C1A, 0x2C4A); (0x2C1B, 0x2C4B);
   (0x2C1C, 0x2C4C); (0x2C1D, 0x2C4D); (0x2C1E, 0x2C4E); (0x2C1F, 0x2C4F); (0x2C20, 0x2C50);
   (0x2C21, 0x2C51); (0x2C22, 0x2C52); (0x2C23, 0x2C53); (0x2C24, 0x2C54); (0x2C25, 0x2C55);
   (0x2C26, 0x2C56); (0x2C27, 0x2C57); (0x2C28, 0x2C58); (0x2C29, 0x2C59); (0x2C2A, 0x2C5A);
   (0x2C2B, 0x2C5B); (0x2C2C, 0x2C5C); (0x2C2D, 0x2C5D); (0x2C2E, 0x2C5E); (0x2C2F, 0x2C5F);
   (0x2C60, 0x2C61); (0x2C62, 0x26B); (0x2C63, 0x1D7D); (0x2C64, 0x27D); (0x2C67, 0x2C68);
   (0x2C69, 0x2C6A); (0x2C6B, 0x2C6C); (0x2C6D, 0x251); (0x2C6E, 0x271); (0x2C6F, 0x250);
   (0x2C70, 0x252); (0x2C72, 0x2C73); (0x2C75, 0x2C76); (0x2C7E, 0x23F); (0x2C7F, 0x240);
   (0x2C80, 0x2C81); (0x2C82, 0x2C83); (0x2C84, 0x2C85); (0x2C86, 0x2C87); (0x2C88, 0x2C89);
   (0x2C8A, 0x2C8B); (0x2C8C, 0x2C8D); (0x2C8E, 0x2C8F); (0x2C90, 0x2C91); (0x2C92, 0x2C93);
   (0x2C94, 0x2C95); (0x2C96, 0x2C97); (0x2C98, 0x2C99); (0x2C9A, 0x2C9B); (0x2C9C, 0x2C9D);
   (0x2C9E, 0x2C9F); (0x2CA0, 0x2CA1); (0x2CA2, 0x2CA3); (0x2CA4, 0x2CA5); (0x2CA6, 0x2CA7);
   (0x2CA8, 0x2CA9); (0x2CAA, 0x2CAB); (0x2CAC, 0x2CAD); (0x2CAE, 0x2CAF); (0x2CB0, 0x2CB1);
   (0x2CB2, 0x2CB3); (0x2CB4, 0x2CB5); (0x2CB6, 0x2CB7); (0x2CB8, 0x2CB9); (0x2CBA, 0x2CBB);
   (0x2CBC, 0x2CBD); (0x2CBE, 0x2CBF); (0x2CC0, 0x2CC1); (0x2CC2, 0x2CC3); (0x2CC4, 0x2CC5);
   (0x2CC6, 0x2CC7); (0x2CC8, 0x2CC9); (0x2CCA, 0x2CCB); (0x2CCC, 0x2CCD); (0x2CCE, 0x2CCF);
   (0x2CD0, 0x2CD1); (0x2CD2, 0x2CD3); (0x2CD4, 0x2CD5); (0x2CD6, 0x2CD7); (0x2CD8, 0x2CD9);
   (0x2CDA, 0x2CDB); (0x2CDC, 0x2CDD); (0x2CDE, 0x2CDF); (0x2CE0, 0x2CE1); (0x2CE2, 0x2CE3);
   (0x2CEB, 0x2CEC); (0x2CED, 0x2CEE); (0x2CF2, 0x2CF3); (0xA640, 0xA641); (0xA642, 0xA643);
   (0xA644, 0xA645); (0xA646, 0xA647); (0xA648, 0xA649); (0xA64A, 0xA64B); (0xA64C, 0xA64D);
   (0xA64E, 0xA64F); (0xA650, 0xA651); (0xA652, 0xA653); (0xA654, 0xA655); (0xA656, 0xA657);
   (0xA658, 0xA659); (0xA65A, 0xA65B); (0xA65C, 0xA65D); (0xA65E, 0xA65F); (0xA660, 0xA661);
   (0xA662, 0xA663); (0xA664, 0xA665); (0xA666, 0xA667); (0xA668, 0xA669); (0xA66A, 0xA66B);
   (0xA66C, 0xA66D); (0xA680, 0xA681); (0xA682, 0xA683); (0xA684, 0xA685); (0xA686, 0xA687);
   (0xA688, 0xA689); (0xA68A, 0xA68B); (0xA68C, 0xA68D); (0xA68E, 0xA68F); (0xA690, 0xA691);
   (0xA692, 0xA693); (0xA694, 0xA695); (0xA696, 0xA697); (0xA698, 0xA699); (0xA69A, 0xA69B);
   (0xA722, 0xA723); (0xA724, 0xA725); (0xA726, 0xA727); (0xA728, 0xA729); (0xA72A, 0xA72B);
   (0xA72C, 0xA72D); (0xA72E, 0xA72F); (0xA732, 0xA733); (0xA734, 0xA735); (0xA736, 0xA737);
   (0xA738, 0xA739); (0xA73A, 0xA73B); (0xA73C, 0xA73D); (0xA73E, 0xA73F); (0xA740, 0xA741);
   (0xA742, 0xA743); (0xA744, 0xA745); (0xA746, 0xA747); (0xA748, 0xA749); (0xA74A, 0xA74B);
   (0xA74C, 0xA74D); (0xA74E, 0xA74F); (0xA750, 0xA751); (0xA752, 0xA753); (0xA754, 0xA755);
   (0xA756, 0xA757); (0xA758, 0xA759); (0xA75A, 0xA75B); (0xA75C, 0xA75D); (0xA75E, 0xA75F);
   (0xA760, 0xA761); (0xA762, 0xA763); (0xA764, 0xA765); (0xA766, 0xA767); (0xA768, 0xA769);
   (0xA76A, 0xA76B); (0xA76C, 0xA76D); (0xA76E, 0xA76F); (0xA779, 0xA77A); (0xA77B, 0xA77C);
   (0xA77D, 0x1D79); (0xA77E, 0xA77F); (0xA780, 0xA781); (0xA782, 0xA783); (0xA784, 0xA785);
   (0xA786, 0xA787); (0xA78B, 0xA78C); (0xA78D, 0x265); (0xA790, 0xA791); (0xA792, 0xA793);
   (0xA796, 0xA797); (0xA798, 0xA799); (0xA79A, 0xA79B); (0xA79C, 0xA79D); (0xA79E, 0xA79F);
   (0xA7A0, 0xA7A1); (0xA7A2, 0xA7A3); (0xA7A4, 0xA7A5); (0xA7A6, 0xA7A7); (0xA7A8, 0xA7A9);
   (0xA7AA, 0x266); (0xA7AB, 0x25C); (0xA7AC, 0x261); (0xA7AD, 0x26C); (0xA7AE, 0x26A);
   (0xA7B0, 0x29E); (0xA7B1, 0x287); (0xA7B2, 0x29D); (0xA7B3, 0xAB53); (0xA7B4, 0xA7B5);
   (0xA7B6, 0xA7B7); (0xA7B8, 0xA7B9); (0xA7BA, 0xA7BB); (0xA7BC, 0xA7BD); (0xA7BE, 0xA7BF);
   (0xA7C0, 0xA7C1); (0xA7C2, 0xA7C3); (0xA7C4, 0xA794); (0xA7C5, 0x282); (0xA7C6, 0x1D8E);
   (0xA7C7, 0xA7C8); (0xA7C9, 0xA7CA); (0xA7D0, 0xA7D1); (0xA7D6, 0xA7D7); (0xA7D8, 0xA7D9);
   (0xA7F5, 0xA7F6); (0xFF21, 0xFF41); (0xFF22, 0xFF42); (0xFF23, 0xFF43); (0xFF24, 0xFF44);
   (0xFF25, 0xFF45); (0xFF26, 0xFF46); (0xFF27, 0xFF47); (0xFF28, 0xFF48); (0xFF29, 0xFF49);
   (0xFF2A, 0xFF4A); (0xFF2B, 0xFF4B); (0xFF2C, 0xFF4C); (0xFF2D, 0xFF4D); (0xFF2E, 0xFF4E);
   (0xFF2F, 0xFF4F); (0xFF30, 0xFF50); (0xFF31, 0xFF51); (0xFF32, 0xFF52); (0xFF33, 0xFF53);
   (0xFF34, 0xFF54); (0xFF35, 0xFF55); (0xFF36, 0xFF56); (0xFF37, 0xFF57); (0xFF38, 0xFF58);
   (0xFF39, 0xFF59); (0xFF3A, 0xFF5A); (0x10400, 0x10428); (0x10401, 0x10429); (0x10402, 0x1042A);
   (0x10403, 0x1042B); (0x10404, 0x1042C); (0x10405, 0x1042D); (0x10406, 0x1042E); (0x10407, 0x1042F);
   (0x10408, 0x10430); (0x10409, 0x10431); (0x1040A, 0x10432); (0x1040B, 0x10433); (0x1040C, 0x10434);
   (0x1040D, 0x10435); (0x1040E, 0x10436); (0x1040F, 0x10437); (0x10410, 0x10438); (0x10411, 0x10439);
   (0x10412, 0x1043A); (0x10413, 0x1043B); (0x10414, 0x1043C); (0x10415, 0x1043D); (0x10416, 0x1043E);
   (0x10417, 0x1043F); (0x10418, 0x10440); (0x10419, 0x10441); (0x1041A, 0x10442); (0x1041B, 0x10443);
   (0x1041C, 0x10444); (0x1041D, 0x10445); (0x1041E, 0x10446); (0x1041F, 0x10447); (0x10420, 0x10448);
   (0x10421, 0x10449); (0x10422, 0x1044A); (0x10423, 0x1044B); (0x10424, 0x1044C); (0x10425, 0x1044D);
   (0x10426, 0x1044E); (0x10427, 0x1044F); (0x104B0, 0x104D8); (0x104B1, 0x104D9); (0x104B2, 0x104DA);
   (0x104B3, 0x104DB); (0x104B4, 0x104DC); (0x104B5, 0x104DD); (0x104B6, 0x104DE); (0x104B7, 0x104DF);
   (0x104B8, 0x104E0); (0x104B9, 0x104E1); (0x104BA, 0x104E2); (0x104BB, 0x104E3); (0x104BC, 0x104E4);
   (0x104BD, 0x104E5); (0x104BE, 0x104E6); (0x104BF, 0x104E7); (0x104C0, 0x104E8); (0x104C1, 0x104E9);
   (0x104C2, 0x104EA); (0x104C3, 0x104EB); (0x104C4, 0x104EC); (0x104C5, 0x104ED); (0x104C6, 0x104EE);
   (0x104C7, 0x104EF); (0x104C8, 0x104F0); (0x104C9, 0x104F1); (0x104CA, 0x104F2); (0x104CB, 0x104F3);
   (0x104CC, 0x104F4); (0x104CD, 0x104F5); (0x104CE, 0x104F6); (0x104CF, 0x104F7); (0x104D0, 0x104F8);
   (0x104D1, 0x104F9); (0x104D2, 0x104FA); (0x104D3, 0x104FB); (0x10570, 0x10597); (0x10571, 0x10598);
   (0x10572, 0x10599); (0x10573, 0x1059A); (0x10574, 0x1059B); (0x10575, 0x1059C); (0x10576, 0x1059D);
   (0x10577, 0x1059E); (0x10578, 0x1059F); (0x10579, 0x105A0); (0x1057A, 0x105A1); (0x1057C, 0x105A3);
   (0x1057D, 0x105A4); (0x1057E, 0x105A5); (0x1057F, 0x105A6); (0x10580, 0x105A7); (0x10581, 0x105A8);
   (0x10582, 0x105A9); (0x10583, 0x105AA); (0x10584, 0x105AB); (0x10585, 0x105AC); (0x10586, 0x105AD);
   (0x10587, 0x105AE); (0x10588, 0x105AF); (0x10589, 0x105B0); (0x1058A, 0x105B1); (0x1058C, 0x105B3);
   (0x1058D, 0x105B4); (0x1058E, 0x105B5); (0x1058F, 0x105B6); (0x10590, 0x105B7); (0x10591, 0x105B8);
   (0x10592, 0x105B9); (0x10594, 0x105BB); (0x10595, 0x105BC); (0x10C80, 0x10CC0); (0x10C81, 0x10CC1);
   (0x10C82, 0x10CC2); (0x10C83, 0x10CC3); (0x10C84, 0x10CC4); (0x10C85, 0x10CC5); (0x10C86, 0x10CC6);
   (0x10C87, 0x10CC7); (0x10C88, 0x10CC8); (0x10C89, 0x10CC9); (0x10C8A, 0x10CCA); (0x10C8B, 0x10CCB);
   (0x10C8C, 0x10CCC); (0x10C8D, 0x10CCD); (0x10C8E, 0x10CCE); (0x10C8F, 0x10CCF); (0x10C90, 0x10CD0);
   (0x10C91, 0x10CD1); (0x10C92, 0x10CD2); (0x10C93, 0x10CD3); (0x10C94, 0x10CD4); (0x10C95, 0x10CD5);
   (0x10C96, 0x10CD6); (0x10C97, 0x10CD7); (0x10C98, 0x10CD8); (0x10C99, 0x10CD9); (0x10C9A, 0x10CDA);
   (0x10C9B, 0x10CDB); (0x10C9C, 0x10CDC); (0x10C9D, 0x10CDD); (0x10C9E, 0x10CDE); (0x10C9F, 0x10CDF);
   (0x10CA0, 0x10CE0); (0x10CA1, 0x10CE1); (0x10CA2, 0x10CE2); (0x10CA3, 0x10CE3); (0x10CA4, 0x10CE4);
   (0x10CA5, 0x10CE5); (0x10CA6, 0x10CE6); (0x10CA7, 0x10CE7); (0x10CA8, 0x10CE8); (0x10CA9, 0x10CE9);
   (0x10CAA, 0x10CEA); (0x10CAB, 0x10CEB); (0x10CAC, 0x10CEC); (0x10CAD, 0x10CED); (0x10CAE, 0x10CEE);
   (0x10CAF, 0x10CEF); (0x10CB0, 0x10CF0); (0x10CB1, 0x10CF1); (0x10CB2, 0x10CF2); (0x118A0, 0x118C0);
   (0x118A1, 0x118C1); (0x118A2, 0x118C2); (0x118A3, 0x118C3); (0x118A4, 0x118C4); (0x118A5, 0x118C5);
   (0x118A6, 0x118C6); (0x118A7, 0x118C7); (0x118A8, 0x118C8); (0x118A9, 0x118C9); (0x118AA, 0x118CA);
   (0x118AB, 0x118CB); (0x118AC, 0x118CC); (0x118AD, 0x118CD); (0x118AE, 0x118CE); (0x118AF, 0x118CF);
   (0x118B0, 0x118D0); (0x118B1, 0x118D1); (0x118B2, 0x118D2); (0x118B3, 0x118D3); (0x118B4, 0x118D4);
   (0x118B5, 0x118D5); (0x118B6, 0x118D6); (0x118B7, 0x118D7); (0x118B8, 0x118D8); (0x118B9, 0x118D9);
   (0x118BA, 0x118DA); (0x118BB, 0x118DB); (0x118BC, 0x118DC); (0x118BD, 0x118DD); (0x118BE, 0x118DE);
   (0x118BF, 0x118DF); (0x16E40, 0x16E60); (0x16E41, 0x16E61); (0x16E42, 0x16E62); (0x16E43, 0x16E63);
   (0x16E44, 0x16E64); (0x16E45, 0x16E65); (0x16E46, 0x16E66); (0x16E47, 0x16E67); (0x16E48, 0x16E68);
   (0x16E49, 0x16E69); (0x16E4A, 0x16E6A); (0x16E4B, 0x16E6B); (0x16E4C, 0x16E6C); (0x16E4D, 0x16E6D);
   (0x16E4E, 0x16E6E); (0x16E4F, 0x16E6F); (0x16E50, 0x16E70); (0x16E51, 0x16E71); (0x16E52, 0x16E72);
   (0x16E53, 0x16E73); (0x16E54, 0x16E74); (0x16E55, 0x16E75); (0x16E56, 0x16E76); (0x16E57, 0x16E77);
   (0x16E58, 0x16E78); (0x16E59, 0x16E79); (0x16E5A, 0x16E7A); (0x16E5B, 0x16E7B); (0x16E5C, 0x16E7C);
   (0x16E5D, 0x16E7D); (0x16E5E, 0x16E7E); (0x16E5F, 0x16E7F); (0x1E900, 0x1E922); (0x1E901, 0x1E923);
   (0x1E902, 0x1E924); (0x1E903, 0x1E925); (0x1E904, 0x1E926); (0x1E905, 0x1E927); (0x1E906, 0x1E928);
   (0x1E907, 0x1E929); (0x1E908, 0x1E92A); (0x1E909, 0x1E92B); (0x1E90A, 0x1E92C); (0x1E90B, 0x1E92D);
   (0x1E90C, 0x1E92E); (0x1E90D, 0x1E92F); (0x1E90E, 0x1E930); (0x1E90F, 0x1E931); (0x1E910, 0x1E932);
   (0x1E911, 0x1E933); (0x1E912, 0x1E934); (0x1E913, 0x1E935); (0x1E914, 0x1E936); (0x1E915, 0x1E937);
   (0x1E916, 0x1E938); (0x1E917, 0x1E939); (0x1E918, 0x1E93A); (0x1E919, 0x1E93B); (0x1E91A, 0x1E93C);
   (0x1E91B, 0x1E93D); (0x1E91C, 0x1E93E); (0x1E91D, 0x1E93F); (0x1E91E, 0x1E940); (0x1E91F, 0x1E941);
   (0x1E920, 0x1E942); (0x1E921, 0x1E943)
  ]%N.

(** The code points with the property Case_Ignorable, as inclusive
    ranges. *)
Definition case_ignorable_ranges : list (N * N) :=
  [
   (0x27, 0x27); (0x2E, 0x2E); (0x3A, 0x3A); (0x5E, 0x5E); (0x60, 0x60);
   (0xA8, 0xA8); (0xAD, 0xAD); (0xAF, 0xAF); (0xB4, 0xB4); (0xB7, 0xB8);
   (0x2B0, 0x36F); (0x374, 0x375); (0x37A, 0x37A); (0x384, 0x385); (0x387, 0x387);
   (0x483, 0x489); (0x559, 0x559); (0x55F, 0x55F); (0x591, 0x5BD); (0x5BF, 0x5BF);
   (0x5C1, 0x5C2); (0x5C4, 0x5C5); (0x5C7, 0x5C7); (0x5F4, 0x5F4); (0x600, 0x605);
   (0x610, 0x61A); (0x61C, 0x61C); (0x640, 0x640); (0x64B, 0x65F); (0x670, 0x670);
   (0x6D6, 0x6DD); (0x6DF, 0x6E8); (0x6EA, 0x6ED); (0x70F, 0x70F); (0x711, 0x711);
   (0x730, 0x74A); (0x7A6, 0x7B0); (0x7EB, 0x7F5); (0x7FA, 0x7FA); (0x7FD, 0x7FD);
   (0x816, 0x82D); (0x859, 0x85B); (0x888, 0x888); (0x890, 0x891); (0x898, 0x89F);
   (0x8C9, 0x902); (0x93A, 0x93A); (0x93C, 0x93C); (0x941, 0x948); (0x94D, 0x94D);
   (0x951, 0x957); (0x962, 0x963); (0x971, 0x971); (0x981, 0x981); (0x9BC, 0x9BC);
   (0x9C1, 0x9C4); (0x9CD, 0x9CD); (0x9E2, 0x9E3); (0x9FE, 0x9FE); (0xA01, 0xA02);
   (0xA3C, 0xA3C); (0xA41, 0xA42); (0xA47, 0xA48); (0xA4B, 0xA4D); (0xA51, 0xA51);
   (0xA70, 0xA71); (0xA75, 0xA75); (0xA81, 0xA82); (0xABC, 0xABC); (0xAC1, 0xAC5);
   (0xAC7, 0xAC8); (0xACD, 0xACD); (0xAE2, 0xAE3); (0xAFA, 0xAFF); (0xB01, 0xB01);
   (0xB3C, 0xB3C); (0xB3F, 0xB3F); (0xB41, 0xB44); (0xB4D, 0xB4D); (0xB55, 0xB56);
   (0xB62, 0xB63); (0xB82, 0xB82); (0xBC0, 0xBC0); (0xBCD, 0xBCD); (0xC00, 0xC00);
   (0xC04, 0xC04); (0xC3C, 0xC3C); (0xC3E, 0xC40); (0xC46, 0xC48); (0xC4A, 0xC4D);
   (0xC55, 0xC56); (0xC62, 0xC63); (0xC81, 0xC81); (0xCBC, 0xCBC); (0xCBF, 0xCBF);
   (0xCC6, 0xCC6); (0xCCC, 0xCCD); (0xCE2, 0xCE3); (0xD00, 0xD01); (0xD3B, 0xD3C);
   (0xD41, 0xD44); (0xD4D, 0xD4D); (0xD62, 0xD63); (0xD81, 0xD81); (0xDCA, 0xDCA);
   (0xDD2, 0xDD4); (0xDD6, 0xDD6); (0xE31, 0xE31); (0xE34, 0xE3A); (0xE46, 0xE4E);
   (0xEB1, 0xEB1); (0xEB4, 0xEBC); (0xEC6, 0xEC6); (0xEC8, 0xECD); (0xF18, 0xF19);
   (0xF35, 0xF35); (0xF37, 0xF37); (0xF39, 0xF39); (0xF71, 0xF7E); (0xF80, 0xF84);
   (0xF86, 0xF87); (0xF8D, 0xF97); (0xF99, 0xFBC); (0xFC6, 0xFC6); (0x102D, 0x1030);
   (0x1032, 0x1037); (0x1039, 0x103A); (0x103D, 0x103E); (0x1058, 0x1059); (0x105E, 0x1060);
   (0x1071, 0x1074); (0x1082, 0x1082); (0x1085, 0x1086); (0x108D, 0x108D); (0x109D, 0x109D);
   (0x10FC, 0x10FC); (0x135D, 0x135F); (0x1712, 0x1714); (0x1732, 0x1733); (0x1752, 0x1753);
   (0x1772, 0x1773); (0x17B4, 0x17B5); (0x17B7, 0x17BD); (0x17C6, 0x17C6); (0x17C9, 0x17D3);
   (0x17D7, 0x17D7); (0x17DD, 0x17DD); (0x180B, 0x180F); (0x1843, 0x1843); (0x1885, 0x1886);
   (0x18A9, 0x18A9); (0x1920, 0x1922); (0x1927, 0x1928); (0x1932, 0x1932); (0x1939, 0x193B);
   (0x1A17, 0x1A18); (0x1A1B, 0x1A1B); (0x1A56, 0x1A56); (0x1A58, 0x1A5E); (0x1A60, 0x1A60);
   (0x1A62, 0x1A62); (0x1A65, 0x1A6C); (0x1A73, 0x1A7C); (0x1A7F, 0x1A7F); (0x1AA7, 0x1AA7);
   (0x1AB0, 0x1ACE); (0x1B00, 0x1B03); (0x1B34, 0x1B34); (0x1B36, 0x1B3A); (0x1B3C, 0x1B3C);
   (0x1B42, 0x1B42); (0x1B6B, 0x1B73); (0x1B80, 0x1B81); (0x1BA2, 0x1BA5); (0x1BA8, 0x1BA9);
   (0x1BAB, 0x1BAD); (0x1BE6, 0x1BE6); (0x1BE8, 0x1BE9); (0x1BED, 0x1BED); (0x1BEF, 0x1BF1);
   (0x1C2C, 0x1C33); (0x1C36, 0x1C37); (0x1C78, 0x1C7D); (0x1CD0, 0x1CD2); (0x1CD4, 0x1CE0);
   (0x1CE2, 0x1CE8); (0x1CED, 0x1CED); (0x1CF4, 0x1CF4); (0x1CF8, 0x1CF9); (0x1D2C, 0x1D6A);
   (0x1D78, 0x1D78); (0x1D9B, 0x1DFF); (0x1FBD, 0x1FBD); (0x1FBF, 0x1FC1); (0x1FCD, 0x1FCF);
   (0x1FDD, 0x1FDF); (0x1FED, 0x1FEF); (0x1FFD, 0x1FFE); (0x200B, 0x200F); (0x2018, 0x2019);
   (0x2024, 0x2024); (0x2027, 0x2027); (0x202A, 0x202E); (0x2060, 0x2064); (0x2066, 0x206F);
   (0x2071, 0x2071); (0x207F, 0x207F); (0x2090, 0x209C); (0x20D0, 0x20F0); (0x2C7C, 0x2C7D);
   (0x2CEF, 0x2CF1); (0x2D6F, 0x2D6F); (0x2D7F, 0x2D7F); (0x2DE0, 0x2DFF); (0x2E2F, 0x2E2F);
   (0x3005, 0x3005); (0x302A, 0x302D); (0x3031, 0x3035); (0x303B, 0x303B); (0x3099, 0x309E);
   (0x30FC, 0x30FE); (0xA015, 0xA015); (0xA4F8, 0xA4FD); (0xA60C, 0xA60C); (0xA66F, 0xA672);
   (0xA674, 0xA67D); (0xA67F, 0xA67F); (0xA69C, 0xA69F); (0xA6F0, 0xA6F1); (0xA700, 0xA721);
   (0xA770, 0xA770); (0xA788, 0xA78A); (0xA7F2, 0xA7F4); (0xA7F8, 0xA7F9); (0xA802, 0xA802);
   (0xA806, 0xA806); (0xA80B, 0xA80B); (0xA825, 0xA826); (0xA82C, 0xA82C); (0xA8C4, 0xA8C5);
   (0xA8E0, 0xA8F1); (0xA8FF, 0xA8FF); (0xA926, 0xA92D); (0xA947, 0xA951); (0xA980, 0xA982);
   (0xA9B3, 0xA9B3); (0xA9B6, 0xA9B9); (0xA9BC, 0xA9BD); (0xA9CF, 0xA9CF); (0xA9E5, 0xA9E6);
   (0xAA29, 0xAA2E); (0xAA31, 0xAA32); (0xAA35, 0xAA36); (0xAA43, 0xAA43); (0xAA4C, 0xAA4C);
   (0xAA70, 0xAA70); (0xAA7C, 0xAA7C); (0xAAB0, 0xAAB0); (0xAAB2, 0xAAB4); (0xAAB7, 0xAAB8);
   (0xAABE, 0xAABF); (0xAAC1, 0xAAC1); (0xAADD, 0xAADD); (0xAAEC, 0xAAED); (0xAAF3, 0xAAF4);
   (0xAAF6, 0xAAF6); (0xAB5B, 0xAB5F); (0xAB69, 0xAB6B); (0xABE5, 0xABE5); (0xABE8, 0xABE8);
   (0xABED, 0xABED); (0xFB1E, 0xFB1E); (0xFBB2, 0xFBC2); (0xFE00, 0xFE0F); (0xFE13, 0xFE13);
   (0xFE20, 0xFE2F); (0xFE52, 0xFE52); (0xFE55, 0xFE55); (0xFEFF, 0xFEFF); (0xFF07, 0xFF07);
   (0xFF0E, 0xFF0E); (0xFF1A, 0xFF1A); (0xFF3E, 0xFF3E); (0xFF40, 0xFF40); (0xFF70, 0xFF70);
   (0xFF9E, 0xFF9F); (0xFFE3, 0xFFE3); (0xFFF9, 0xFFFB); (0x101FD, 0x101FD); (0x102E0, 0x102E0);
   (0x10376, 0x1037A); (0x10780, 0x10785); (0x10787, 0x107B0); (0x107B2, 0x107BA); (0x10A01, 0x10A03);
   (0x10A05, 0x10A06); (0x10A0C, 0x10A0F); (0x10A38, 0x10A3A); (0x10A3F, 0x10A3F); (0x10AE5, 0x10AE6);
   (0x10D24, 0x10D27); (0x10EAB, 0x10EAC); (0x10F46, 0x10F50); (0x10F82, 0x10F85); (0x11001, 0x11001);
   (0x11038, 0x11046); (0x11070, 0x11070); (0x11073, 0x11074); (0x1107F, 0x11081); (0x110B3, 0x110B6);
   (0x110B9, 0x110BA); (0x110BD, 0x110BD); (0x110C2, 0x110C2); (0x110CD, 0x110CD); (0x11100, 0x11102);
   (0x11127, 0x1112B); (0x1112D, 0x11134); (0x11173, 0x11173); (0x11180, 0x11181); (0x111B6, 0x111BE);
   (0x111C9, 0x111CC); (0x111CF, 0x111CF); (0x1122F, 0x11231); (0x11234, 0x11234); (0x11236, 0x11237);
   (0x1123E, 0x1123E); (0x112DF, 0x112DF); (0x112E3, 0x112EA); (0x11300, 0x11301); (0x1133B, 0x1133C);
   (0x11340, 0x11340); (0x11366, 0x1136C); (0x11370, 0x11374); (0x11438, 0x1143F); (0x11442, 0x11444);
   (0x11446, 0x11446); (0x1145E, 0x1145E); (0x114B3, 0x114B8); (0x114BA, 0x114BA); (0x114BF, 0x114C0);
   (0x114C2, 0x114C3); (0x115B2, 0x115B5); (0x115BC, 0x115BD); (0x115BF, 0x115C0); (0x115DC, 0x115DD);
   (0x11633, 0x1163A); (0x1163D, 0x1163D); (0x1163F, 0x11640); (0x116AB, 0x116AB); (0x116AD, 0x116AD);
   (0x116B0, 0x116B5); (0x116B7, 0x116B7); (0x1171D, 0x1171F); (0x11722, 0x11725); (0x11727, 0x1172B);
   (0x1182F, 0x11837); (0x11839, 0x1183A); (0x1193B, 0x1193C); (0x1193E, 0x1193E); (0x11943, 0x11943);
   (0x119D4, 0x119D7); (0x119DA, 0x119DB); (0x119E0, 0x119E0); (0x11A01, 0x11A0A); (0x11A33, 0x11A38);
   (0x11A3B, 0x11A3E); (0x11A47, 0x11A47); (0x11A51, 0x11A56); (0x11A59, 0x11A5B); (0x11A8A, 0x11A96);
   (0x11A98, 0x11A99); (0x11C30, 0x11C36); (0x11C38, 0x11C3D); (0x11C3F, 0x11C3F); (0x11C92, 0x11CA7);
   (0x11CAA, 0x11CB0); (0x11CB2, 0x11CB3); (0x11CB5, 0x11CB6); (0x11D31, 0x11D36); (0x11D3A, 0x11D3A);
   (0x11D3C, 0x11D3D); (0x11D3F, 0x11D45); (0x11D47, 0x11D47); (0x11D90, 0x11D91); (0x11D95, 0x11D95);
   (0x11D97, 0x11D97); (0x11EF3, 0x11EF4); (0x13430, 0x13438); (0x16AF0, 0x16AF4); (0x16B30, 0x16B36);
   (0x16B40, 0x16B43); (0x16F4F, 0x16F4F); (0x16F8F, 0x16F9F); (0x16FE0, 0x16FE1); (0x16FE3, 0x16FE4);
   (0x1AFF0, 0x1AFF3); (0x1AFF5, 0x1AFFB); (0x1AFFD, 0x1AFFE); (0x1BC9D, 0x1BC9E); (0x1BCA0, 0x1BCA3);
   (0x1CF00, 0x1CF2D); (0x1CF30, 0x1CF46); (0x1D167, 0x1D169); (0x1D173, 0x1D182); (0x1D185, 0x1D18B);
   (0x1D1AA, 0x1D1AD); (0x1D242, 0x1D244); (0x1DA00, 0x1DA36); (0x1DA3B, 0x1DA6C); (0x1DA75, 0x1DA75);
   (0x1DA84, 0x1DA84); (0x1DA9B, 0x1DA9F); (0x1DAA1, 0x1DAAF); (0x1E000, 0x1E006); (0x1E008, 0x1E018);
   (0x1E01B, 0x1E021); (0x1E023, 0x1E024); (0x1E026, 0x1E02A); (0x1E130, 0x1E13D); (0x1E2AE, 0x1E2AE);
   (0x1E2EC, 0x1E2EF); (0x1E8D0, 0x1E8D6); (0x1E944, 0x1E94B); (0x1F3FB, 0x1F3FF); (0xE0001, 0xE0001);
   (0xE0020, 0xE007F); (0xE0100, 0xE01EF)
  ]%N.

(** The code points with the property Cased that are not Case_Ignorable,
    as inclusive ranges. *)
Definition cased_ranges : list (N * N) :=
  [
   (0x41, 0x5A); (0x61, 0x7A); (0xAA, 0xAA); (0xB5, 0xB5); (0xBA, 0xBA);
   (0xC0, 0xD6); (0xD8, 0xF6); (0xF8, 0x1BA); (0x1BC, 0x1BF); (0x1C4, 0x293);
   (0x295, 0x2AF); (0x370, 0x373); (0x376, 0x377); (0x37B, 0x37D); (0x37F, 0x37F);
   (0x386, 0x386); (0x388, 0x38A); (0x38C, 0x38C); (0x38E, 0x3A1); (0x3A3, 0x3F5);
   (0x3F7, 0x481); (0x48A, 0x52F); (0x531, 0x556); (0x560, 0x588); (0x10A0, 0x10C5);
   (0x10C7, 0x10C7); (0x10CD, 0x10CD); (0x10D0, 0x10FA); (0x10FD, 0x10FF); (0x13A0, 0x13F5);
   (0x13F8, 0x13FD); (0x1C80, 0x1C88); (0x1C90, 0x1CBA); (0x1CBD, 0x1CBF); (0x1D00, 0x1D2B);
   (0x1D6B, 0x1D77); (0x1D79, 0x1D9A); (0x1E00, 0x1F15); (0x1F18, 0x1F1D); (0x1F20, 0x1F45);
   (0x1F48, 0x1F4D); (0x1F50, 0x1F57); (0x1F59, 0x1F59); (0x1F5B, 0x1F5B); (0x1F5D, 0x1F5D);
   (0x1F5F, 0x1F7D); (0x1F80, 0x1FB4); (0x1FB6, 0x1FBC); (0x1FBE, 0x1FBE); (0x1FC2, 0x1FC4);
   (0x1FC6, 0x1FCC); (0x1FD0, 0x1FD3); (0x1FD6, 0x1FDB); (0x1FE0, 0x1FEC); (0x1FF2, 0x1FF4);
   (0x1FF6, 0x1FFC); (0x2102, 0x2102); (0x2107, 0x2107); (0x210A, 0x2113); (0x2115, 0x2115);
   (0x2119, 0x211D); (0x2124, 0x2124); (0x2126, 0x2126); (0x2128, 0x2128); (0x212A, 0x212D);
   (0x212F, 0x2134); (0x2139, 0x2139); (0x213C, 0x213F); (0x2145, 0x2149); (0x214E, 0x214E);
   (0x2160, 0x217F); (0x2183, 0x2184); (0x24B6, 0x24E9); (0x2C00, 0x2C7B); (0x2C7E, 0x2CE4);
   (0x2CEB, 0x2CEE); (0x2CF2, 0x2CF3); (0x2D00, 0x2D25); (0x2D27, 0x2D27); (0x2D2D, 0x2D2D);
   (0xA640, 0xA66D); (0xA680, 0xA69B); (0xA722, 0xA76F); (0xA771, 0xA787); (0xA78B, 0xA78E);
   (0xA790, 0xA7CA); (0xA7D0, 0xA7D1); (0xA7D3, 0xA7D3); (0xA7D5, 0xA7D9); (0xA7F5, 0xA7F6);
   (0xA7FA, 0xA7FA); (0xAB30, 0xAB5A); (0xAB60, 0xAB68); (0xAB70, 0xABBF); (0xFB00, 0xFB06);
   (0xFB13, 0xFB17); (0xFF21, 0xFF3A); (0xFF41, 0xFF5A); (0x10400, 0x1044F); (0x104B0, 0x104D3);
   (0x104D8, 0x104FB); (0x10570, 0x1057A); (0x1057C, 0x1058A); (0x1058C, 0x10592); (0x10594, 0x10595);
   (0x10597, 0x105A1); (0x105A3, 0x105B1); (0x105B3, 0x105B9); (0x105BB, 0x105BC); (0x10C80, 0x10CB2);
   (0x10CC0, 0x10CF2); (0x118A0, 0x118DF); (0x16E40, 0x16E7F); (0x1D400, 0x1D454); (0x1D456, 0x1D49C);
   (0x1D49E, 0x1D49F); (0x1D4A2, 0x1D4A2); (0x1D4A5, 0x1D4A6); (0x1D4A9, 0x1D4AC); (0x1D4AE, 0x1D4B9);
   (0x1D4BB, 0x1D4BB); (0x1D4BD, 0x1D4C3); (0x1D4C5, 0x1D505); (0x1D507, 0x1D50A); (0x1D50D, 0x1D514);
   (0x1D516, 0x1D51C); (0x1D51E, 0x1D539); (0x1D53B, 0x1D53E); (0x1D540, 0x1D544); (0x1D546, 0x1D546);
   (0x1D54A, 0x1D550); (0x1D552, 0x1D6A5); (0x1D6A8, 0x1D6C0); (0x1D6C2, 0x1D6DA); (0x1D6DC, 0x1D6FA);
   (0x1D6FC, 0x1D714); (0x1D716, 0x1D734); (0x1D736, 0x1D74E); (0x1D750, 0x1D76E); (0x1D770, 0x1D788);
   (0x1D78A, 0x1D7A8); (0x1D7AA, 0x1D7C2); (0x1D7C4, 0x1D7CB); (0x1DF00, 0x1DF09); (0x1DF0B, 0x1DF1E);
   (0x1E900, 0x1E943); (0x1F130, 0x1F149); (0x1F150, 0x1F169); (0x1F170, 0x1F189)
  ]%N.

Fixpoint assoc (c : N) (t : list (N * N)) : option N :=
  match t with
  | [] => None
  | (k, v) :: t' => if (k =? c)%N then Some v else assoc c t'
  end.

(** Lowercase_Mapping of a code point other than capital sigma: the
    simple mapping, and the one unconditional entry of SpecialCasing
    (capital I with dot above). *)
Definition lowercase_mapping (c : N) : list N :=
  if (c =? 0x130)%N then [0x69; 0x307]%N
  else [default c (assoc c lowercase_table)].

Definition case_ignorable (c : N) : bool :=
  existsb (in_range c) case_ignorable_ranges.

Definition cased (c : N) : bool := existsb (in_range c) cased_ranges.

(** Going away from a sigma over the case-ignorable code points: is the
    first other code point a cased letter?  A code point that is both
    cased and case-ignorable is passed over, as the engines' case
    conversion (ICU) passes over it. *)
Fixpoint meets_cased (l : list N) : bool :=
  match l with
  | [] => false
  | c :: l' => if case_ignorable c then meets_cased l' else cased c
  end.

(** The condition Final_Sigma, for a sigma with the code points
    [before] it (nearest first) and [after] it. *)
Definition final_sigma (before after : list N) : bool :=
  meets_cased before && negb (meets_cased after).

(** The Unicode default lower-case conversion of a sequence of code
    points; [before] holds the code points already passed, nearest
    first. *)
Fixpoint to_lowercase (before l : list N) : list N :=
  match l with
  | [] => []
  | c :: l' =>
      (if (c =? 0x3A3)%N
       then [if final_sigma before l' then 0x3C2 else 0x3C3]%N
       else lowercase_mapping c)
      ++ to_lowercase (c :: before) l'
  end.

(** [String.prototype.toLowerCase] *)
Definition toLowerCase (s : jsstring) : jsstring :=
  from_code_points (to_lowercase [] (code_points s)).

Fixpoint startsWith (s q : jsstring) : bool :=
  match q, s with
  | [], _ => true
  | _ :: _, [] => false
  | b :: q', a :: s' => bool_decide (a = b) && startsWith s' q'
  end.

(** [String.prototype.includes]: [q] occurs in [s] at some offset. *)
Fixpoint includes_str (s q : jsstring) : bool :=
  startsWith s q ||
  match s with
  | [] => false
  | _ :: s' => includes_str s' q
  end.

(** The code units [String.prototype.trim] removes: WhiteSpace (TAB, VT,
    FF, ZWNBSP and the category Zs) and LineTerminator (LF, CR, LS,
    PS). *)
Definition isWhiteSpace (u : N) : bool :=
  in_range u (0x9, 0xD)%N
  || bool_decide (u ∈ [0x20; 0xA0; 0x1680; 0x2028; 0x2029; 0x202F;
                       0x205F; 0x3000; 0xFEFF]%N)
  || in_range u (0x2000, 0x200A)%N.

Fixpoint trimStart (s : jsstring) : jsstring :=
  match s with
  | [] => []
  | u :: s' => if isWhiteSpace u then trimStart s' else s
  end.

Definition trimEnd (s : jsstring) : jsstring := rev (trimStart (rev s)).

Definition trim (s : jsstring) : jsstring := trimEnd (trimStart s).

(** JavaScript truthiness of a string: non-empty. *)
Definition truthy_js (s : jsstring) : bool :=
  match s with [] => false | _ :: _ => true end.

(** The same for a string kept as [string]. *)
Definition truthy_str (s : string) : bool :=
  match s with EmptyString => false | String _ _ => true end.

(** A string made of white space only (the empty string included). *)
Fixpoint whitespace_only (s : jsstring) : bool :=
  match s with
  | [] => true
  | u :: s' => isWhiteSpace u && whitespace_only s'
  end.

(** [q] is a substring of [s], as a proposition. *)
Definition substring_of (q s : jsstring) : Prop :=
  ∃ pre post, s = pre ++ q ++ post.

(** A code point that the lower-case conversion leaves as it is, in any
    context. *)
Definition lowercase_fixed (c : N) : bool :=
  negb (c =? 0x130)%N && negb (c =? 0x3A3)%N
  && bool_decide (assoc c lowercase_table = None).

Definition is_surrogate (c : N) : bool :=
  is_high_surrogate c || is_low_surrogate c.

(** No high surrogate is followed by a low surrogate. *)
Fixpoint pair_free (l : list N) : bool :=
  match l with
  | [] => true
  | h :: l' =>
      match l' with
      | lo :: _ => negb (is_high_surrogate h && is_low_surrogate lo)
      | [] => true
      end && pair_free l'
  end.

(** What the conversion puts in the place of one code point. *)
Definition lowercase_chunk (before : list N) (c : N) (after : list N)
  : list N :=
  if (c =? 0x3A3)%N
  then [if final_sigma before after then 0x3C2 else 0x3C3]%N
  else lowercase_mapping c.

(* ===================================================================== *)
(** ** Heap and stores                                                    *)
(* ===================================================================== *)

(** What a location holds: an array of object references, a blueprint
    field object or a contract field object. *)
Inductive cell :=
  | CArray (elems : list loc)
  | CBlueprintField (bf : BlueprintField)
  | CContractField (cf : ContractField).

(** The state of the program: the heap with its allocation pointer, the
    state of the two stores, and the environment the store functions read
    ([getCurrentTimestamp], [generateId]) as the sequence of results of
    their successive calls with the number of calls made so far. *)
Record World := mkWorld {
  w_heap : gmap loc cell;
  w_next : loc;
  w_blueprints : list Blueprint;
  w_contracts : list Contract;
  w_clock : nat → Timestamp;
  w_ticks : nat;
  w_ids : nat → string;
  w_idcalls : nat;
}.

Definition set_heap (h : gmap loc cell) (n : loc) (w : World) : World :=
  mkWorld h n (w_blueprints w) (w_contracts w)
          (w_clock w) (w_ticks w) (w_ids w) (w_idcalls w).

Definition set_blueprints (bs : list Blueprint) (w : World) : World :=
  mkWorld (w_heap w) (w_next w) bs (w_contracts w)
          (w_clock w) (w_ticks w) (w_ids w) (w_idcalls w).

Definition set_contracts (cs : list Contract) (w : World) : World :=
  mkWorld (w_heap w) (w_next w) (w_blueprints w) cs
          (w_clock w) (w_ticks w) (w_ids w) (w_idcalls w).

Definition set_ticks (t : nat) (w : World) : World :=
  mkWorld (w_heap w) (w_next w) (w_blueprints w) (w_contracts w)
          (w_clock w) t (w_ids w) (w_idcalls w).

(** [getCurrentTimestamp()] *)
Definition getCurrentTimestamp (w : World) : Timestamp * World :=
  (w_clock w (w_ticks w), set_ticks (S (w_ticks w)) w).

(** [generateId()] *)
Definition generateId (w : World) : string * World :=
  (w_ids w (w_idcalls w),
   mkWorld (w_heap w) (w_next w) (w_blueprints w) (w_contracts w)
           (w_clock w) (w_ticks w) (w_ids w) (S (w_idcalls w))).

Definition read_array (h : gmap loc cell) (l : loc) : option (list loc) :=
  match h !! l with Some (CArray es) => Some es | _ => None end.

Definition read_bfield (h : gmap loc cell) (l : loc) : option BlueprintField :=
  match h !! l with Some (CBlueprintField f) => Some f | _ => None end.

Definition read_cfield (h : gmap loc cell) (l : loc) : option ContractField :=
  match h !! l with Some (CContractField f) => Some f | _ => None end.

(** The sequence of field objects an array of blueprint fields denotes. *)
Definition blueprint_fields (h : gmap loc cell) (a : loc)
  : option (list BlueprintField) :=
  es ← read_array h a; mapM (read_bfield h) es.

(** The sequence of field objects an array of contract fields denotes. *)
Definition contract_fields (h : gmap loc cell) (a : loc)
  : option (list ContractField) :=
  es ← read_array h a; mapM (read_cfield h) es.

(** Store the cells at consecutive locations from [n] on. *)
Fixpoint alloc_cells (cs : list cell) (n : loc) (h : gmap loc cell)
  : gmap loc cell :=
  match cs with
  | [] => h
  | c :: cs' => alloc_cells cs' (S n) (<[n := c]> h)
  end.

(* ===================================================================== *)
(** ** Sorting                                                            *)
(* ===================================================================== *)

(** [Array.prototype.sort] with the comparator [a.key - b.key] is a stable
    sort by key (ECMAScript 2019); a stable sort has one possible result,
    computed here by insertion. *)
Fixpoint insert_by {A} (key : A → Z) (x : A) (l : list A) : list A :=
  match l with
  | [] => [x]
  | y :: l' =>
      if (key x <=? key y)%Z then x :: y :: l' else y :: insert_by key x l'
  end.

Fixpoint sort_by {A} (key : A → Z) (l : list A) : list A :=
  match l with
  | [] => []
  | x :: l' => insert_by key x (sort_by key l')
  end.

(* ===================================================================== *)
(** ** Blueprint store ([src/stores/blueprintStore.ts])                   *)
(* ===================================================================== *)

(** Modelled from the spec: [blueprintStore.ts] is not among the sources;
    [getBlueprint(id)] is the read accessor of section 4.2, the first
    stored blueprint with that id. *)
Definition getBlueprint (id : string) (w : World) : option Blueprint :=
  List.find (λ b, bool_decide (b_id b = id)) (w_blueprints w).

(* ===================================================================== *)
(** ** Contract store ([src/stores/contractStore.ts])                     *)
(* ===================================================================== *)

Definition getContract (id : string) (w : World) : option Contract :=
  List.find (λ c, bool_decide (c_id c = id)) (w_contracts w).

Definition getContractsByFilter (f : DashboardFilter) (w : World)
  : list Contract :=
  let statuses := getStatusesForFilter f in
  List.filter (λ c, includes statuses (c_status c)) (w_contracts w).

(** [blueprint.fields.sort((a, b) => a.position - b.position)]: sorts the
    array object at [a] in place. *)
Definition sort_in_place (a : loc) (w : World) : option World :=
  es ← read_array (w_heap w) a;
  fs ← mapM (read_bfield (w_heap w)) es;
  let sorted := sort_by (λ p, bf_position p.2) (zip es fs) in
  Some (set_heap (<[a := CArray sorted.*1]> (w_heap w)) (w_next w) w).

(** The object literal built by the callback of [.map]. *)
Definition toContractField (bf : BlueprintField) : ContractField :=
  {| cf_id := bf_id bf;
     cf_type := bf_type bf;
     cf_label := bf_label bf;
     cf_position := bf_position bf;
     cf_required := bf_required bf;
     cf_editableBy := bf_editableBy bf;
     cf_placeholder := bf_placeholder bf;
     cf_value :=
       if decide (bf_type bf = CHECKBOX)
       then VBool (default false (bf_defaultChecked bf))
       else VNull |}.

(** [.map((bf) => ({ ... }))]: a new array at the allocation pointer,
    holding one new object per element of the array at [a]. *)
Definition map_to_contract_fields (a : loc) (w : World)
  : option (loc * World) :=
  es ← read_array (w_heap w) a;
  fs ← mapM (read_bfield (w_heap w)) es;
  let r := w_next w in
  let objs := (CContractField ∘ toContractField) <$> fs in
  let h := alloc_cells objs (S r)
             (<[r := CArray (seq (S r) (length fs))]> (w_heap w)) in
  Some (r, set_heap h (S r + length fs) w).

Definition createContract (input : ContractCreateInput) (w : World)
  : option (option Contract * World) :=
  if negb (truthy_js (trim (in_name input))) then Some (None, w)
  else
    match getBlueprint (in_blueprintId input) w with
    | None => Some (None, w)
    | Some blueprint =>
        let '(now, w1) := getCurrentTimestamp w in
        w2 ← sort_in_place (b_fields blueprint) w1;
        '(fields, w3) ← map_to_contract_fields (b_fields blueprint) w2;
        let '(id, w4) := generateId w3 in
        let contract :=
          {| c_id := id;
             c_name := trim (in_name input);
             c_blueprintId := b_id blueprint;
             c_blueprintName := b_name blueprint;
             c_status := CREATED;
             c_fields := fields;
             c_createdAt := now;
             c_updatedAt := now |} in
        Some (Some contract,
              set_contracts (w_contracts w4 ++ [contract]) w4)
    end.

(** [state.contracts.map((c) => c.id === id ? upd(c, getCurrentTimestamp())
    : c)]: every matching element takes one reading of the clock. *)
Fixpoint map_stamped (id : string) (upd : Contract → Timestamp → Contract)
    (clock : nat → Timestamp) (t : nat) (cs : list Contract)
  : list Contract * nat :=
  match cs with
  | [] => ([], t)
  | c :: cs' =>
      if bool_decide (c_id c = id)
      then let '(r, t') := map_stamped id upd clock (S t) cs' in
           (upd c (clock t) :: r, t')
      else let '(r, t') := map_stamped id upd clock t cs' in
           (c :: r, t')
  end.

Definition with_fields (fields : loc) (c : Contract) (now : Timestamp)
  : Contract :=
  {| c_id := c_id c; c_name := c_name c;
     c_blueprintId := c_blueprintId c;
     c_blueprintName := c_blueprintName c;
     c_status := c_status c;
     c_fields := fields;
     c_createdAt := c_createdAt c;
     c_updatedAt := now |}.

Definition with_status (s : ContractStatus) (c : Contract) (now : Timestamp)
  : Contract :=
  {| c_id := c_id c; c_name := c_name c;
     c_blueprintId := c_blueprintId c;
     c_blueprintName := c_blueprintName c;
     c_status := s;
     c_fields := c_fields c;
     c_createdAt := c_createdAt c;
     c_updatedAt := now |}.

Definition apply_stamped (id : string)
    (upd : Contract → Timestamp → Contract) (w : World) : World :=
  let '(cs, t) := map_stamped id upd (w_clock w) (w_ticks w) (w_contracts w) in
  set_ticks t (set_contracts cs w).

Definition updateContractFields (id : string) (updatedFields : loc)
    (w : World) : bool * World :=
  match getContract id w with
  | None => (false, w)
  | Some contract =>
      let isManagerEditable := bool_decide (c_status contract = CREATED) in
      let isClientEditable := bool_decide (c_status contract = SENT) in
      if negb isManagerEditable && negb isClientEditable then (false, w)
      else (true, apply_stamped id (with_fields updatedFields) w)
  end.

Definition transitionStatus (id : string) (newStatus : ContractStatus)
    (w : World) : bool * World :=
  match getContract id w with
  | None => (false, w)
  | Some contract =>
      if negb (canTransition (c_status contract) newStatus) then (false, w)
      else (true, apply_stamped id (with_status newStatus) w)
  end.

Definition deleteContract (id : string) (w : World) : bool * World :=
  let exists_ := existsb (λ c, bool_decide (c_id c = id)) (w_contracts w) in
  (exists_,
   if exists_
   then set_contracts
          (List.filter (λ c, negb (bool_decide (c_id c = id))) (w_contracts w)) w
   else w).

Definition searchContracts (query : jsstring) (w : World)
  : list Contract :=
  let q := toLowerCase query in
  List.filter
    (λ c, includes_str (toLowerCase (c_name c)) q
          || includes_str (toLowerCase (c_blueprintName c)) q)
    (w_contracts w).

(* ===================================================================== *)
(** ** Auxiliary notions used in the statements                           *)
(* ===================================================================== *)

(** Order of two elements by their sort key. *)
Definition key_le {A} (key : A → Z) (x y : A) : Prop := (key x ≤ key y)%Z.

(** What a successful in-place update of the contract [id] leaves behind:
    the first contract with that id is [upd c now], the store has the same
    length, contracts with another id sit unchanged at their index, and
    heap and blueprint store are the same. *)
Definition updated_to (id : string) (c' : Contract) (w w' : World) : Prop :=
  getContract id w' = Some c'
  ∧ length (w_contracts w') = length (w_contracts w)
  ∧ (∀ i c0, w_contracts w !! i = Some c0 → c_id c0 ≠ id →
             w_contracts w' !! i = Some c0)
  ∧ w_heap w' = w_heap w
  ∧ w_blueprints w' = w_blueprints w.

(** The contract a successful [createContract] returns. *)
Definition created_contract (input : ContractCreateInput) (bp : Blueprint)
    (w : World) : Contract :=
  {| c_id := (generateId w).1;
     c_name := trim (in_name input);
     c_blueprintId := b_id bp;
     c_blueprintName := b_name bp;
     c_status := CREATED;
     c_fields := w_next w;
     c_createdAt := (getCurrentTimestamp w).1;
     c_updatedAt := (getCurrentTimestamp w).1 |}.

(** The heap a successful [createContract] leaves: the blueprint's array
    [a] sorted in place, a new array at the allocation pointer [r] and the
    new field objects after it. *)
Definition created_heap (h : gmap loc cell) (a r : loc) (es : list loc)
    (fs : list BlueprintField) : gmap loc cell :=
  let sorted := sort_by (λ p, bf_position p.2) (zip es fs) in
  alloc_cells ((CContractField ∘ toContractField) <$> sorted.*2) (S r)
    (<[r := CArray (seq (S r) (length fs))]>
       (<[a := CArray sorted.*1]> h)).

Definition array_elems (h : gmap loc cell) (a : loc) : list loc :=
  default [] (read_array h a).

(** The references the blueprint store holds: the field arrays of its
    blueprints and the field objects in them. *)
Definition bp_arrays (w : World) : list loc := b_fields <$> w_blueprints w.

Definition bp_objects (w : World) : list loc :=
  a ← bp_arrays w; array_elems (w_heap w) a.

Definition bp_locs (w : World) : list loc := bp_arrays w ++ bp_objects w.

(** The objects a contract consists of: its field array and the field
    objects in it. *)
Definition contract_locs (h : gmap loc cell) (c : Contract) : list loc :=
  c_fields c :: array_elems h (c_fields c).

(** Modelled from the spec: [blueprintStore.ts] is not among the sources.
    The edits of section 4.2 (add, remove, reorder or relabel fields, add,
    rename or delete a blueprint) are modelled by the mutations JavaScript
    allows on the objects the blueprint store holds, carried out in place:
    - [SetFieldObject]: assign the properties of a held field object
      (relabel, change position, ...);
    - [SetArray]: rearrange a held field array with held field objects
      (reorder, remove, move);
    - [PushNewField]: append a new field object to a held array (add);
    - [NewBlueprint]: add a blueprint with a new, empty field array;
    - [SetBlueprints]: replace the list of blueprints by blueprints over
      held arrays (rename, delete, reorder).
    A mutation is [None] when the store does not hold the reference. *)
Inductive BlueprintMutation :=
  | SetFieldObject (l : loc) (bf : BlueprintField)
  | SetArray (a : loc) (es : list loc)
  | PushNewField (a : loc) (bf : BlueprintField)
  | NewBlueprint (id : string) (name : jsstring) (ts : Timestamp)
  | SetBlueprints (bs : list Blueprint).

Definition mutate (m : BlueprintMutation) (w : World) : option World :=
  match m with
  | SetFieldObject l bf =>
      if bool_decide (l ∈ bp_objects w)
         && bool_decide (is_Some (read_bfield (w_heap w) l))
      then Some (set_heap (<[l := CBlueprintField bf]> (w_heap w)) (w_next w) w)
      else None
  | SetArray a es =>
      if bool_decide (a ∈ bp_arrays w)
         && bool_decide (is_Some (read_array (w_heap w) a))
         && bool_decide (Forall (λ l, l ∈ bp_objects w) es)
      then Some (set_heap (<[a := CArray es]> (w_heap w)) (w_next w) w)
      else None
  | PushNewField a bf =>
      if bool_decide (a ∈ bp_arrays w)
      then es ← read_array (w_heap w) a;
           Some (set_heap
                   (<[a := CArray (es ++ [w_next w])]>
                      (<[w_next w := CBlueprintField bf]> (w_heap w)))
                   (S (w_next w)) w)
      else None
  | NewBlueprint id name ts =>
      Some (set_blueprints
              (w_blueprints w ++ [mkBlueprint id name (w_next w) ts ts])
              (set_heap (<[w_next w := CArray []]> (w_heap w))
                        (S (w_next w)) w))
  | SetBlueprints bs =>
      if bool_decide (Forall (λ b, b_fields b ∈ bp_arrays w) bs)
      then Some (set_blueprints bs w)
      else None
  end.

Fixpoint mutate_all (ms : list BlueprintMutation) (w : World)
  : option World :=
  match ms with
  | [] => Some w
  | m :: ms' => w' ← mutate m w; mutate_all ms' w'
  end.

(** One step of the program: a call of the contract store or a mutation by
    the blueprint store.  [generateId] is not among the sources; a
    successful [createContract] is taken to have drawn an id that no
    stored contract has. *)
Inductive step : World → World → Prop :=
  | step_create input w c w' :
      createContract input w = Some (Some c, w') →
      c_id c ∉ c_id <$> w_contracts w →
      step w w'
  | step_update id a w :
      step w (updateContractFields id a w).2
  | step_transition id s w :
      step w (transitionStatus id s w).2
  | step_delete id w :
      step w (deleteContract id w).2
  | step_blueprint m w w' :
      mutate m w = Some w' →
      step w w'.


(** Every reference the blueprint store holds has been allocated. *)
Definition bp_allocated (w : World) : Prop :=
  ∀ l, l ∈ bp_locs w → l < w_next w.

(** A step that writes only to objects the blueprint store holds and to
    new objects, and leaves the store holding only what it held or what
    is new. *)
Record heap_edit (w w' : World) : Prop := mk_heap_edit {
  he_next : w_next w ≤ w_next w';
  he_frame : ∀ l, l < w_next w → l ∉ bp_locs w →
                  w_heap w' !! l = w_heap w !! l;
  he_locs : ∀ l, l ∈ bp_locs w' → l ∈ bp_locs w ∨ w_next w ≤ l < w_next w';
}.

(** The contract's objects are allocated and none is held by the
    blueprint store. *)
Definition isolated (c : Contract) (w : World) : Prop :=
  bp_allocated w
  ∧ ∀ l, l ∈ contract_locs (w_heap w) c → l < w_next w ∧ l ∉ bp_locs w.

(** [cf] is a copy of [bf], with its value initialised. *)
Definition copy_of (bf : BlueprintField) (cf : ContractField) : Prop :=
  cf_id cf = bf_id bf
  ∧ cf_type cf = bf_type bf
  ∧ cf_label cf = bf_label bf
  ∧ cf_position cf = bf_position bf
  ∧ cf_required cf = bf_required bf
  ∧ cf_editableBy cf = bf_editableBy bf
  ∧ cf_placeholder cf = bf_placeholder bf
  ∧ (bf_type bf = CHECKBOX →
       cf_value cf = VBool (match bf_defaultChecked bf with
                            | Some b => b
                            | None => false
                            end))
  ∧ (bf_type bf ≠ CHECKBOX → cf_value cf = VNull).

(* ===================================================================== *)
(** ** Sample data                                                        *)
(* ===================================================================== *)

Definition field_sign : BlueprintField :=
  {| bf_id := "f-sign"; bf_type := SIGNATURE; bf_label := "Sign";
     bf_position := 1; bf_required := true;
     bf_editableBy := Some client; bf_placeholder := None;
     bf_defaultChecked := None |}.

Definition field_name : BlueprintField :=
  {| bf_id := "f-name"; bf_type := TEXT; bf_label := "Name";
     bf_position := 0; bf_required := true;
     bf_editableBy := Some manager; bf_placeholder := Some "Full name";
     bf_defaultChecked := None |}.

Definition field_agree : BlueprintField :=
  {| bf_id := "f-agree"; bf_type := CHECKBOX; bf_label := "Agree";
     bf_position := 2; bf_required := false;
     bf_editableBy := Some both; bf_placeholder := None;
     bf_defaultChecked := Some true |}.

Definition digit (n : nat) : string := String (ascii_of_nat (48 + n)) "".

(** One blueprint whose stored field array is not in position order:
    Sign (1), Name (0), Agree (2). *)
Definition demo_world : World :=
  {| w_heap := <[0 := CArray [1; 2; 3]]>
                 (<[1 := CBlueprintField field_sign]>
                    (<[2 := CBlueprintField field_name]>
                       (<[3 := CBlueprintField field_agree]> ∅)));
     w_next := 4;
     w_blueprints := [mkBlueprint "bp-1" (js "NDA Template") 0 "t" "t"];
     w_contracts := [];
     w_clock := λ n, "t" +:+ digit n;
     w_ticks := 0;
     w_ids := λ n, "c" +:+ digit n;
     w_idcalls := 0 |}.

(** A name of white space only: SPACE, NO-BREAK SPACE, IDEOGRAPHIC SPACE
    and ZERO WIDTH NO-BREAK SPACE. *)
Definition blank_name : jsstring := [0x20; 0xA0; 0x3000; 0xFEFF]%N.

Definition demo_input : ContractCreateInput := mkInput (js "  Vendor NDA ") "bp-1".

Definition demo_contract : Contract :=
  {| c_id := "c0"; c_name := js "Vendor NDA";
     c_blueprintId := "bp-1"; c_blueprintName := js "NDA Template";
     c_status := CREATED; c_fields := 4;
     c_createdAt := "t0"; c_updatedAt := "t0" |}.

Definition demo_world1 : World :=
  match createContract demo_input demo_world with
  | Some (_, w) => w
  | None => demo_world
  end.

Definition demo_approved : World :=
  (transitionStatus "c0" APPROVED demo_world1).2.

Definition demo_sent : World := (transitionStatus "c0" SENT demo_approved).2.

Definition demo_signed : World := (transitionStatus "c0" SIGNED demo_sent).2.

Definition demo_signed_contract : Contract :=
  {| c_id := "c0"; c_name := js "Vendor NDA";
     c_blueprintId := "bp-1"; c_blueprintName := js "NDA Template";
     c_status := SIGNED; c_fields := 4;
     c_createdAt := "t0"; c_updatedAt := "t3" |}.

(** Edits of the blueprint after the contract was created: relabel Name in
    place, drop Sign from the array and reverse it in place, append a new
    field, delete the blueprint. *)
Definition demo_mutations : list BlueprintMutation :=
  [ SetFieldObject 2
      {| bf_id := "f-name"; bf_type := TEXT; bf_label := "Legal name";
         bf_position := 5; bf_required := false;
         bf_editableBy := Some both; bf_placeholder := None;
         bf_defaultChecked := None |};
    SetArray 0 [3; 2];
    PushNewField 0 field_sign;
    SetBlueprints [] ].

Definition demo_contract_fields : list ContractField :=
  [ {| cf_id := "f-name"; cf_type := TEXT; cf_label := "Name";
       cf_position := 0; cf_required := true;
       cf_editableBy := Some manager; cf_placeholder := Some "Full name";
       cf_value := VNull |};
    {| cf_id := "f-sign"; cf_type := SIGNATURE; cf_label := "Sign";
       cf_position := 1; cf_required := true;
       cf_editableBy := Some client; cf_placeholder := None;
       cf_value := VNull |};
    {| cf_id := "f-agree"; cf_type := CHECKBOX; cf_label := "Agree";
       cf_position := 2; cf_required := false;
       cf_editableBy := Some both; cf_placeholder := None;
       cf_value := VBool true |} ].

Definition demo_world2 : World :=
  default demo_world1 (mutate_all demo_mutations demo_world1).

(* ===================================================================== *)
(** ** Contract page ([src/pages/Contracts/ContractView/ContractView.tsx]) *)
(* ===================================================================== *)

(** The component's [useState] cells. *)
Record ViewState := mkViewState {
  showDeleteModal : bool;
  showTransitionModal : option ContractStatus;
  showSendModal : bool;
  showSignModal : bool;
  recipientEmail : jsstring;
  modalSignature : option string;
}.

(** What a handler asks of its surroundings: [showToast(msg)] and
    [navigate(path)], in call order. *)
Inductive UiEffect :=
  | Toast (msg : jsstring)
  | Navigate (path : string).

Inductive SignatureStatus := sig_drafting | sig_pending | sig_signed.

Inductive StepStatus := st_completed | st_current | st_pending | st_revoked.

#[global] Instance SignatureStatus_eq_dec : EqDecision SignatureStatus.
Proof. solve_decision. Defined.
#[global] Instance StepStatus_eq_dec : EqDecision StepStatus.
Proof. solve_decision. Defined.

Definition getSignatureStatus (status : ContractStatus) : SignatureStatus :=
  if bool_decide (status = SENT) then sig_pending
  else if bool_decide (status = SIGNED) || bool_decide (status = LOCKED)
       then sig_signed
       else sig_drafting.

Definition getStepStatus (status step : ContractStatus) : StepStatus :=
  if bool_decide (status = REVOKED) then st_revoked
  else
    let stepIndex := indexOf LIFECYCLE_STEPS step in
    let currentIndex := indexOf LIFECYCLE_STEPS status in
    if (stepIndex <? currentIndex)%Z then st_completed
    else if (stepIndex =? currentIndex)%Z then st_current
    else st_pending.

(** The timeline: one entry per lifecycle step. *)
Definition timeline (status : ContractStatus) : list StepStatus :=
  getStepStatus status <$> LIFECYCLE_STEPS.

(** [renderField]: who may fill the field, and whether its control is
    disabled in the contract's status. *)
Definition isManagerField (field : ContractField) : bool :=
  match cf_editableBy field with
  | None => true
  | Some e => bool_decide (e = manager) || bool_decide (e = both)
  end.

Definition isClientField (field : ContractField) : bool :=
  match cf_editableBy field with
  | None => false
  | Some e => bool_decide (e = client) || bool_decide (e = both)
  end.

Definition isDisabled (status : ContractStatus) (field : ContractField)
  : bool :=
  if bool_decide (status = CREATED) then negb (isManagerField field)
  else if bool_decide (status = SENT) then negb (isClientField field)
  else true.

(** [{ ...f, value }] *)
Definition with_value (value : FieldValue) (f : ContractField)
  : ContractField :=
  {| cf_id := cf_id f; cf_type := cf_type f; cf_label := cf_label f;
     cf_position := cf_position f; cf_required := cf_required f;
     cf_editableBy := cf_editableBy f; cf_placeholder := cf_placeholder f;
     cf_value := value |}.

(** The field a [handleFieldChange(fieldId, value)] puts in the place of
    [f]. *)
Definition changed (fieldId : string) (value : FieldValue)
    (f : ContractField) : ContractField :=
  if bool_decide (cf_id f = fieldId) then with_value value f else f.

(** The callback [(f) => f.id === fieldId ? { ...f, value } : f] run over
    the elements [(l, f)] of an array: a matching element yields a new
    object, allocated at [n]; any other element yields itself. *)
Fixpoint remap_fields (fieldId : string) (value : FieldValue)
    (efs : list (loc * ContractField)) (n : loc) : list loc * list cell :=
  match efs with
  | [] => ([], [])
  | (l, f) :: rest =>
      if bool_decide (cf_id f = fieldId)
      then let '(es, objs) := remap_fields fieldId value rest (S n) in
           (n :: es, CContractField (with_value value f) :: objs)
      else let '(es, objs) := remap_fields fieldId value rest n in
           (l :: es, objs)
  end.

(** [fields.map((f) => f.id === fieldId ? { ...f, value } : f)] on the
    array at [a]: a new array at the allocation pointer. *)
Definition map_with_value (a : loc) (fieldId : string) (value : FieldValue)
    (w : World) : option (loc * World) :=
  es ← read_array (w_heap w) a;
  fs ← mapM (read_cfield (w_heap w)) es;
  let r := w_next w in
  let '(es', objs) := remap_fields fieldId value (zip es fs) (S r) in
  let h := alloc_cells objs (S r) (<[r := CArray es']> (w_heap w)) in
  Some (r, set_heap h (S r + length objs) w).

(** [handleFieldChange(fieldId, value)]; [contract] is the value the
    component read from the store when it rendered. *)
Definition handleFieldChange (contract : Contract) (fieldId : string)
    (value : FieldValue) (w : World) : option World :=
  '(updatedFields, w1) ← map_with_value (c_fields contract) fieldId value w;
  Some (updateContractFields (c_id contract) updatedFields w1).2.

Definition toastMessages (s : ContractStatus) : jsstring :=
  match s with
  | CREATED => js "Contract reverted to draft."
  | APPROVED => js "Contract approved."
  | SENT => js "Contract sent to client."
  | SIGNED => js "Contract signed."
  | LOCKED => js "Contract locked and archived."
  | REVOKED => js "Contract revoked."
  end.

(** [handleTransition(newStatus)]; [STATUS_LABELS] ([src/types]) is not
    among the sources and is taken as a parameter. *)
Definition handleTransition (STATUS_LABELS : ContractStatus → jsstring)
    (contract : Contract) (newStatus : ContractStatus)
    (vs : ViewState) (w : World) : World * ViewState * list UiEffect :=
  let w' := (transitionStatus (c_id contract) newStatus w).2 in
  let vs' := mkViewState (showDeleteModal vs) None (showSendModal vs)
                         (showSignModal vs) (recipientEmail vs)
                         (modalSignature vs) in
  (w', vs',
   [Toast (if truthy_js (toastMessages newStatus)
           then toastMessages newStatus
           else js "Status changed to " ++ STATUS_LABELS newStatus)]).

Definition handleSendContract (contract : Contract) (vs : ViewState)
    (w : World) : World * ViewState * list UiEffect :=
  if negb (truthy_js (trim (recipientEmail vs))) then (w, vs, [])
  else
    let w' := (transitionStatus (c_id contract) SENT w).2 in
    let vs' := mkViewState (showDeleteModal vs) (showTransitionModal vs)
                           false (showSignModal vs) []
                           (modalSignature vs) in
    (w', vs',
     [Toast (js "Email sent to " ++ recipientEmail vs
             ++ js " (simulated).")]).

(** [fields.find(p)]: the first element satisfying [p]; elements after it
    are not looked at. *)
Fixpoint find_field (h : gmap loc cell) (p : ContractField → bool)
    (es : list loc) : option (option ContractField) :=
  match es with
  | [] => Some None
  | l :: es' =>
      f ← read_cfield h l;
      if p f then Some (Some f) else find_field h p es'
  end.

Definition handleSignContract (contract : Contract) (vs : ViewState)
    (w : World) : option (World * ViewState * list UiEffect) :=
  es ← read_array (w_heap w) (c_fields contract);
  signatureField ←
    find_field (w_heap w) (λ f, bool_decide (cf_type f = SIGNATURE)) es;
  w1 ← match signatureField, modalSignature vs with
       | Some sf, Some sig =>
           if truthy_str sig
           then '(fields, w') ←
                  map_with_value (c_fields contract) (cf_id sf)
                                 (VString sig) w;
                Some (updateContractFields (c_id contract) fields w').2
           else Some w
       | _, _ => Some w
       end;
  let w2 := (transitionStatus (c_id contract) SIGNED w1).2 in
  let vs' := mkViewState (showDeleteModal vs) (showTransitionModal vs)
                         (showSendModal vs) false (recipientEmail vs) None in
  Some (w2, vs', [Toast (js "Client signature recorded.")]).

Definition handleDelete (contract : Contract) (w : World)
  : World * list UiEffect :=
  ((deleteContract (c_id contract) w).2, [Navigate "/"]).

(** [const contract = id ? getContract(id) : undefined]: what the page
    shows for the route parameter; [None] is the "Contract Not Found"
    page. *)
Definition page_contract (id : option string) (w : World) : option Contract :=
  match id with
  | Some i => if truthy_str i then getContract i w else None
  | None => None
  end.

(** [contract.fields.sort((a, b) => a.position - b.position)] in the
    render: sorts the contract's array object in place. *)
Definition sort_contract_fields (a : loc) (w : World) : option World :=
  es ← read_array (w_heap w) a;
  fs ← mapM (read_cfield (w_heap w)) es;
  let sorted := sort_by (λ p, cf_position p.2) (zip es fs) in
  Some (set_heap (<[a := CArray sorted.*1]> (w_heap w)) (w_next w) w).

(** The field section of the render: the fields in the order shown, each
    with the [disabled] flag of its control, and the state the sort
    leaves. *)
Definition render_fields (contract : Contract) (w : World)
  : option (list (ContractField * bool) * World) :=
  w' ← sort_contract_fields (c_fields contract) w;
  fs ← contract_fields (w_heap w') (c_fields contract);
  Some (List.map (λ f, (f, isDisabled (c_status contract) f)) fs, w').

(** The contract's array and field objects exist below the allocation
    pointer and denote [fs]. *)
Definition contract_denotes (c : Contract) (fs : list ContractField)
    (w : World) : Prop :=
  contract_fields (w_heap w) (c_fields c) = Some fs
  ∧ ∀ l, l ∈ contract_locs (w_heap w) c → l < w_next w.

(** A contract's attributes that no store operation assigns. *)
Definition same_identity (c c' : Contract) : Prop :=
  c_id c' = c_id c
  ∧ c_name c' = c_name c
  ∧ c_blueprintId c' = c_blueprintId c
  ∧ c_blueprintName c' = c_blueprintName c
  ∧ c_createdAt c' = c_createdAt c.

Definition demo_view : ViewState :=
  mkViewState false None false true (js "client@example.com")
              (Some "sig-data").

Definition demo_sent_contract : Contract :=
  {| c_id := "c0"; c_name := js "Vendor NDA";
     c_blueprintId := "bp-1"; c_blueprintName := js "NDA Template";
     c_status := SENT; c_fields := 4;
     c_createdAt := "t0"; c_updatedAt := "t2" |}.


(** A store holding one contract named with the Greek capitals alpha,
    sigma, alpha, and the query alpha, sigma. *)
Definition greek_query : jsstring := [0x391; 0x3A3]%N.

Definition greek_contract : Contract :=
  {| c_id := "c0"; c_name := [0x391; 0x3A3; 0x391]%N;
     c_blueprintId := "bp-1"; c_blueprintName := js "NDA Template";
     c_status := CREATED; c_fields := 4;
     c_createdAt := "t0"; c_updatedAt := "t0" |}.

Definition greek_world : World := set_contracts [greek_contract] demo_world1.

(* ===================================================================== *)
(** ** Lifecycle state machine: properties                                *)
(* ===================================================================== *)

Lemma canTransition_allowed from to :
  canTransition from to = true ↔ allowed from to.
Proof.
  split.
  - destruct from, to; intros H; try constructor; vm_compute in H; discriminate.
  - destruct 1; reflexivity.
Qed.

Lemma canTransition_member from to :
  canTransition from to = true ↔ to ∈ getValidTransitions from.
Proof. unfold canTransition, includes. apply bool_decide_eq_true. Qed.

Lemma canTransition_terminal from to :
  from = LOCKED ∨ from = REVOKED → canTransition from to = false.
Proof. intros [-> | ->]; destruct to; reflexivity. Qed.

(** C1: [canTransition] is true exactly on the eight arrows of the
    transition table, equivalently on the members of
    [getValidTransitions from]; it yields a boolean on each of the 36 pairs
    of statuses and among them the true ones are the eight arrows; it is
    false on every identity pair; [getValidTransitions] returns the listed
    set for each status, empty for LOCKED and REVOKED; and APPROVED to
    CREATED is the only valid backward transition. *)
Theorem C1_canTransition_table :
  (∀ from to, canTransition from to = true ↔ allowed from to)
  ∧ (∀ from to, canTransition from to = true ↔ to ∈ getValidTransitions from)
  ∧ length (list_prod all_statuses all_statuses) = 36
  ∧ (∀ from to, (from, to) ∈ list_prod all_statuses all_statuses)
  ∧ (∀ from to, canTransition from to = true ∨ canTransition from to = false)
  ∧ List.filter (λ p, canTransition p.1 p.2)
                (list_prod all_statuses all_statuses)
    = [(CREATED, APPROVED); (CREATED, REVOKED);
       (APPROVED, CREATED); (APPROVED, SENT); (APPROVED, REVOKED);
       (SENT, SIGNED); (SENT, REVOKED); (SIGNED, LOCKED)]
  ∧ (∀ s, canTransition s s = false)
  ∧ getValidTransitions CREATED = [APPROVED; REVOKED]
  ∧ getValidTransitions APPROVED = [SENT; REVOKED; CREATED]
  ∧ getValidTransitions SENT = [SIGNED; REVOKED]
  ∧ getValidTransitions SIGNED = [LOCKED]
  ∧ getValidTransitions LOCKED = []
  ∧ getValidTransitions REVOKED = []
  ∧ (∀ to, canTransition LOCKED to = false ∧ canTransition REVOKED to = false)
  ∧ canTransition APPROVED CREATED = true
  ∧ backward APPROVED CREATED = true
  ∧ (∀ from to, canTransition from to = true → backward from to = true →
       from = APPROVED ∧ to = CREATED).
Proof.
  split_and!; try reflexivity.
  - apply canTransition_allowed.
  - apply canTransition_member.
  - intros from to. apply list_elem_of_In, in_prod; apply list_elem_of_In;
      [destruct from | destruct to]; apply (bool_decide_unpack _); by vm_compute.
  - intros from to. destruct (canTransition from to); auto.
  - intros []; reflexivity.
  - intros to. split; apply canTransition_terminal; auto.
  - intros from to H1 H2.
    destruct from, to; vm_compute in H1, H2; try discriminate; auto.
Qed.

Lemma C1_canTransition_table_witness :
  canTransition APPROVED CREATED = true ∧ backward APPROVED CREATED = true
  ∧ (APPROVED = APPROVED ∧ CREATED = CREATED).
Proof.
  split; [reflexivity |]. split; [reflexivity |].
  pose proof C1_canTransition_table as H.
  repeat (destruct H as [_ H]).
  apply (H APPROVED CREATED); reflexivity.
Defined.

(* ===================================================================== *)
(** ** Dashboard projection: properties                                   *)
(* ===================================================================== *)

Lemma getStatusesForFilter_bucket s f :
  s ∈ getStatusesForFilter f ↔ f = bucket_of s.
Proof.
  split.
  - destruct f, s; intros H; try reflexivity;
      apply (bool_decide_pack _) in H; by vm_compute in H.
  - intros ->. destruct s; apply (bool_decide_unpack _); by vm_compute.
Qed.

Lemma getContractsByFilter_elem f w c :
  c ∈ getContractsByFilter f w
  ↔ c ∈ w_contracts w ∧ c_status c ∈ getStatusesForFilter f.
Proof.
  unfold getContractsByFilter, includes.
  rewrite list_elem_of_In, filter_In, bool_decide_eq_true, <- list_elem_of_In.
  reflexivity.
Qed.

(** C7: the four filters have the listed status sets; every status lies in
    exactly one of them; listing the four sets one after the other gives
    each of the six statuses once; and [getContractsByFilter] returns, in
    store order, exactly the stored contracts whose status is in the
    filter's set. *)
Theorem C7_filters_partition :
  getStatusesForFilter Active = [CREATED; APPROVED]
  ∧ getStatusesForFilter Pending = [SENT]
  ∧ getStatusesForFilter Signed = [SIGNED; LOCKED]
  ∧ getStatusesForFilter Archived = [REVOKED]
  ∧ (∀ s, ∃ f, s ∈ getStatusesForFilter f
           ∧ ∀ f', s ∈ getStatusesForFilter f' → f' = f)
  ∧ NoDup (mjoin (getStatusesForFilter <$> all_filters))
  ∧ mjoin (getStatusesForFilter <$> all_filters) ≡ₚ all_statuses
  ∧ (∀ f w c, c ∈ getContractsByFilter f w
              ↔ c ∈ w_contracts w ∧ c_status c ∈ getStatusesForFilter f)
  ∧ (∀ f w, sublist (getContractsByFilter f w) (w_contracts w)).
Proof.
  split_and!; try reflexivity.
  - intros s. exists (bucket_of s). split.
    + by apply getStatusesForFilter_bucket.
    + intros f'. apply getStatusesForFilter_bucket.
  - apply (bool_decide_unpack _). by vm_compute.
  - intros f w c. apply getContractsByFilter_elem.
  - intros f w. unfold getContractsByFilter.
    induction (w_contracts w) as [| c cs IH]; simpl; [constructor |].
    destruct (includes _ _); by constructor.
Qed.

Lemma C7_filters_partition_witness :
  ∃ f, SIGNED ∈ getStatusesForFilter f
       ∧ ∀ f', SIGNED ∈ getStatusesForFilter f' → f' = f.
Proof.
  destruct C7_filters_partition as (_ & _ & _ & _ & H & _).
  exact (H SIGNED).
Defined.

(* ===================================================================== *)
(** ** Strings: properties                                                *)
(* ===================================================================== *)

Lemma startsWith_spec q : ∀ s,
  startsWith s q = true ↔ ∃ post, s = q ++ post.
Proof.
  induction q as [| b q IH]; intros s.
  - split; [intros _; by exists s | intros _; by destruct s].
  - destruct s as [| a s]; cbn [startsWith].
    + split; [discriminate | intros [post H]; discriminate].
    + rewrite andb_true_iff, bool_decide_eq_true, IH. split.
      * intros [-> [post ->]]. by exists post.
      * intros [post H]. injection H as -> ->. eauto.
Qed.

Lemma includes_str_spec s : ∀ q,
  includes_str s q = true ↔ substring_of q s.
Proof.
  unfold substring_of.
  induction s as [| a s IH]; intros q; cbn [includes_str];
    rewrite orb_true_iff, startsWith_spec.
  - split.
    + intros [[post H] | ?]; [| discriminate]. by exists [], post.
    + intros (pre & post & H). left.
      destruct pre; [by exists post | discriminate].
  - rewrite IH. split.
    + intros [[post H] | (pre & post & H)].
      * by exists [], post.
      * exists (a :: pre), post. by rewrite H.
    + intros (pre & post & H). destruct pre as [| b pre].
      * left. by exists post.
      * right. injection H as -> ->. by exists pre, post.
Qed.

Lemma trimStart_whitespace_only s :
  whitespace_only s = true → trimStart s = [].
Proof.
  induction s as [| a s IH]; cbn [whitespace_only trimStart]; [done |].
  destruct (isWhiteSpace a); [exact IH | discriminate].
Qed.

Lemma trimStart_not_whitespace s :
  whitespace_only s = false →
  ∃ a s', trimStart s = a :: s' ∧ isWhiteSpace a = false.
Proof.
  induction s as [| a s IH]; cbn [whitespace_only trimStart];
    [discriminate |].
  destruct (isWhiteSpace a) eqn:Ha; [exact IH |].
  intros _. by exists a, s.
Qed.

Lemma whitespace_only_app s1 s2 :
  whitespace_only (s1 ++ s2) = whitespace_only s1 && whitespace_only s2.
Proof.
  induction s1 as [| a s1 IH]; [done |].
  cbn [app whitespace_only]. by rewrite IH, andb_assoc.
Qed.

Lemma whitespace_only_rev s :
  whitespace_only (rev s) = whitespace_only s.
Proof.
  induction s as [| a s IH]; [done |].
  cbn [rev]. rewrite whitespace_only_app, IH. cbn [whitespace_only].
  rewrite andb_true_r. apply andb_comm.
Qed.

(** [trim] leaves nothing exactly when the string is white space only. *)
Lemma trim_empty s :
  truthy_js (trim s) = false ↔ whitespace_only s = true.
Proof.
  unfold trim, trimEnd. split.
  - intros H.
    destruct (whitespace_only s) eqn:Hs; [done |].
    destruct (trimStart_not_whitespace s Hs) as (a & s' & Heq & Ha).
    rewrite Heq in H.
    assert (Hr : whitespace_only (rev (a :: s')) = false).
    { rewrite whitespace_only_rev. cbn [whitespace_only]. by rewrite Ha. }
    destruct (trimStart_not_whitespace _ Hr) as (b & r & Hb & _).
    rewrite Hb in H. cbn [rev] in H.
    by destruct (rev r).
  - intros H. by rewrite (trimStart_whitespace_only s H).
Qed.

Lemma includes_str_empty s : includes_str s [] = true.
Proof. by destruct s. Qed.

(** *** Lower-casing twice *)

Lemma assoc_elem c v t : assoc c t = Some v → (c, v) ∈ t.
Proof.
  induction t as [| [k w] t IH]; cbn [assoc]; [done |].
  destruct (k =? c)%N eqn:E.
  - intros [= ->]. apply N.eqb_eq in E as ->. apply list_elem_of_here.
  - intros H. apply list_elem_of_further. auto.
Qed.

Lemma lowercase_table_sound :
  Forall (λ p, is_surrogate p.1 = false
               ∧ lowercase_fixed p.2 = true ∧ is_surrogate p.2 = false)
         lowercase_table.
Proof.
  apply Forall_forall. intros p Hp.
  assert (H : forallb (λ p, negb (is_surrogate p.1) && lowercase_fixed p.2
                            && negb (is_surrogate p.2))
                lowercase_table = true) by (vm_compute; reflexivity).
  rewrite forallb_forall in H. apply list_elem_of_In in Hp.
  specialize (H p Hp). apply andb_true_iff in H as [H H3].
  apply andb_true_iff in H as [H1 H2].
  by rewrite negb_true_iff in H1, H3.
Qed.

(** The lower-case images of a code point: fixed, and surrogates only
    where the code point itself is that surrogate. *)
Lemma lowercase_mapping_image c :
  c ≠ 0x3A3%N →
  Forall (λ i, lowercase_fixed i = true) (lowercase_mapping c)
  ∧ (if is_surrogate c then lowercase_mapping c = [c]
     else lowercase_mapping c ≠ []
          ∧ Forall (λ i, is_surrogate i = false) (lowercase_mapping c)).
Proof.
  intros Hs. unfold lowercase_mapping.
  destruct (c =? 0x130)%N eqn:E130.
  - apply N.eqb_eq in E130 as ->. split; [by repeat constructor |].
    cbn. split; [done |]. by repeat constructor.
  - destruct (assoc c lowercase_table) as [v |] eqn:Ea; cbn [default].
    + apply assoc_elem in Ea.
      pose proof lowercase_table_sound as Ht. rewrite Forall_forall in Ht.
      destruct (Ht _ Ea) as (H1 & H2 & H3). cbn [fst snd] in *.
      split; [by repeat constructor |]. rewrite H1.
      split; [done |]. by repeat constructor.
    + split.
      * repeat constructor. unfold lowercase_fixed.
        rewrite E130, (proj2 (N.eqb_neq _ _) Hs), bool_decide_true; done.
      * destruct (is_surrogate c) eqn:Ec; [done |].
        split; [done |]. by repeat constructor.
Qed.

Lemma lowercase_fixed_mapping c :
  lowercase_fixed c = true → c ≠ 0x3A3%N ∧ lowercase_mapping c = [c].
Proof.
  unfold lowercase_fixed, lowercase_mapping.
  rewrite !andb_true_iff, !negb_true_iff, bool_decide_eq_true.
  intros [[H1 H2] H3]. rewrite H1, H3. split; [| done].
  by apply N.eqb_neq.
Qed.

Lemma to_lowercase_fixed l : ∀ before,
  Forall (λ i, lowercase_fixed i = true) (to_lowercase before l).
Proof.
  induction l as [| c l IH]; intros before; cbn [to_lowercase];
    [constructor |].
  apply Forall_app. split; [| apply IH].
  destruct (c =? 0x3A3)%N eqn:E.
  - destruct (final_sigma before l); by repeat constructor.
  - apply lowercase_mapping_image. by apply N.eqb_neq.
Qed.

Lemma to_lowercase_id l : ∀ before,
  Forall (λ i, lowercase_fixed i = true) l → to_lowercase before l = l.
Proof.
  induction l as [| c l IH]; intros before Hl; [done |].
  apply Forall_cons in Hl as [Hc Hl]. cbn [to_lowercase].
  destruct (lowercase_fixed_mapping c Hc) as [Hs ->].
  rewrite (proj2 (N.eqb_neq _ _) Hs), IH by done. done.
Qed.

Lemma lowercase_chunk_image before c after :
  if is_surrogate c then lowercase_chunk before c after = [c]
  else lowercase_chunk before c after ≠ []
       ∧ Forall (λ i, is_surrogate i = false)
                (lowercase_chunk before c after).
Proof.
  unfold lowercase_chunk. destruct (c =? 0x3A3)%N eqn:E.
  - apply N.eqb_eq in E as ->. cbn.
    split; [done |]. destruct (final_sigma before after); by repeat constructor.
  - apply lowercase_mapping_image. by apply N.eqb_neq.
Qed.

Lemma pair_free_cons h l :
  pair_free (h :: l)
  = match l with
    | lo :: _ => negb (is_high_surrogate h && is_low_surrogate lo)
    | [] => true
    end && pair_free l.
Proof. reflexivity. Qed.

Lemma pair_free_app_plain l1 l2 :
  Forall (λ i, is_surrogate i = false) l1 →
  pair_free l2 = true → pair_free (l1 ++ l2) = true.
Proof.
  intros H1 H2. induction H1 as [| c l1 Hc _ IH]; [done |].
  cbn [app]. rewrite pair_free_cons, IH, andb_true_r.
  unfold is_surrogate in Hc. apply orb_false_iff in Hc as [Hh _].
  rewrite Hh. by destruct (l1 ++ l2).
Qed.

Lemma to_lowercase_head before c l :
  ∃ i rest, to_lowercase before (c :: l) = i :: rest
            ∧ (is_low_surrogate i = true → i = c).
Proof.
  cbn [to_lowercase]. fold (lowercase_chunk before c l).
  pose proof (lowercase_chunk_image before c l) as Hc.
  destruct (is_surrogate c) eqn:Es.
  - rewrite Hc. by eexists _, _.
  - destruct Hc as [Hne Hall].
    destruct (lowercase_chunk before c l) as [| i ch]; [done |].
    apply Forall_cons in Hall as [Hi _]. eexists _, _. split; [done |].
    unfold is_surrogate in Hi. apply orb_false_iff in Hi as [_ Hi].
    congruence.
Qed.

Lemma to_lowercase_pair_free l : ∀ before,
  pair_free l = true → pair_free (to_lowercase before l) = true.
Proof.
  induction l as [| c l IH]; intros before Hl; [done |].
  rewrite pair_free_cons in Hl. apply andb_true_iff in Hl as [Hcl Hl].
  specialize (IH (c :: before) Hl).
  cbn [to_lowercase]. fold (lowercase_chunk before c l).
  pose proof (lowercase_chunk_image before c l) as Hc.
  destruct (is_surrogate c) eqn:Es.
  - rewrite Hc. cbn [app]. rewrite pair_free_cons, IH, andb_true_r.
    destruct l as [| c2 l]; [done |].
    destruct (to_lowercase_head (c :: before) c2 l) as (i & rest & -> & Hi).
    destruct (is_high_surrogate c) eqn:Hh; [| done].
    destruct (is_low_surrogate i) eqn:Hlo; [| done].
    rewrite (Hi eq_refl) in Hlo. rewrite ?Hh, ?Hlo in Hcl. done.
  - destruct Hc as [_ Hall]. by apply pair_free_app_plain.
Qed.

Lemma astral_not_surrogate (u v : N) :
  is_surrogate (0x10000 + (u - 0xD800) * 0x400 + (v - 0xDC00))%N = false.
Proof.
  unfold is_surrogate, is_high_surrogate, is_low_surrogate, in_range.
  cbn [fst snd]. apply orb_false_iff. split; apply andb_false_iff; right;
    apply N.leb_gt; lia.
Qed.

Lemma code_points_cons u v s :
  code_points (u :: v :: s)
  = if is_high_surrogate u && is_low_surrogate v
    then (0x10000 + (u - 0xD800) * 0x400 + (v - 0xDC00))%N :: code_points s
    else u :: code_points (v :: s).
Proof. reflexivity. Qed.

Lemma code_points_head v s :
  ∃ c rest, code_points (v :: s) = c :: rest
            ∧ (is_low_surrogate c = true → c = v).
Proof.
  destruct s as [| w s]; [by eexists _, _ |]. rewrite code_points_cons.
  destruct (is_high_surrogate v && is_low_surrogate w).
  - eexists _, _. split; [done |]. intros H.
    pose proof (astral_not_surrogate v w) as Hn.
    unfold is_surrogate in Hn. apply orb_false_iff in Hn as [_ Hn].
    congruence.
  - by eexists _, _.
Qed.

Lemma code_points_pair_free s : pair_free (code_points s) = true.
Proof.
  enough (H : pair_free (code_points s) = true
              ∧ ∀ u, pair_free (code_points (u :: s)) = true) by apply H.
  induction s as [| v s [IH1 IH2]]; [done |].
  split; [apply IH2 |]. intros u. rewrite code_points_cons.
  destruct (is_high_surrogate u && is_low_surrogate v) eqn:E.
  - rewrite pair_free_cons, IH1, andb_true_r.
    pose proof (astral_not_surrogate u v) as Hn.
    unfold is_surrogate in Hn. apply orb_false_iff in Hn as [Hn _].
    rewrite Hn. by destruct (code_points s).
  - specialize (IH2 v).
    destruct (code_points_head v s) as (c & rest & Hc & Hlow).
    rewrite pair_free_cons. rewrite IH2, andb_true_r.
    rewrite Hc.
    destruct (is_high_surrogate u) eqn:Hu; [| done].
    destruct (is_low_surrogate c) eqn:Hl; [| done].
    rewrite (Hlow eq_refl) in Hl. cbn in E. congruence.
Qed.

Lemma code_units_astral c :
  (0x10000 <=? c)%N && (c <? 0x110000)%N = true → ∀ s,
  code_points (code_units c ++ s) = c :: code_points s.
Proof.
  intros Hc s. unfold code_units. rewrite Hc. cbn [app].
  rewrite code_points_cons.
  apply andb_true_iff in Hc as [H1 H2].
  apply N.leb_le in H1. apply N.ltb_lt in H2.
  pose proof (N.div_mod (c - 0x10000) 0x400 ltac:(done)) as Hdm.
  pose proof (N.mod_lt (c - 0x10000) 0x400 ltac:(done)) as Hm.
  assert (Hq : ((c - 0x10000) / 0x400 < 0x400)%N)
    by (apply N.Div0.div_lt_upper_bound; lia).
  set (q := ((c - 0x10000) / 0x400)%N) in *.
  set (r := ((c - 0x10000) mod 0x400)%N) in *.
  assert (Hh : is_high_surrogate (0xD800 + q) = true).
  { unfold is_high_surrogate, in_range. cbn [fst snd].
    apply andb_true_iff. split; apply N.leb_le; lia. }
  assert (Hl : is_low_surrogate (0xDC00 + r) = true).
  { unfold is_low_surrogate, in_range. cbn [fst snd].
    apply andb_true_iff. split; apply N.leb_le; lia. }
  rewrite Hh, Hl. cbn [andb]. f_equal. lia.
Qed.

Lemma code_units_head c :
  ∃ v rest, code_units c = v :: rest
            ∧ (is_low_surrogate v = true → v = c).
Proof.
  unfold code_units. destruct (_ && _) eqn:Hc; [| by eexists _, _].
  eexists _, _. split; [done |]. intros Hl. exfalso.
  apply andb_true_iff in Hc as [H1 H2].
  apply N.leb_le in H1. apply N.ltb_lt in H2.
  assert (Hq : ((c - 0x10000) / 0x400 < 0x400)%N)
    by (apply N.Div0.div_lt_upper_bound; lia).
  unfold is_low_surrogate, in_range in Hl. cbn [fst snd] in Hl.
  apply andb_true_iff in Hl as [Hl _]. apply N.leb_le in Hl. lia.
Qed.

Lemma code_points_from_code_points l :
  pair_free l = true → code_points (from_code_points l) = l.
Proof.
  unfold from_code_points.
  induction l as [| c l IH]; intros Hpf; [done |].
  rewrite pair_free_cons in Hpf. apply andb_true_iff in Hpf as [Hcl Hl].
  specialize (IH Hl). rewrite bind_cons.
  destruct ((0x10000 <=? c)%N && (c <? 0x110000)%N) eqn:Hc.
  - rewrite code_units_astral by done. by rewrite IH.
  - unfold code_units at 1. rewrite Hc. cbn [app].
    destruct l as [| c2 l]; [done |].
    rewrite bind_cons in *.
    destruct (code_units_head c2) as (v & rest & Hv & Hlow).
    rewrite Hv in *. cbn [app] in *. rewrite code_points_cons.
    assert (E : is_high_surrogate c && is_low_surrogate v = false).
    { destruct (is_high_surrogate c) eqn:Hh; [| done].
      destruct (is_low_surrogate v) eqn:Hlo; [| done].
      rewrite (Hlow eq_refl) in Hlo. by rewrite Hlo in Hcl. }
    rewrite E. f_equal. exact IH.
Qed.

Lemma toLowerCase_idem s : toLowerCase (toLowerCase s) = toLowerCase s.
Proof.
  unfold toLowerCase.
  rewrite code_points_from_code_points
    by apply to_lowercase_pair_free, code_points_pair_free.
  by rewrite (to_lowercase_id _ _ (to_lowercase_fixed _ _)).
Qed.

(* ===================================================================== *)
(** ** Contract store: queries and deletion                               *)
(* ===================================================================== *)

Lemma getContract_None id w :
  getContract id w = None ↔ id ∉ c_id <$> w_contracts w.
Proof.
  unfold getContract. induction (w_contracts w) as [| c cs IH]; simpl.
  - split; [intros _; apply not_elem_of_nil | done].
  - rewrite not_elem_of_cons. case_bool_decide; naive_solver.
Qed.

Lemma getContract_Some id w c :
  getContract id w = Some c → c ∈ w_contracts w ∧ c_id c = id.
Proof.
  unfold getContract. intros H. apply find_some in H as [H1 H2].
  apply list_elem_of_In in H1. by apply bool_decide_eq_true in H2.
Qed.

Lemma searchContracts_elem query w c :
  c ∈ searchContracts query w
  ↔ c ∈ w_contracts w
    ∧ (substring_of (toLowerCase query) (toLowerCase (c_name c))
       ∨ substring_of (toLowerCase query)
                      (toLowerCase (c_blueprintName c))).
Proof.
  unfold searchContracts.
  rewrite list_elem_of_In, filter_In, orb_true_iff, !includes_str_spec,
    <- list_elem_of_In.
  reflexivity.
Qed.

(** What [searchContracts] computes: in store order, the stored contracts
    for which the lower-cased query occurs in the lower-cased name or in
    the lower-cased blueprint name. *)
Lemma searchContracts_lowered query w :
  (∀ c, c ∈ searchContracts query w
        ↔ c ∈ w_contracts w
          ∧ (substring_of (toLowerCase query) (toLowerCase (c_name c))
             ∨ substring_of (toLowerCase query)
                            (toLowerCase (c_blueprintName c))))
  ∧ sublist (searchContracts query w) (w_contracts w).
Proof.
  split; [intros c; apply searchContracts_elem |].
  unfold searchContracts.
  induction (w_contracts w) as [| c cs IH]; simpl; [constructor |].
  destruct (_ || _); by constructor.
Qed.

(** C9 (fails on the code): a query can occur in a contract's name
    letter for letter and [searchContracts] still not return the
    contract.  [toLowerCase] maps a capital sigma to the final form when
    it ends a word and to the medial form otherwise, so the query alpha
    sigma becomes alpha, final sigma, the name alpha sigma alpha becomes
    alpha, sigma, alpha, and the first does not occur in the second. *)
Theorem C9_searchContracts_misses_final_sigma :
  substring_of greek_query (c_name greek_contract)
  ∧ greek_contract ∈ w_contracts greek_world
  ∧ toLowerCase greek_query = [0x3B1; 0x3C2]%N
  ∧ toLowerCase (c_name greek_contract) = [0x3B1; 0x3C3; 0x3B1]%N
  ∧ searchContracts greek_query greek_world = []
  ∧ greek_contract ∉ searchContracts greek_query greek_world.
Proof.
  split_and!.
  - by exists [], [0x391%N].
  - apply list_elem_of_here.
  - vm_compute. reflexivity.
  - vm_compute. reflexivity.
  - vm_compute. reflexivity.
  - assert (E : searchContracts greek_query greek_world = [])
      by (vm_compute; reflexivity).
    rewrite E. apply not_elem_of_nil.
Qed.

Lemma deleteContract_present id w :
  id ∈ c_id <$> w_contracts w →
  deleteContract id w
  = (true,
     set_contracts
       (List.filter (λ c, negb (bool_decide (c_id c = id))) (w_contracts w)) w).
Proof.
  intros H. unfold deleteContract.
  assert (E : existsb (λ c, bool_decide (c_id c = id)) (w_contracts w) = true).
  { apply list_elem_of_fmap in H as (c & -> & Hc).
    apply existsb_exists. exists c.
    split; [by apply list_elem_of_In | by apply bool_decide_eq_true]. }
  by rewrite E.
Qed.

Lemma deleteContract_absent id w :
  id ∉ c_id <$> w_contracts w → deleteContract id w = (false, w).
Proof.
  intros H. unfold deleteContract.
  assert (E : existsb (λ c, bool_decide (c_id c = id)) (w_contracts w) = false).
  { apply not_true_iff_false. intros E.
    apply existsb_exists in E as (c & Hc & Hid).
    apply bool_decide_eq_true in Hid. apply H.
    apply list_elem_of_fmap. exists c. by rewrite <- list_elem_of_In in Hc. }
  by rewrite E.
Qed.

(** C8: with the id present, [deleteContract] returns true, the store no
    longer holds a contract with that id, the contracts with other ids are
    the same sequence as before, and nothing else of the state changes;
    with the id absent it returns false and the state is the same.  The
    status of the contract plays no part. *)
Theorem C8_deleteContract id w :
  (id ∈ c_id <$> w_contracts w →
     ∃ w', deleteContract id w = (true, w')
       ∧ (∀ c, c ∈ w_contracts w' ↔ c ∈ w_contracts w ∧ c_id c ≠ id)
       ∧ List.filter (λ c, negb (bool_decide (c_id c = id))) (w_contracts w')
         = w_contracts w'
       ∧ w_contracts w'
         = List.filter (λ c, negb (bool_decide (c_id c = id))) (w_contracts w)
       ∧ sublist (w_contracts w') (w_contracts w)
       ∧ w' = set_contracts (w_contracts w') w)
  ∧ (id ∉ c_id <$> w_contracts w → deleteContract id w = (false, w))
  ∧ (∀ c, c ∈ w_contracts w → c_id c = id →
       (deleteContract id w).1 = true
       ∧ c ∉ w_contracts (deleteContract id w).2).
Proof.
  assert (Hel : ∀ c,
    c ∈ List.filter (λ c, negb (bool_decide (c_id c = id))) (w_contracts w)
    ↔ c ∈ w_contracts w ∧ c_id c ≠ id).
  { intros c. rewrite list_elem_of_In, filter_In, negb_true_iff,
      bool_decide_eq_false, <- list_elem_of_In. reflexivity. }
  split_and!.
  - intros H. eexists. split; [by apply deleteContract_present |].
    simpl. split_and!; try done.
    + generalize (w_contracts w). intros cs.
      induction cs as [| c cs IH]; simpl; [done |].
      destruct (negb (bool_decide (c_id c = id))) eqn:E; simpl; [| done].
      by rewrite E, IH.
    + generalize (w_contracts w). intros cs.
      induction cs as [| c cs IH]; simpl; [constructor |].
      destruct (negb _); by constructor.
  - apply deleteContract_absent.
  - intros c Hc Hid.
    rewrite deleteContract_present
      by (apply list_elem_of_fmap; by exists c).
    simpl. split; [done |]. rewrite Hel. naive_solver.
Qed.

(* ===================================================================== *)
(** ** Contract store: updates in place of a stored contract              *)
(* ===================================================================== *)

Section map_stamped.
Variable id : string.
Variable upd : Contract → Timestamp → Contract.
Variable clock : nat → Timestamp.
Hypothesis upd_id : ∀ c ts, c_id (upd c ts) = c_id c.

Lemma map_stamped_length cs : ∀ t,
  length (map_stamped id upd clock t cs).1 = length cs.
Proof.
  induction cs as [| c cs IH]; intros t; simpl; [done |].
  case_bool_decide.
  - specialize (IH (S t)). destruct (map_stamped _ _ _ (S t) cs).
    simpl in *. by rewrite IH.
  - specialize (IH t). destruct (map_stamped _ _ _ t cs).
    simpl in *. by rewrite IH.
Qed.

Lemma map_stamped_other cs : ∀ t i c,
  cs !! i = Some c → c_id c ≠ id →
  (map_stamped id upd clock t cs).1 !! i = Some c.
Proof.
  induction cs as [| c0 cs IH]; intros t i c Hi Hne; [done |].
  simpl. case_bool_decide as Hc0.
  - specialize (IH (S t)). destruct (map_stamped _ _ _ (S t) cs).
    destruct i as [| i]; simpl in *; [congruence | eauto].
  - specialize (IH t). destruct (map_stamped _ _ _ t cs).
    destruct i as [| i]; simpl in *; eauto.
Qed.

Lemma map_stamped_find cs : ∀ t c,
  List.find (λ c, bool_decide (c_id c = id)) cs = Some c →
  List.find (λ c, bool_decide (c_id c = id))
            (map_stamped id upd clock t cs).1
  = Some (upd c (clock t)).
Proof.
  induction cs as [| c0 cs IH]; intros t c; simpl; [done |].
  case_bool_decide as Hc0.
  - intros [= <-]. destruct (map_stamped _ _ _ (S t) cs). simpl.
    by rewrite upd_id, bool_decide_true.
  - intros H. specialize (IH t c H).
    destruct (map_stamped _ _ _ t cs). simpl.
    by rewrite bool_decide_false.
Qed.

Lemma map_stamped_ids cs : ∀ t,
  c_id <$> (map_stamped id upd clock t cs).1 = c_id <$> cs.
Proof.
  induction cs as [| c cs IH]; intros t; [done |].
  cbn [map_stamped]. case_bool_decide.
  - specialize (IH (S t)). destruct (map_stamped _ _ _ (S t) cs).
    cbn [fst] in *. by rewrite !fmap_cons, upd_id, IH.
  - specialize (IH t). destruct (map_stamped _ _ _ t cs).
    cbn [fst] in *. by rewrite !fmap_cons, IH.
Qed.
End map_stamped.

Lemma with_status_id s c ts : c_id (with_status s c ts) = c_id c.
Proof. reflexivity. Qed.

Lemma with_fields_id a c ts : c_id (with_fields a c ts) = c_id c.
Proof. reflexivity. Qed.

Lemma apply_stamped_contracts id upd w :
  w_contracts (apply_stamped id upd w)
  = (map_stamped id upd (w_clock w) (w_ticks w) (w_contracts w)).1.
Proof. unfold apply_stamped. by destruct (map_stamped _ _ _ _ _). Qed.

Lemma apply_stamped_frame id upd w :
  w_heap (apply_stamped id upd w) = w_heap w
  ∧ w_next (apply_stamped id upd w) = w_next w
  ∧ w_blueprints (apply_stamped id upd w) = w_blueprints w
  ∧ w_clock (apply_stamped id upd w) = w_clock w
  ∧ w_ids (apply_stamped id upd w) = w_ids w
  ∧ w_idcalls (apply_stamped id upd w) = w_idcalls w.
Proof. unfold apply_stamped. by destruct (map_stamped _ _ _ _ _). Qed.

Lemma apply_stamped_updated_to id upd w c :
  (∀ c ts, c_id (upd c ts) = c_id c) →
  getContract id w = Some c →
  updated_to id (upd c (getCurrentTimestamp w).1) w (apply_stamped id upd w).
Proof.
  intros Hupd Hc. unfold updated_to, getContract.
  rewrite apply_stamped_contracts.
  destruct (apply_stamped_frame id upd w) as (-> & _ & -> & _).
  split_and!; try done.
  - by apply map_stamped_find.
  - by apply map_stamped_length.
  - intros i c0. by apply map_stamped_other.
Qed.

(** C4: [transitionStatus] returns false and the same state when the id is
    unknown and when [canTransition] refuses the change from the current
    status; otherwise it returns true and the stored contract has the new
    status and the current clock reading as [updatedAt], its other
    properties, the other contracts, the heap and the blueprint store being
    as before.  Every call returns one of the two. *)
Theorem C4_transitionStatus id newStatus w :
  (id ∉ c_id <$> w_contracts w →
     transitionStatus id newStatus w = (false, w))
  ∧ (∀ c, getContract id w = Some c →
          canTransition (c_status c) newStatus = false →
          transitionStatus id newStatus w = (false, w))
  ∧ (∀ c, getContract id w = Some c →
          canTransition (c_status c) newStatus = true →
          ∃ w', transitionStatus id newStatus w = (true, w')
            ∧ updated_to id
                {| c_id := c_id c; c_name := c_name c;
                   c_blueprintId := c_blueprintId c;
                   c_blueprintName := c_blueprintName c;
                   c_status := newStatus;
                   c_fields := c_fields c;
                   c_createdAt := c_createdAt c;
                   c_updatedAt := (getCurrentTimestamp w).1 |} w w')
  ∧ (∃ b w', transitionStatus id newStatus w = (b, w')
             ∧ (b = false → w' = w)).
Proof.
  unfold transitionStatus. split_and!.
  - intros H. apply getContract_None in H. by rewrite H.
  - intros c -> ->. done.
  - intros c Hc Ht. rewrite Hc, Ht. simpl. eexists. split; [done |].
    by apply (apply_stamped_updated_to id (with_status newStatus)).
  - destruct (getContract id w) as [c |]; [| by eauto].
    destruct (canTransition _ _); simpl; eauto. eexists _, _. by split.
Qed.

(** C5: [updateContractFields] returns false and the same state when the
    id is unknown and when the status is neither CREATED nor SENT;
    otherwise it returns true and the stored contract refers to the given
    field array and has the current clock reading as [updatedAt], so its
    field sequence is the one the given array denotes. *)
Theorem C5_updateContractFields id updatedFields w :
  (id ∉ c_id <$> w_contracts w →
     updateContractFields id updatedFields w = (false, w))
  ∧ (∀ c, getContract id w = Some c →
          c_status c ≠ CREATED → c_status c ≠ SENT →
          updateContractFields id updatedFields w = (false, w))
  ∧ (∀ c, getContract id w = Some c →
          c_status c = CREATED ∨ c_status c = SENT →
          ∃ w' c', updateContractFields id updatedFields w = (true, w')
            ∧ c' = {| c_id := c_id c; c_name := c_name c;
                      c_blueprintId := c_blueprintId c;
                      c_blueprintName := c_blueprintName c;
                      c_status := c_status c;
                      c_fields := updatedFields;
                      c_createdAt := c_createdAt c;
                      c_updatedAt := (getCurrentTimestamp w).1 |}
            ∧ updated_to id c' w w'
            ∧ contract_fields (w_heap w') (c_fields c')
              = contract_fields (w_heap w) updatedFields)
  ∧ (∃ b w', updateContractFields id updatedFields w = (b, w')
             ∧ (b = false → w' = w)).
Proof.
  unfold updateContractFields. split_and!.
  - intros H. apply getContract_None in H. by rewrite H.
  - intros c -> H1 H2. by rewrite !bool_decide_false.
  - intros c Hc Hs. rewrite Hc.
    assert (E : negb (bool_decide (c_status c = CREATED))
                && negb (bool_decide (c_status c = SENT)) = false).
    { destruct Hs as [-> | ->]; reflexivity. }
    rewrite E. eexists _, _. split; [done |]. split; [done |].
    pose proof (apply_stamped_updated_to id (with_fields updatedFields) w c
                  (with_fields_id updatedFields) Hc) as Hu.
    split; [exact Hu |].
    destruct Hu as (_ & _ & _ & -> & _). done.
  - destruct (getContract id w) as [c |]; [| by eauto].
    destruct (_ && _); simpl; eauto. eexists _, _. by split.
Qed.

(* ===================================================================== *)
(** ** Sorting: properties                                                *)
(* ===================================================================== *)

Section sort_by.
Context {A : Type} (key : A → Z).

Lemma insert_by_Permutation x l : insert_by key x l ≡ₚ x :: l.
Proof.
  induction l as [| y l IH]; simpl; [done |].
  destruct (key x <=? key y)%Z; [done |].
  rewrite IH. apply Permutation_swap.
Qed.

Lemma sort_by_Permutation l : sort_by key l ≡ₚ l.
Proof.
  induction l as [| x l IH]; simpl; [done |].
  by rewrite insert_by_Permutation, IH.
Qed.

Lemma insert_by_HdRel a x l :
  key_le key a x → HdRel (key_le key) a l →
  HdRel (key_le key) a (insert_by key x l).
Proof.
  intros Hax Hl. destruct l as [| y l]; simpl; [by constructor |].
  destruct (key x <=? key y)%Z; constructor; [done |].
  by inversion Hl.
Qed.

Lemma insert_by_Sorted x l :
  Sorted (key_le key) l → Sorted (key_le key) (insert_by key x l).
Proof.
  induction 1 as [| y l Hl IH Hy]; simpl; [by repeat constructor |].
  destruct (key x <=? key y)%Z eqn:E.
  - constructor; [by constructor |]. constructor.
    unfold key_le. lia.
  - constructor; [done |]. apply insert_by_HdRel; [| done].
    unfold key_le. lia.
Qed.

Lemma sort_by_Sorted l : Sorted (key_le key) (sort_by key l).
Proof.
  induction l as [| x l IH]; simpl; [constructor |].
  by apply insert_by_Sorted.
Qed.

(** Stability: elements of equal key keep their relative order. *)
Lemma insert_by_stable k x l :
  Sorted (key_le key) l →
  List.filter (λ y, (key y =? k)%Z) (insert_by key x l)
  = List.filter (λ y, (key y =? k)%Z) (x :: l).
Proof.
  induction 1 as [| y l Hl IH Hy]; [done |].
  cbn [insert_by]. destruct (key x <=? key y)%Z eqn:E; [done |].
  cbn [List.filter] in *.
  destruct (key y =? k)%Z eqn:Ey, (key x =? k)%Z eqn:Ex; try by rewrite IH.
  lia.
Qed.

Lemma sort_by_stable k l :
  List.filter (λ y, (key y =? k)%Z) (sort_by key l)
  = List.filter (λ y, (key y =? k)%Z) l.
Proof.
  induction l as [| x l IH]; [done |].
  cbn [sort_by]. rewrite insert_by_stable by apply sort_by_Sorted.
  cbn [List.filter]. by rewrite IH.
Qed.

Lemma sort_by_sorted_id l : Sorted (key_le key) l → sort_by key l = l.
Proof.
  induction 1 as [| x l Hl IH Hx]; [done |].
  cbn [sort_by]. rewrite IH.
  destruct Hx as [| y l Hxy]; [done |].
  cbn [insert_by]. unfold key_le in Hxy.
  by rewrite (proj2 (Z.leb_le _ _) Hxy).
Qed.
End sort_by.

Lemma sort_by_fmap {A B} (f : A → B) (key : B → Z) (l : list A) :
  f <$> sort_by (key ∘ f) l = sort_by key (f <$> l).
Proof.
  induction l as [| x l IH]; [done |].
  cbn [sort_by]. rewrite fmap_cons. cbn [sort_by]. rewrite <- IH.
  generalize (sort_by (key ∘ f) l). intros s.
  induction s as [| y s IHs]; [done |].
  cbn [insert_by]. rewrite fmap_cons. cbn [insert_by]. unfold compose at 1 2.
  destruct (key (f x) <=? key (f y))%Z; [done |].
  by rewrite fmap_cons, IHs.
Qed.

(* ===================================================================== *)
(** ** Heap: allocation and reading                                       *)
(* ===================================================================== *)

Lemma alloc_cells_lookup_lt cs : ∀ n h l,
  l < n → alloc_cells cs n h !! l = h !! l.
Proof.
  induction cs as [| c cs IH]; intros n h l Hl; simpl; [done |].
  rewrite IH by lia. apply lookup_insert_ne. lia.
Qed.

Lemma alloc_cells_lookup_ge cs : ∀ n h l,
  n + length cs ≤ l → alloc_cells cs n h !! l = h !! l.
Proof.
  induction cs as [| c cs IH]; intros n h l Hl; simpl in *; [done |].
  rewrite IH by lia. apply lookup_insert_ne. lia.
Qed.

Lemma alloc_cells_read (cfs : list ContractField) : ∀ n h,
  mapM (read_cfield (alloc_cells (CContractField <$> cfs) n h))
       (seq n (length cfs))
  = Some cfs.
Proof.
  induction cfs as [| f cfs IH]; intros n h; [done |].
  apply mapM_Some. cbn [length seq]. constructor.
  - unfold read_cfield. rewrite fmap_cons. cbn [alloc_cells].
    rewrite alloc_cells_lookup_lt by lia. by rewrite lookup_insert_eq.
  - apply mapM_Some. rewrite fmap_cons. cbn [alloc_cells]. apply IH.
Qed.

Lemma Forall2_zip_Forall {A B} (P : A → B → Prop) l k :
  Forall2 P l k → Forall (λ p, P p.1 p.2) (zip l k).
Proof. induction 1; simpl; by constructor. Qed.

Lemma mapM_pairs {A B} (f : A → option B) (ps : list (A * B)) :
  Forall (λ p, f p.1 = Some p.2) ps → mapM f ps.*1 = Some ps.*2.
Proof.
  intros H. apply mapM_Some. induction H; simpl; by constructor.
Qed.

(* ===================================================================== *)
(** ** createContract: what a successful call computes                    *)
(* ===================================================================== *)

Lemma read_bfield_insert_array h a es l f :
  read_array h a = Some es →
  read_bfield h l = Some f →
  ∀ es', read_bfield (<[a := CArray es']> h) l = Some f.
Proof.
  unfold read_array, read_bfield. intros Ha Hl es'.
  destruct (decide (a = l)) as [-> | Hne].
  - destruct (h !! l) as [[] |]; simplify_eq.
  - by rewrite lookup_insert_ne.
Qed.

Lemma sorted_fields_read h a es fs es' :
  read_array h a = Some es →
  mapM (read_bfield h) es = Some fs →
  let sorted := sort_by (λ p, bf_position p.2) (zip es fs) in
  mapM (read_bfield (<[a := CArray es']> h)) sorted.*1 = Some sorted.*2.
Proof.
  intros Ha Hfs sorted. apply mapM_pairs.
  apply mapM_Some in Hfs. apply Forall2_zip_Forall in Hfs.
  unfold sorted. rewrite sort_by_Permutation.
  eapply Forall_impl; [exact Hfs |].
  intros [l f] Hl. simpl in *. by eapply read_bfield_insert_array.
Qed.

Lemma sorted_fields_snd es fs :
  length es = length fs →
  (sort_by (λ p : loc * BlueprintField, bf_position p.2) (zip es fs)).*2
  = sort_by bf_position fs.
Proof.
  intros Hlen.
  etrans; [exact (sort_by_fmap snd bf_position (zip es fs)) |].
  by rewrite snd_zip by lia.
Qed.

Lemma sorted_fields_fst es fs :
  length es = length fs →
  (sort_by (λ p : loc * BlueprintField, bf_position p.2) (zip es fs)).*1 ≡ₚ es.
Proof.
  intros Hlen. rewrite sort_by_Permutation. by rewrite fst_zip by lia.
Qed.

Lemma createContract_success input w bp es fs :
  whitespace_only (in_name input) = false →
  getBlueprint (in_blueprintId input) w = Some bp →
  read_array (w_heap w) (b_fields bp) = Some es →
  mapM (read_bfield (w_heap w)) es = Some fs →
  createContract input w
  = Some (Some (created_contract input bp w),
          mkWorld (created_heap (w_heap w) (b_fields bp) (w_next w) es fs)
                  (S (w_next w) + length fs)
                  (w_blueprints w)
                  (w_contracts w ++ [created_contract input bp w])
                  (w_clock w) (S (w_ticks w))
                  (w_ids w) (S (w_idcalls w))).
Proof.
  intros Hname Hbp Hes Hfs. unfold createContract.
  assert (Ht : truthy_js (trim (in_name input)) = true).
  { apply not_false_iff_true. intros E. apply trim_empty in E. congruence. }
  rewrite Ht, Hbp. cbn [negb getCurrentTimestamp].
  unfold sort_in_place. cbn [w_heap set_ticks w_next].
  rewrite Hes. cbn [mbind option_bind]. rewrite Hfs. cbn [mbind option_bind].
  unfold map_to_contract_fields. cbn [w_heap set_heap w_next].
  unfold read_array at 1. rewrite lookup_insert_eq. cbn [mbind option_bind].
  rewrite (sorted_fields_read _ _ _ _ _ Hes Hfs). cbn [mbind option_bind].
  pose proof (length_mapM _ _ _ Hfs) as Hlen.
  assert (Hl2 : length (sort_by (λ p : loc * BlueprintField, bf_position p.2)
                          (zip es fs)).*2 = length fs).
  { rewrite sorted_fields_snd by done.
    apply Permutation_length, sort_by_Permutation. }
  rewrite Hl2. reflexivity.
Qed.

Lemma createContract_blank input w :
  whitespace_only (in_name input) = true →
  createContract input w = Some (None, w).
Proof.
  intros H. unfold createContract.
  by rewrite (proj2 (trim_empty _) H).
Qed.

Lemma createContract_no_blueprint input w :
  getBlueprint (in_blueprintId input) w = None →
  createContract input w = Some (None, w).
Proof.
  intros H. unfold createContract. rewrite H.
  by destruct (negb _).
Qed.

Lemma created_heap_array h a r es fs :
  read_array (created_heap h a r es fs) r = Some (seq (S r) (length fs)).
Proof.
  unfold created_heap, read_array.
  rewrite alloc_cells_lookup_lt by lia. by rewrite lookup_insert_eq.
Qed.

Lemma created_heap_fields h a r es fs :
  length es = length fs →
  contract_fields (created_heap h a r es fs) r
  = Some (toContractField <$> sort_by bf_position fs).
Proof.
  intros Hlen. unfold contract_fields.
  rewrite created_heap_array. cbn [mbind option_bind].
  unfold created_heap. rewrite sorted_fields_snd by done.
  rewrite list_fmap_compose.
  replace (length fs) with (length (toContractField <$> sort_by bf_position fs)).
  - apply alloc_cells_read.
  - rewrite length_fmap. apply Permutation_length, sort_by_Permutation.
Qed.

Lemma created_heap_old h a r es fs l :
  l < r → l ≠ a → created_heap h a r es fs !! l = h !! l.
Proof.
  intros Hl Ha. unfold created_heap.
  rewrite alloc_cells_lookup_lt by lia.
  rewrite lookup_insert_ne by lia. by rewrite lookup_insert_ne.
Qed.

Lemma created_heap_blueprint_array h a r es fs :
  a < r →
  read_array (created_heap h a r es fs) a
  = Some (sort_by (λ p, bf_position p.2) (zip es fs)).*1.
Proof.
  intros Ha. unfold created_heap, read_array.
  rewrite alloc_cells_lookup_lt by lia.
  rewrite lookup_insert_ne by lia. by rewrite lookup_insert_eq.
Qed.

(* ===================================================================== *)
(** ** Blueprint edits and reachable states                               *)
(* ===================================================================== *)

Lemma elem_of_bp_locs w l :
  l ∈ bp_locs w
  ↔ l ∈ bp_arrays w
    ∨ ∃ a, a ∈ bp_arrays w ∧ l ∈ array_elems (w_heap w) a.
Proof.
  unfold bp_locs, bp_objects.
  rewrite elem_of_app, list_elem_of_bind. naive_solver.
Qed.

Lemma elem_of_bp_objects w l :
  l ∈ bp_objects w ↔ ∃ a, a ∈ bp_arrays w ∧ l ∈ array_elems (w_heap w) a.
Proof. unfold bp_objects. rewrite list_elem_of_bind. naive_solver. Qed.

Lemma array_elems_same h h' a :
  h' !! a = h !! a → array_elems h' a = array_elems h a.
Proof. unfold array_elems, read_array. by intros ->. Qed.

Lemma array_elems_insert_array h a es :
  array_elems (<[a := CArray es]> h) a = es.
Proof. unfold array_elems, read_array. by rewrite lookup_insert_eq. Qed.

Lemma array_elems_read h a es :
  read_array h a = Some es → array_elems h a = es.
Proof. unfold array_elems. by intros ->. Qed.

Lemma mutate_contracts m w w' :
  mutate m w = Some w' → w_contracts w' = w_contracts w.
Proof.
  destruct m; simpl; intros H.
  - destruct (_ && _); by simplify_eq.
  - destruct (_ && _); by simplify_eq.
  - destruct (bool_decide _); [| done].
    destruct (read_array _ _); simpl in H; by simplify_eq.
  - by simplify_eq.
  - destruct (bool_decide _); by simplify_eq.
Qed.

Lemma mutate_heap_edit m w w' :
  mutate m w = Some w' → heap_edit w w'.
Proof.
  destruct m as [l0 bf | a0 es | a0 bf | id name ts | bs]; simpl; intros H.
  - (* SetFieldObject *)
    destruct (bool_decide (l0 ∈ bp_objects w)) eqn:E1; [| done].
    destruct (bool_decide (is_Some _)) eqn:E2; [| done].
    apply bool_decide_eq_true in E1, E2. simpl in H. simplify_eq.
    assert (Hsame : ∀ a, array_elems (<[l0 := CBlueprintField bf]> (w_heap w)) a
                         = array_elems (w_heap w) a).
    { intros a. destruct (decide (a = l0)) as [-> | Hne].
      - unfold array_elems, read_array. rewrite lookup_insert_eq.
        destruct E2 as [f Hf]. unfold read_bfield in Hf.
        by destruct (w_heap w !! l0) as [[] |].
      - apply array_elems_same. by rewrite lookup_insert_ne. }
    split; simpl; [lia | |].
    + intros l _ Hl. apply lookup_insert_ne. intros ->.
      apply Hl. unfold bp_locs. set_solver.
    + intros l Hl. left. apply elem_of_bp_locs in Hl. apply elem_of_bp_locs.
      destruct Hl as [Hl | (a & Ha & Hl)]; [by left |].
      right. exists a. split; [done |]. simpl in Hl. by rewrite Hsame in Hl.
  - (* SetArray *)
    destruct (bool_decide (a0 ∈ bp_arrays w)) eqn:E1; [| done].
    destruct (bool_decide (is_Some _)) eqn:E2; [| done].
    destruct (bool_decide (Forall _ _)) eqn:E3; [| done].
    apply bool_decide_eq_true in E1, E2, E3. simpl in H. simplify_eq.
    split; simpl; [lia | |].
    + intros l _ Hl. apply lookup_insert_ne. intros ->.
      apply Hl. apply elem_of_bp_locs. by left.
    + intros l Hl. left. apply elem_of_bp_locs in Hl.
      destruct Hl as [Hl | (a & Ha & Hl)];
        [apply elem_of_bp_locs; by left |]. simpl in Hl.
      destruct (decide (a = a0)) as [-> | Hne].
      * rewrite array_elems_insert_array in Hl.
        rewrite Forall_forall in E3. unfold bp_locs.
        apply elem_of_app. right. by apply E3.
      * rewrite (array_elems_same (w_heap w)) in Hl
          by (by rewrite lookup_insert_ne).
        apply elem_of_bp_locs. right. by exists a.
  - (* PushNewField *)
    destruct (bool_decide (a0 ∈ bp_arrays w)) eqn:E1; [| done].
    destruct (read_array (w_heap w) a0) as [es0 |] eqn:E2; [| done].
    apply bool_decide_eq_true in E1. simpl in H. simplify_eq.
    split; simpl; [lia | |].
    + intros l Hlt Hl. rewrite lookup_insert_ne.
      * apply lookup_insert_ne. lia.
      * intros ->. apply Hl. apply elem_of_bp_locs. by left.
    + intros l Hl. apply elem_of_bp_locs in Hl.
      destruct Hl as [Hl | (a & Ha & Hl)];
        [left; apply elem_of_bp_locs; by left |]. simpl in Hl.
      destruct (decide (a = a0)) as [-> | Hne].
      * rewrite array_elems_insert_array in Hl.
        apply elem_of_app in Hl as [Hl | Hl].
        -- left. apply elem_of_bp_locs. right. exists a0.
           by rewrite (array_elems_read _ _ _ E2).
        -- apply list_elem_of_singleton in Hl as ->. right. lia.
      * destruct (decide (a = w_next w)) as [-> | Hn].
        -- unfold array_elems, read_array in Hl.
           rewrite lookup_insert_ne, lookup_insert_eq in Hl by done.
           by apply elem_of_nil in Hl.
        -- rewrite (array_elems_same (w_heap w)) in Hl
             by (by rewrite !lookup_insert_ne).
           left. apply elem_of_bp_locs. right. by exists a.
  - (* NewBlueprint *)
    simplify_eq. split; simpl; [lia | |].
    + intros l Hlt _. apply lookup_insert_ne. lia.
    + intros l Hl. apply elem_of_bp_locs in Hl.
      unfold bp_arrays in Hl. simpl in Hl.
      setoid_rewrite fmap_app in Hl. setoid_rewrite elem_of_app in Hl.
      simpl in Hl. setoid_rewrite list_elem_of_singleton in Hl.
      destruct Hl as [[Hl | ->] | (a & [Ha | ->] & Hl)].
      * left. apply elem_of_bp_locs. by left.
      * right. lia.
      * destruct (decide (a = w_next w)) as [-> | Hn].
        -- rewrite array_elems_insert_array in Hl. by apply elem_of_nil in Hl.
        -- rewrite (array_elems_same (w_heap w)) in Hl
             by (by rewrite lookup_insert_ne).
           left. apply elem_of_bp_locs. right. by exists a.
      * rewrite array_elems_insert_array in Hl. by apply elem_of_nil in Hl.
  - (* SetBlueprints *)
    destruct (bool_decide (Forall _ _)) eqn:E1; [| done].
    apply bool_decide_eq_true in E1. simplify_eq.
    rewrite Forall_forall in E1.
    assert (Harr : ∀ a, a ∈ b_fields <$> bs → a ∈ bp_arrays w).
    { intros a Ha. apply list_elem_of_fmap in Ha as (b & -> & Hb). auto. }
    split; simpl; [lia | done |].
    intros l Hl. left. apply elem_of_bp_locs in Hl. apply elem_of_bp_locs.
    destruct Hl as [Hl | (a & Ha & Hl)]; [left; by apply Harr |].
    right. exists a. split; [by apply Harr | done].
Qed.

Lemma heap_edit_allocated w w' :
  bp_allocated w → heap_edit w w' → bp_allocated w'.
Proof.
  intros Hw [Hn _ Hl] l Hin.
  destruct (Hl l Hin) as [H | H]; [| lia]. specialize (Hw l H). lia.
Qed.

Lemma heap_edit_refl_on w w' :
  w_heap w' = w_heap w → w_next w' = w_next w →
  w_blueprints w' = w_blueprints w → heap_edit w w'.
Proof.
  intros Hh Hn Hb.
  assert (Hlocs : bp_locs w' = bp_locs w).
  { unfold bp_locs, bp_objects, bp_arrays. by rewrite Hh, Hb. }
  split; [lia | by rewrite Hh | rewrite Hlocs; auto].
Qed.

Lemma mapM_read_cfield_same h h' es :
  (∀ l, l ∈ es → h' !! l = h !! l) →
  mapM (read_cfield h') es = mapM (read_cfield h) es.
Proof.
  intros H. apply Forall_mapM_ext, Forall_forall.
  intros l Hl. unfold read_cfield. by rewrite H.
Qed.

(** An edit leaves an isolated contract isolated, with the same objects
    and the same field sequence. *)
Lemma heap_edit_isolated c w w' :
  isolated c w → heap_edit w w' →
  isolated c w'
  ∧ contract_locs (w_heap w') c = contract_locs (w_heap w) c
  ∧ contract_fields (w_heap w') (c_fields c)
    = contract_fields (w_heap w) (c_fields c).
Proof.
  intros [Hal Hc] He.
  assert (Hsame : ∀ l, l ∈ contract_locs (w_heap w) c →
                       w_heap w' !! l = w_heap w !! l).
  { intros l Hl. destruct (Hc l Hl). by apply (he_frame _ _ He). }
  assert (Helems : array_elems (w_heap w') (c_fields c)
                   = array_elems (w_heap w) (c_fields c)).
  { apply array_elems_same, Hsame. unfold contract_locs. set_solver. }
  assert (Hlocs : contract_locs (w_heap w') c = contract_locs (w_heap w) c).
  { unfold contract_locs. by rewrite Helems. }
  split_and!; [| done |].
  - split; [by eapply heap_edit_allocated |].
    intros l Hl. rewrite Hlocs in Hl. destruct (Hc l Hl) as [Hlt Hnot].
    pose proof (he_next _ _ He). split; [lia |].
    intros Hin. destruct (he_locs _ _ He l Hin); [done | lia].
  - unfold contract_fields.
    assert (Hr : read_array (w_heap w') (c_fields c)
                 = read_array (w_heap w) (c_fields c)).
    { unfold read_array. rewrite Hsame; [done |].
      unfold contract_locs. set_solver. }
    rewrite Hr. destruct (read_array (w_heap w) (c_fields c)) as [es |] eqn:E;
      [| done]. cbn [mbind option_bind].
    apply mapM_read_cfield_same. intros l Hl. apply Hsame.
    unfold contract_locs. rewrite (array_elems_read _ _ _ E). set_solver.
Qed.

(* ===================================================================== *)
(** ** createContract and the blueprint store                             *)
(* ===================================================================== *)

Lemma createContract_inv input w c w' :
  createContract input w = Some (Some c, w') →
  ∃ bp es fs,
    whitespace_only (in_name input) = false
    ∧ getBlueprint (in_blueprintId input) w = Some bp
    ∧ read_array (w_heap w) (b_fields bp) = Some es
    ∧ mapM (read_bfield (w_heap w)) es = Some fs.
Proof.
  intros H. unfold createContract in H.
  destruct (truthy_js (trim (in_name input))) eqn:Ht; [| discriminate].
  destruct (getBlueprint _ _) as [bp |] eqn:Hbp; [| discriminate].
  cbn [negb getCurrentTimestamp] in H. unfold sort_in_place in H.
  cbn [w_heap set_ticks] in H.
  destruct (read_array (w_heap w) (b_fields bp)) as [es |] eqn:Hes;
    [| discriminate].
  cbn [mbind option_bind] in H.
  destruct (mapM (read_bfield (w_heap w)) es) as [fs |] eqn:Hfs;
    [| discriminate].
  exists bp, es, fs. split_and!; try done.
  destruct (whitespace_only (in_name input)) eqn:Hw; [| done].
  apply trim_empty in Hw. congruence.
Qed.

(** The blueprint store holds after the call what it held before. *)
Lemma createContract_bp_locs input w c w' :
  bp_allocated w →
  createContract input w = Some (Some c, w') →
  ∀ l, l ∈ bp_locs w' → l ∈ bp_locs w.
Proof.
  intros Hal H.
  destruct (createContract_inv _ _ _ _ H) as (bp & es & fs & Hn & Hbp & Hes & Hfs).
  rewrite (createContract_success _ _ _ _ _ Hn Hbp Hes Hfs) in H.
  injection H as <- <-.
  pose proof (length_mapM _ _ _ Hfs) as Hlen.
  assert (Harr : ∀ a, a ∈ bp_arrays w → a < w_next w).
  { intros a Ha. apply Hal, elem_of_bp_locs. by left. }
  intros l Hl. apply elem_of_bp_locs in Hl. apply elem_of_bp_locs.
  destruct Hl as [Hl | (a & Ha & Hl)]; [by left |].
  right. exists a. split; [done |].
  change (bp_arrays _) with (bp_arrays w) in Ha. cbn [w_heap] in Hl.
  destruct (decide (a = b_fields bp)) as [-> | Hne].
  - unfold array_elems in Hl.
    rewrite created_heap_blueprint_array in Hl by auto. simpl in Hl.
    rewrite sorted_fields_fst in Hl by done.
    by rewrite (array_elems_read _ _ _ Hes).
  - rewrite (array_elems_same (w_heap w)) in Hl; [done |].
    apply created_heap_old; auto.
Qed.

Lemma createContract_heap_edit input w c w' :
  bp_allocated w →
  createContract input w = Some (Some c, w') →
  heap_edit w w'.
Proof.
  intros Hal H.
  pose proof (createContract_bp_locs _ _ _ _ Hal H) as Hlocs.
  destruct (createContract_inv _ _ _ _ H) as (bp & es & fs & Hn & Hbp & Hes & Hfs).
  rewrite (createContract_success _ _ _ _ _ Hn Hbp Hes Hfs) in H.
  injection H as <- <-.
  split; cbn [w_next w_heap].
  - lia.
  - intros l Hlt Hl. apply created_heap_old; [done |].
    intros ->. apply Hl, elem_of_bp_locs. left.
    unfold getBlueprint in Hbp. apply find_some in Hbp as [Hin _].
    apply list_elem_of_fmap. exists bp. by rewrite list_elem_of_In.
  - intros l Hl. left. by apply Hlocs.
Qed.

(** The contract just created consists of new objects only. *)
Lemma createContract_isolated input w c w' :
  bp_allocated w →
  createContract input w = Some (Some c, w') →
  isolated c w'.
Proof.
  intros Hal H.
  pose proof (createContract_heap_edit _ _ _ _ Hal H) as He.
  pose proof (createContract_bp_locs _ _ _ _ Hal H) as Hlocs.
  destruct (createContract_inv _ _ _ _ H) as (bp & es & fs & Hn & Hbp & Hes & Hfs).
  rewrite (createContract_success _ _ _ _ _ Hn Hbp Hes Hfs) in H.
  injection H as <- <-.
  split; [by eapply heap_edit_allocated |].
  intros l Hl. unfold contract_locs in Hl.
  cbn [c_fields created_contract w_heap] in Hl.
  unfold array_elems in Hl. rewrite created_heap_array in Hl. simpl in Hl.
  assert (Hge : w_next w ≤ l < S (w_next w) + length fs).
  { apply elem_of_cons in Hl as [-> | Hl]; [lia |].
    apply elem_of_seq in Hl. lia. }
  cbn [w_next]. split; [lia |].
  intros Hin. apply Hlocs, Hal in Hin. lia.
Qed.

(* ===================================================================== *)
(** ** Invariants of the steps                                            *)
(* ===================================================================== *)

Lemma updateContractFields_frame id a w :
  let w' := (updateContractFields id a w).2 in
  w_heap w' = w_heap w ∧ w_next w' = w_next w
  ∧ w_blueprints w' = w_blueprints w
  ∧ c_id <$> w_contracts w' = c_id <$> w_contracts w.
Proof.
  unfold updateContractFields.
  destruct (getContract id w); [| done].
  destruct (_ && _); [done |]. cbn [snd].
  destruct (apply_stamped_frame id (with_fields a) w) as (-> & -> & -> & _).
  rewrite apply_stamped_contracts, map_stamped_ids; done.
Qed.

Lemma transitionStatus_frame id s w :
  let w' := (transitionStatus id s w).2 in
  w_heap w' = w_heap w ∧ w_next w' = w_next w
  ∧ w_blueprints w' = w_blueprints w
  ∧ c_id <$> w_contracts w' = c_id <$> w_contracts w.
Proof.
  unfold transitionStatus.
  destruct (getContract id w); [| done].
  destruct (negb _); [done |]. cbn [snd].
  destruct (apply_stamped_frame id (with_status s) w) as (-> & -> & -> & _).
  rewrite apply_stamped_contracts, map_stamped_ids; done.
Qed.

Lemma deleteContract_frame id w :
  let w' := (deleteContract id w).2 in
  w_heap w' = w_heap w ∧ w_next w' = w_next w
  ∧ w_blueprints w' = w_blueprints w
  ∧ sublist (c_id <$> w_contracts w') (c_id <$> w_contracts w).
Proof.
  unfold deleteContract. cbn [snd]. destruct (existsb _ _); [| done].
  split_and!; try done. cbn [w_contracts set_contracts].
  induction (w_contracts w) as [| c cs IH]; [done |].
  cbn [List.filter]. destruct (negb _); rewrite ?fmap_cons; by constructor.
Qed.

Lemma step_heap_edit w w' :
  bp_allocated w → step w w' → heap_edit w w'.
Proof.
  intros Hal Hs. destruct Hs as [input w c w' H _ | id a w | id s w | id w | m w w' H].
  - by eapply createContract_heap_edit.
  - destruct (updateContractFields_frame id a w) as (? & ? & ? & _).
    by apply heap_edit_refl_on.
  - destruct (transitionStatus_frame id s w) as (? & ? & ? & _).
    by apply heap_edit_refl_on.
  - destruct (deleteContract_frame id w) as (? & ? & ? & _).
    by apply heap_edit_refl_on.
  - by eapply mutate_heap_edit.
Qed.




Lemma getContract_NoDup w c :
  NoDup (c_id <$> w_contracts w) → c ∈ w_contracts w →
  getContract (c_id c) w = Some c.
Proof.
  unfold getContract. induction (w_contracts w) as [| c0 cs IH]; intros Hnd Hc.
  - by apply elem_of_nil in Hc.
  - rewrite fmap_cons in Hnd. apply NoDup_cons in Hnd as [Hnot Hnd].
    cbn [List.find]. apply elem_of_cons in Hc as [-> | Hc].
    + by rewrite bool_decide_true.
    + rewrite bool_decide_false; [by apply IH |].
      intros Heq. apply Hnot. rewrite Heq.
      apply list_elem_of_fmap. by exists c.
Qed.

(** Whatever the stores do, an isolated contract's objects stay as they
    are. *)
Lemma snapshot_stable c w w' :
  isolated c w → rtc step w w' →
  isolated c w'
  ∧ contract_locs (w_heap w') c = contract_locs (w_heap w) c
  ∧ contract_fields (w_heap w') (c_fields c)
    = contract_fields (w_heap w) (c_fields c).
Proof.
  intros Hiso Hr. induction Hr as [| w1 w2 w3 Hs _ IH]; [done |].
  pose proof (step_heap_edit _ _ (proj1 Hiso) Hs) as He.
  destruct (heap_edit_isolated _ _ _ Hiso He) as (Hiso2 & Hl & Hf).
  destruct (IH Hiso2) as (? & -> & ->). done.
Qed.

Lemma mutate_all_rtc ms : ∀ w w',
  mutate_all ms w = Some w' →
  rtc step w w' ∧ w_contracts w' = w_contracts w.
Proof.
  induction ms as [| m ms IH]; intros w w' H; simpl in H.
  - by simplify_eq.
  - destruct (mutate m w) as [w1 |] eqn:Hm; [| done]. simpl in H.
    destruct (IH _ _ H) as [Hr Hc]. split.
    + eapply rtc_l; [by eapply step_blueprint | done].
    + by rewrite Hc, (mutate_contracts _ _ _ Hm).
Qed.

(* ===================================================================== *)
(** ** Claims about createContract and the lifecycle                      *)
(* ===================================================================== *)

Lemma toContractField_copy bf : copy_of bf (toContractField bf).
Proof.
  unfold copy_of, toContractField. simpl. split_and!; try done.
  - intros ->. simpl. by destruct (bf_defaultChecked bf).
  - intros H. by destruct (decide (bf_type bf = CHECKBOX)).
Qed.

(** C6: [createContract] returns nothing and leaves the state as it was
    when the name is empty or white space only, and when the blueprint id
    resolves to no stored blueprint.  Otherwise it returns a contract,
    appended to the store, with status CREATED, the trimmed name, the
    blueprint's id and current name, [createdAt] equal to [updatedAt], and
    whose field sequence is, element by element, a copy of the blueprint's
    fields stably sorted by position: same id, type, label, position,
    required, editableBy and placeholder, the value being the
    default-checked flag (false when unset) for a CHECKBOX and null for
    every other type. *)
Theorem C6_createContract input w :
  (whitespace_only (in_name input) = true →
     createContract input w = Some (None, w))
  ∧ (getBlueprint (in_blueprintId input) w = None →
     createContract input w = Some (None, w))
  ∧ (∀ bp fs,
       whitespace_only (in_name input) = false →
       getBlueprint (in_blueprintId input) w = Some bp →
       blueprint_fields (w_heap w) (b_fields bp) = Some fs →
       ∃ c w' cfs,
         createContract input w = Some (Some c, w')
         ∧ w_contracts w' = w_contracts w ++ [c]
         ∧ c_status c = CREATED
         ∧ c_name c = trim (in_name input)
         ∧ c_blueprintId c = b_id bp
         ∧ c_blueprintName c = b_name bp
         ∧ c_createdAt c = c_updatedAt c
         ∧ c_createdAt c = (getCurrentTimestamp w).1
         ∧ contract_fields (w_heap w') (c_fields c) = Some cfs
         ∧ Forall2 copy_of (sort_by bf_position fs) cfs
         ∧ sort_by bf_position fs ≡ₚ fs
         ∧ Sorted (λ x y, (bf_position x ≤ bf_position y)%Z)
                  (sort_by bf_position fs)
         ∧ Sorted (λ x y, (cf_position x ≤ cf_position y)%Z) cfs
         ∧ (∀ k, List.filter (λ f, (bf_position f =? k)%Z)
                             (sort_by bf_position fs)
                 = List.filter (λ f, (bf_position f =? k)%Z) fs)).
Proof.
  split_and!.
  - apply createContract_blank.
  - apply createContract_no_blueprint.
  - intros bp fs Hn Hbp Hfs. unfold blueprint_fields in Hfs.
    destruct (read_array (w_heap w) (b_fields bp)) as [es |] eqn:Hes;
      [| done]. cbn [mbind option_bind] in Hfs.
    pose proof (length_mapM _ _ _ Hfs) as Hlen.
    eexists _, _, (toContractField <$> sort_by bf_position fs).
    split; [by apply (createContract_success input w bp es fs) |].
    cbn [w_contracts w_heap created_contract c_status c_name c_blueprintId
           c_blueprintName c_createdAt c_updatedAt c_fields].
    split_and!; try done.
    + by apply created_heap_fields.
    + apply Forall2_fmap_r, Forall_Forall2_diag, Forall_forall.
      intros bf _. apply toContractField_copy.
    + apply sort_by_Permutation.
    + apply (sort_by_Sorted bf_position).
    + pose proof (sort_by_Sorted bf_position fs) as Hs.
      induction Hs as [| x l Hl IH Hx]; [constructor |].
      rewrite fmap_cons. constructor; [done |].
      destruct Hx; rewrite ?fmap_cons; by constructor.
    + intros k. apply sort_by_stable.
Qed.

(** C2: a contract returned by [createContract] consists of objects none
    of which the blueprint store holds, and after any sequence of
    mutations by the blueprint store (in place on the objects it holds:
    relabel, reorder, remove, add fields, rename or delete blueprints) the
    contract store is the same, the contract is still in it with the same
    [blueprintName], its field array denotes the same field sequence as at
    creation, and still none of its objects is held by the blueprint
    store. *)
Theorem C2_snapshot_isolation input w c w1 :
  bp_allocated w →
  createContract input w = Some (Some c, w1) →
  (∀ l, l ∈ contract_locs (w_heap w1) c → l ∉ bp_locs w1)
  ∧ is_Some (contract_fields (w_heap w1) (c_fields c))
  ∧ c ∈ w_contracts w1
  ∧ ∀ ms w2, mutate_all ms w1 = Some w2 →
      w_contracts w2 = w_contracts w1
      ∧ contract_fields (w_heap w2) (c_fields c)
        = contract_fields (w_heap w1) (c_fields c)
      ∧ (∀ l, l ∈ contract_locs (w_heap w2) c → l ∉ bp_locs w2).
Proof.
  intros Hal H.
  pose proof (createContract_isolated _ _ _ _ Hal H) as Hiso.
  split_and!.
  - intros l Hl. by apply Hiso.
  - destruct (createContract_inv _ _ _ _ H) as (bp & es & fs & Hn & Hbp & Hes & Hfs).
    rewrite (createContract_success _ _ _ _ _ Hn Hbp Hes Hfs) in H.
    injection H as <- <-. cbn [w_heap c_fields created_contract].
    rewrite created_heap_fields by (by eapply length_mapM). done.
  - destruct (createContract_inv _ _ _ _ H) as (bp & es & fs & Hn & Hbp & Hes & Hfs).
    rewrite (createContract_success _ _ _ _ _ Hn Hbp Hes Hfs) in H.
    injection H as <- <-. cbn [w_contracts]. set_solver.
  - intros ms w2 Hms. destruct (mutate_all_rtc _ _ _ Hms) as [Hr Hc].
    destruct (snapshot_stable _ _ _ Hiso Hr) as (Hiso2 & _ & Hf).
    split_and!; [done | done |]. intros l Hl. by apply Hiso2.
Qed.


(** After a successful [createContract] the blueprint's own array denotes
    its former fields stably sorted by position. *)
Lemma createContract_sorts_blueprint input w bp fs c w' :
  bp_allocated w →
  getBlueprint (in_blueprintId input) w = Some bp →
  blueprint_fields (w_heap w) (b_fields bp) = Some fs →
  createContract input w = Some (Some c, w') →
  blueprint_fields (w_heap w') (b_fields bp) = Some (sort_by bf_position fs).
Proof.
  intros Hal Hbp Hfs H. unfold blueprint_fields in Hfs.
  destruct (createContract_inv _ _ _ _ H) as (bp' & es & fs' & Hn & Hbp' & Hes & Hfs').
  rewrite Hbp in Hbp'. injection Hbp' as <-.
  rewrite Hes in Hfs. cbn [mbind option_bind] in Hfs.
  rewrite Hfs in Hfs'. injection Hfs' as <-.
  rewrite (createContract_success _ _ _ _ _ Hn Hbp Hes Hfs) in H.
  injection H as <- <-. cbn [w_heap].
  pose proof (length_mapM _ _ _ Hfs) as Hlen.
  assert (Ha : b_fields bp < w_next w).
  { apply Hal, elem_of_bp_locs. left.
    unfold getBlueprint in Hbp. apply find_some in Hbp as [Hin _].
    apply list_elem_of_fmap. exists bp. by rewrite list_elem_of_In. }
  unfold blueprint_fields.
  rewrite created_heap_blueprint_array by done. cbn [mbind option_bind].
  rewrite <- (sorted_fields_snd es fs Hlen).
  apply mapM_pairs, Forall_forall. intros [l f] Hp. cbn [fst snd].
  rewrite sort_by_Permutation in Hp.
  pose proof (elem_of_zip_l _ _ _ _ Hp) as Hl.
  apply mapM_Some, Forall2_zip_Forall in Hfs.
  rewrite Forall_forall in Hfs. specialize (Hfs _ Hp). cbn [fst snd] in Hfs.
  assert (Hlt : l < w_next w).
  { apply Hal, elem_of_bp_locs. right. exists (b_fields bp). split.
    - unfold getBlueprint in Hbp. apply find_some in Hbp as [Hin _].
      apply list_elem_of_fmap. exists bp. by rewrite list_elem_of_In.
    - by rewrite (array_elems_read _ _ _ Hes). }
  assert (Hne : l ≠ b_fields bp).
  { intros ->. unfold read_array in Hes. unfold read_bfield in Hfs.
    destruct (w_heap w !! b_fields bp) as [[] |]; simplify_eq. }
  unfold read_bfield. by rewrite created_heap_old.
Qed.

(* ===================================================================== *)
(** ** The sample run                                                     *)
(* ===================================================================== *)

Lemma demo_create :
  createContract demo_input demo_world = Some (Some demo_contract, demo_world1).
Proof. vm_compute. reflexivity. Qed.

Lemma demo_allocated : bp_allocated demo_world.
Proof.
  unfold bp_allocated. apply Forall_forall.
  apply (bool_decide_unpack _). by vm_compute.
Qed.



Lemma demo_mutate : mutate_all demo_mutations demo_world1 = Some demo_world2.
Proof. vm_compute. reflexivity. Qed.

Lemma C2_snapshot_isolation_witness :
  bp_allocated demo_world
  ∧ createContract demo_input demo_world = Some (Some demo_contract, demo_world1)
  ∧ mutate_all demo_mutations demo_world1 = Some demo_world2
  ∧ w_blueprints demo_world2 = []
  ∧ w_contracts demo_world2 = [demo_contract]
  ∧ contract_fields (w_heap demo_world2) (c_fields demo_contract)
    = Some demo_contract_fields.
Proof.
  split; [exact demo_allocated |]. split; [exact demo_create |].
  split; [exact demo_mutate |]. split; [vm_compute; reflexivity |].
  destruct (C2_snapshot_isolation demo_input demo_world demo_contract
              demo_world1 demo_allocated demo_create) as (_ & _ & _ & H).
  destruct (H demo_mutations demo_world2 demo_mutate) as (-> & -> & _).
  split; vm_compute; reflexivity.
Defined.


Lemma C4_transitionStatus_witness :
  transitionStatus "c9" LOCKED demo_approved = (false, demo_approved)
  ∧ transitionStatus "c0" LOCKED demo_approved = (false, demo_approved)
  ∧ ∃ w', transitionStatus "c0" LOCKED demo_signed = (true, w')
      ∧ getContract "c0" w'
        = Some {| c_id := "c0"; c_name := js "Vendor NDA";
                  c_blueprintId := "bp-1"; c_blueprintName := js "NDA Template";
                  c_status := LOCKED; c_fields := 4;
                  c_createdAt := "t0"; c_updatedAt := "t4" |}.
Proof.
  split_and!.
  - apply (C4_transitionStatus "c9" LOCKED demo_approved).
    apply (bool_decide_unpack _). by vm_compute.
  - destruct (C4_transitionStatus "c0" LOCKED demo_approved) as (_ & H & _).
    apply (H {| c_id := "c0"; c_name := js "Vendor NDA";
                c_blueprintId := "bp-1"; c_blueprintName := js "NDA Template";
                c_status := APPROVED; c_fields := 4;
                c_createdAt := "t0"; c_updatedAt := "t1" |});
      vm_compute; reflexivity.
  - destruct (C4_transitionStatus "c0" LOCKED demo_signed) as (_ & _ & H & _).
    destruct (H demo_signed_contract) as (w' & Hw' & Hu & _);
      [vm_compute; reflexivity | reflexivity |].
    exists w'. split; [exact Hw' |]. rewrite Hu. vm_compute. reflexivity.
Defined.

Lemma C5_updateContractFields_witness :
  updateContractFields "c9" 4 demo_signed = (false, demo_signed)
  ∧ updateContractFields "c0" 4 demo_signed = (false, demo_signed)
  ∧ ∃ w', updateContractFields "c0" 0 demo_world1 = (true, w')
      ∧ getContract "c0" w'
        = Some {| c_id := "c0"; c_name := js "Vendor NDA";
                  c_blueprintId := "bp-1"; c_blueprintName := js "NDA Template";
                  c_status := CREATED; c_fields := 0;
                  c_createdAt := "t0"; c_updatedAt := "t1" |}.
Proof.
  split_and!.
  - apply (C5_updateContractFields "c9" 4 demo_signed).
    apply (bool_decide_unpack _). by vm_compute.
  - destruct (C5_updateContractFields "c0" 4 demo_signed) as (_ & H & _).
    apply (H demo_signed_contract); [vm_compute; reflexivity | done | done].
  - destruct (C5_updateContractFields "c0" 0 demo_world1) as (_ & _ & H & _).
    destruct (H demo_contract) as (w' & c' & Hw' & -> & (Hu & _) & _);
      [vm_compute; reflexivity | by left |].
    exists w'. split; [exact Hw' |]. rewrite Hu. vm_compute. reflexivity.
Defined.

Lemma C6_createContract_witness :
  createContract (mkInput blank_name "bp-1") demo_world = Some (None, demo_world)
  ∧ createContract (mkInput (js "Vendor NDA") "bp-2") demo_world
    = Some (None, demo_world)
  ∧ ∃ c w' cfs,
      createContract demo_input demo_world = Some (Some c, w')
      ∧ c_status c = CREATED
      ∧ c_blueprintName c = js "NDA Template"
      ∧ c_createdAt c = c_updatedAt c
      ∧ contract_fields (w_heap w') (c_fields c) = Some cfs
      ∧ Forall2 copy_of [field_name; field_sign; field_agree] cfs.
Proof.
  split_and!.
  - destruct (C6_createContract (mkInput blank_name "bp-1") demo_world)
      as (H & _ & _).
    apply H. vm_compute. reflexivity.
  - destruct (C6_createContract (mkInput (js "Vendor NDA") "bp-2") demo_world)
      as (_ & H & _).
    apply H. reflexivity.
  - destruct (C6_createContract demo_input demo_world) as (_ & _ & H).
    destruct (H (mkBlueprint "bp-1" (js "NDA Template") 0 "t" "t")
                [field_sign; field_name; field_agree])
      as (c & w' & cfs & H1 & _ & H3 & _ & _ & H6 & H7 & _ & H9 & H10 & _);
      [reflexivity | reflexivity | vm_compute; reflexivity |].
    exists c, w', cfs. split_and!; done.
Defined.

Lemma C8_deleteContract_witness :
  (deleteContract "c0" demo_signed).1 = true
  ∧ w_contracts (deleteContract "c0" demo_signed).2 = []
  ∧ deleteContract "c9" demo_signed = (false, demo_signed).
Proof.
  destruct (C8_deleteContract "c0" demo_signed) as (H1 & _ & _).
  destruct H1 as (w' & Hw' & _ & _ & Hc & _).
  { apply (bool_decide_unpack _). by vm_compute. }
  rewrite Hw'. cbn [fst snd]. split; [done |].
  split; [rewrite Hc; vm_compute; reflexivity |].
  destruct (C8_deleteContract "c9" demo_signed) as (_ & H & _).
  apply H. apply (bool_decide_unpack _). by vm_compute.
Defined.

Lemma searchContracts_nda :
  searchContracts (js "nda") demo_signed = [demo_signed_contract]
  ∧ searchContracts (js "TEMPLATE") demo_signed = [demo_signed_contract]
  ∧ searchContracts (js "lease") demo_signed = [].
Proof. split_and!; vm_compute; reflexivity. Qed.

(** C10 (fails on the code): on a blueprint whose stored field array is
    not in position order, [createContract] succeeds and the [sort] it
    applies to [blueprint.fields] reorders the stored array in place:
    Sign, Name, Agree before the call, Name, Sign, Agree after it. *)
Theorem C10_createContract_sorts_stored_fields :
  blueprint_fields (w_heap demo_world) 0
  = Some [field_sign; field_name; field_agree]
  ∧ read_array (w_heap demo_world) 0 = Some [1; 2; 3]
  ∧ createContract demo_input demo_world
    = Some (Some demo_contract, demo_world1)
  ∧ w_blueprints demo_world1 = w_blueprints demo_world
  ∧ read_array (w_heap demo_world1) 0 = Some [2; 1; 3]
  ∧ blueprint_fields (w_heap demo_world1) 0
    = Some [field_name; field_sign; field_agree]
  ∧ blueprint_fields (w_heap demo_world1) 0
    ≠ blueprint_fields (w_heap demo_world) 0.
Proof.
  split_and!; try (vm_compute; reflexivity).
  vm_compute. discriminate.
Qed.

(* ===================================================================== *)
(** ** Contract store: how the operations compose                         *)
(* ===================================================================== *)

Lemma find_snoc {A} (p : A → bool) (l : list A) (x : A) :
  List.find p (l ++ [x])
  = match List.find p l with
    | Some y => Some y
    | None => if p x then Some x else None
    end.
Proof.
  induction l as [| y l IH]; simpl; [done |].
  by destruct (p y).
Qed.

Lemma createContract_contracts input w c w' :
  createContract input w = Some (Some c, w') →
  w_contracts w' = w_contracts w ++ [c].
Proof.
  intros H.
  destruct (createContract_inv _ _ _ _ H) as (bp & es & fs & Hn & Hbp & Hes & Hfs).
  rewrite (createContract_success _ _ _ _ _ Hn Hbp Hes Hfs) in H.
  by injection H as <- <-.
Qed.

(** X1: after a successful [createContract], looking up the new
    contract's id returns it when no stored contract had that id; every
    lookup that succeeded before returns the same contract as before (the
    new contract is appended and never shadows an older one); and the
    lookup of any other id is as before. *)
Theorem X1_create_then_get input w c w' :
  createContract input w = Some (Some c, w') →
  (c_id c ∉ c_id <$> w_contracts w → getContract (c_id c) w' = Some c)
  ∧ (∀ id c0, getContract id w = Some c0 → getContract id w' = Some c0)
  ∧ (∀ id, id ≠ c_id c → getContract id w' = getContract id w).
Proof.
  intros H. pose proof (createContract_contracts _ _ _ _ H) as Hc.
  unfold getContract. rewrite Hc. split_and!.
  - intros Hfresh. apply getContract_None in Hfresh.
    unfold getContract in Hfresh.
    by rewrite find_snoc, Hfresh, bool_decide_true.
  - intros id c0 H0. by rewrite find_snoc, H0.
  - intros id Hne. rewrite find_snoc.
    destruct (List.find _ (w_contracts w)); [done |].
    by rewrite bool_decide_false.
Qed.

Lemma X1_create_then_get_witness :
  getContract "c0" demo_world1 = Some demo_contract
  ∧ getContract "c1" demo_world1 = getContract "c1" demo_world.
Proof.
  destruct (X1_create_then_get demo_input demo_world demo_contract
              demo_world1 demo_create) as (H1 & _ & H3).
  split.
  - apply H1. apply not_elem_of_nil.
  - apply H3. discriminate.
Defined.

Lemma find_filter_other {A} (p q : A → bool) (l : list A) :
  (∀ x, p x = true → q x = true) →
  List.find p (List.filter q l) = List.find p l.
Proof.
  intros Hpq. induction l as [| x l IH]; simpl; [done |].
  destruct (q x) eqn:Hq; simpl.
  - by rewrite IH.
  - destruct (p x) eqn:Hp; [| done].
    rewrite (Hpq x Hp) in Hq. discriminate.
Qed.

Lemma find_filter_none {A} (p : A → bool) (l : list A) :
  List.find p (List.filter (λ x, negb (p x)) l) = None.
Proof.
  induction l as [| x l IH]; simpl; [done |].
  destruct (p x) eqn:Hp; simpl; [done |]. by rewrite Hp.
Qed.

Lemma deleteContract_get_none id w :
  getContract id (deleteContract id w).2 = None.
Proof.
  unfold deleteContract, getContract. cbn [snd].
  destruct (existsb _ _) eqn:E; cbn [w_contracts set_contracts].
  - apply (find_filter_none (λ c, bool_decide (c_id c = id))).
  - destruct (List.find _ _) as [c |] eqn:F; [| done].
    apply find_some in F as [F1 F2].
    assert (existsb (λ c, bool_decide (c_id c = id)) (w_contracts w) = true)
      by (apply existsb_exists; eauto).
    congruence.
Qed.

(** X2: after [deleteContract(id)], whatever it returned, looking up [id]
    finds nothing, deleting [id] again returns false and changes nothing,
    and the lookup of every other id is as before. *)
Theorem X2_delete_then_get id w :
  getContract id (deleteContract id w).2 = None
  ∧ deleteContract id (deleteContract id w).2
    = (false, (deleteContract id w).2)
  ∧ (∀ id', id' ≠ id →
       getContract id' (deleteContract id w).2 = getContract id' w).
Proof.
  pose proof (deleteContract_get_none id w) as Hnone.
  split_and!; [done | |].
  - apply deleteContract_absent. by apply getContract_None.
  - intros id' Hne. unfold deleteContract, getContract. cbn [snd].
    destruct (existsb _ _); [| done]. cbn [w_contracts set_contracts].
    apply find_filter_other. intros c Hc.
    apply bool_decide_eq_true in Hc. apply negb_true_iff, bool_decide_eq_false.
    congruence.
Qed.

Lemma map_stamped_elem id upd clock cs : ∀ t c',
  c' ∈ (map_stamped id upd clock t cs).1 →
  ∃ c0, c0 ∈ cs
        ∧ ((c_id c0 ≠ id ∧ c' = c0)
           ∨ (c_id c0 = id ∧ ∃ ts, c' = upd c0 ts)).
Proof.
  induction cs as [| c cs IH]; intros t c' Hc'; simpl in Hc'.
  - by apply elem_of_nil in Hc'.
  - case_bool_decide as Hid.
    + specialize (IH (S t) c').
      destruct (map_stamped id upd clock (S t) cs) as [r t'].
      cbn [fst] in *. apply elem_of_cons in Hc' as [-> | Hc'].
      * exists c. split; [apply list_elem_of_here |]. right. eauto.
      * destruct (IH Hc') as (c0 & H0 & Hcase).
        exists c0. split; [by apply list_elem_of_further | done].
    + specialize (IH t c').
      destruct (map_stamped id upd clock t cs) as [r t'].
      cbn [fst] in *. apply elem_of_cons in Hc' as [-> | Hc'].
      * exists c. split; [apply list_elem_of_here |]. by left.
      * destruct (IH Hc') as (c0 & H0 & Hcase).
        exists c0. split; [by apply list_elem_of_further | done].
Qed.

Lemma NoDup_ids_eq (cs : list Contract) c c' :
  NoDup (c_id <$> cs) → c ∈ cs → c' ∈ cs → c_id c' = c_id c → c' = c.
Proof.
  induction cs as [| c0 cs IH]; intros Hnd Hc Hc' Hid.
  - by apply elem_of_nil in Hc.
  - rewrite fmap_cons in Hnd. apply NoDup_cons in Hnd as [Hnot Hnd].
    apply elem_of_cons in Hc as [-> | Hc];
      apply elem_of_cons in Hc' as [-> | Hc']; try done.
    + exfalso. apply Hnot. rewrite <- Hid.
      apply list_elem_of_fmap. by exists c'.
    + exfalso. apply Hnot. rewrite Hid.
      apply list_elem_of_fmap. by exists c.
    + by apply IH.
Qed.

(** What one step can do to a stored contract: leave it, give it another
    field array while it is CREATED or SENT, or give it a status that
    [canTransition] accepts; the last two also set [updatedAt]. *)
Lemma step_same_id w w' c c' :
  NoDup (c_id <$> w_contracts w) → step w w' →
  c ∈ w_contracts w → c' ∈ w_contracts w' → c_id c' = c_id c →
  c' = c
  ∨ (∃ a ts, c' = with_fields a c ts
             ∧ (c_status c = CREATED ∨ c_status c = SENT))
  ∨ (∃ s ts, c' = with_status s c ts
             ∧ canTransition (c_status c) s = true).
Proof.
  intros Hnd Hs Hc Hc' Hid.
  destruct Hs as [input w c1 w' H Hfresh | id a w | id s w | id w | m w w' H].
  - left. rewrite (createContract_contracts _ _ _ _ H) in Hc'.
    apply elem_of_app in Hc' as [Hc' | Hc'].
    + by apply (NoDup_ids_eq (w_contracts w)).
    + apply list_elem_of_singleton in Hc' as ->. exfalso. apply Hfresh.
      rewrite Hid. apply list_elem_of_fmap. by exists c.
  - unfold updateContractFields in Hc'.
    destruct (getContract id w) as [c1 |] eqn:Hget;
      [| left; by apply (NoDup_ids_eq (w_contracts w))].
    destruct (negb _ && negb _) eqn:Hed;
      [left; by apply (NoDup_ids_eq (w_contracts w)) |].
    cbn [snd] in Hc'. rewrite apply_stamped_contracts in Hc'.
    apply map_stamped_elem in Hc' as (c0 & H0 & [[Hne ->] | [Heq [ts ->]]]).
    + left. by apply (NoDup_ids_eq (w_contracts w)).
    + cbn [c_id with_fields] in Hid.
      assert (c0 = c) as -> by (by apply (NoDup_ids_eq (w_contracts w))).
      rewrite <- Heq, (getContract_NoDup w c Hnd Hc) in Hget.
      injection Hget as <-. right. left. exists a, ts. split; [done |].
      destruct (c_status c); simpl in Hed; try discriminate; auto.
  - unfold transitionStatus in Hc'.
    destruct (getContract id w) as [c1 |] eqn:Hget;
      [| left; by apply (NoDup_ids_eq (w_contracts w))].
    destruct (canTransition (c_status c1) s) eqn:Hcan; cbn [negb snd] in Hc';
      [| left; by apply (NoDup_ids_eq (w_contracts w))].
    rewrite apply_stamped_contracts in Hc'.
    apply map_stamped_elem in Hc' as (c0 & H0 & [[Hne ->] | [Heq [ts ->]]]).
    + left. by apply (NoDup_ids_eq (w_contracts w)).
    + cbn [c_id with_status] in Hid.
      assert (c0 = c) as -> by (by apply (NoDup_ids_eq (w_contracts w))).
      rewrite <- Heq, (getContract_NoDup w c Hnd Hc) in Hget.
      injection Hget as <-. right. right. by exists s, ts.
  - left. apply (NoDup_ids_eq (w_contracts w)); try done.
    unfold deleteContract in Hc'. cbn [snd] in Hc'.
    destruct (existsb _ _); [| done]. cbn [w_contracts set_contracts] in Hc'.
    apply list_elem_of_In, filter_In in Hc' as [Hc' _].
    by apply list_elem_of_In.
  - left. rewrite (mutate_contracts _ _ _ H) in Hc'.
    by apply (NoDup_ids_eq (w_contracts w)).
Qed.

(** X3: in a store whose contracts have distinct ids, one step of the
    program (any store call, any blueprint edit) leaves the status of a
    contract that stays in the store as it was or moves it to a status
    for which [canTransition] answered true. *)
Theorem X3_status_moves_along_transitions w w' c c' :
  NoDup (c_id <$> w_contracts w) → step w w' →
  c ∈ w_contracts w → c' ∈ w_contracts w' → c_id c' = c_id c →
  c_status c' = c_status c
  ∨ canTransition (c_status c) (c_status c') = true.
Proof.
  intros Hnd Hs Hc Hc' Hid.
  destruct (step_same_id _ _ _ _ Hnd Hs Hc Hc' Hid)
    as [-> | [(a & ts & -> & _) | (s & ts & -> & Hcan)]]; auto.
Qed.

(** X4: in a store whose contracts have distinct ids, one step of the
    program never changes the name, the blueprint id, the blueprint name
    or [createdAt] of a contract that stays in the store. *)
Theorem X4_identity_is_kept w w' c c' :
  NoDup (c_id <$> w_contracts w) → step w w' →
  c ∈ w_contracts w → c' ∈ w_contracts w' → c_id c' = c_id c →
  same_identity c c'.
Proof.
  intros Hnd Hs Hc Hc' Hid.
  destruct (step_same_id _ _ _ _ Hnd Hs Hc Hc' Hid)
    as [-> | [(a & ts & -> & _) | (s & ts & -> & _)]]; by repeat split.
Qed.

Lemma demo_step_approved : step demo_world1 demo_approved.
Proof. apply (step_transition "c0" APPROVED). Qed.

Lemma demo_world1_NoDup : NoDup (c_id <$> w_contracts demo_world1).
Proof. apply (bool_decide_unpack _). by vm_compute. Qed.

Lemma X3_status_moves_along_transitions_witness :
  c_status (with_status APPROVED demo_contract "t1") = c_status demo_contract
  ∨ canTransition (c_status demo_contract)
      (c_status (with_status APPROVED demo_contract "t1")) = true.
Proof.
  apply (X3_status_moves_along_transitions demo_world1 demo_approved).
  - exact demo_world1_NoDup.
  - exact demo_step_approved.
  - vm_compute. apply list_elem_of_here.
  - vm_compute. apply list_elem_of_here.
  - reflexivity.
Defined.

Lemma X4_identity_is_kept_witness :
  same_identity demo_contract (with_status APPROVED demo_contract "t1").
Proof.
  apply (X4_identity_is_kept demo_world1 demo_approved).
  - exact demo_world1_NoDup.
  - exact demo_step_approved.
  - vm_compute. apply list_elem_of_here.
  - vm_compute. apply list_elem_of_here.
  - reflexivity.
Defined.

(** X5: the empty query matches every contract, so [searchContracts("")]
    returns the whole store in order; and a query gives the same result
    as its lower-case form. *)
Theorem X5_search_empty_and_case w :
  searchContracts [] w = w_contracts w
  ∧ ∀ query, searchContracts (toLowerCase query) w = searchContracts query w.
Proof.
  split.
  - unfold searchContracts. change (toLowerCase []) with (@nil N).
    induction (w_contracts w) as [| c cs IH]; [done |].
    cbn [List.filter]. by rewrite includes_str_empty, IH.
  - intros query. unfold searchContracts. by rewrite toLowerCase_idem.
Qed.

(* ===================================================================== *)
(** ** Contract page: what is shown                                       *)
(* ===================================================================== *)

(** X6: for a contract that is not REVOKED the timeline marks the steps
    before the contract's status completed, the status itself current and
    the steps after it pending; for a REVOKED contract all five steps are
    marked revoked. *)
Theorem X6_timeline_shape status :
  (status = REVOKED → timeline status = replicate 5 st_revoked)
  ∧ (status ≠ REVOKED →
       ∃ i, LIFECYCLE_STEPS !! i = Some status
            ∧ timeline status
              = replicate i st_completed ++ [st_current]
                ++ replicate (4 - i) st_pending).
Proof.
  split.
  - by intros ->.
  - intros Hne. destruct status; try done;
      [by exists 0 | by exists 1 | by exists 2 | by exists 3 | by exists 4].
Qed.

Lemma X6_timeline_shape_witness :
  ∃ i, LIFECYCLE_STEPS !! i = Some SENT
       ∧ timeline SENT
         = replicate i st_completed ++ [st_current]
           ++ replicate (4 - i) st_pending.
Proof.
  destruct (X6_timeline_shape SENT) as [_ H]. apply H. discriminate.
Defined.

Lemma isDisabled_false status field :
  isDisabled status field = false → status = CREATED ∨ status = SENT.
Proof.
  unfold isDisabled. repeat case_bool_decide; auto. discriminate.
Qed.

(** X7: the page and the store agree on when a contract can be edited.
    If [renderField] enables the control of any field of a stored
    contract, [updateContractFields] on that contract is accepted; and
    when the signature pad is shown as signed, or the status is neither
    CREATED nor SENT, every control is disabled. *)
Theorem X7_enabled_control_is_accepted c w :
  getContract (c_id c) w = Some c →
  (∀ field a, isDisabled (c_status c) field = false →
              (updateContractFields (c_id c) a w).1 = true)
  ∧ (getSignatureStatus (c_status c) = sig_signed →
       ∀ field, isDisabled (c_status c) field = true)
  ∧ (c_status c ≠ CREATED → c_status c ≠ SENT →
       ∀ field, isDisabled (c_status c) field = true).
Proof.
  intros Hget. split_and!.
  - intros field a Hd. apply isDisabled_false in Hd.
    unfold updateContractFields. rewrite Hget.
    by destruct Hd as [-> | ->].
  - intros Hs field. by destruct (c_status c).
  - intros H1 H2 field. unfold isDisabled. by rewrite !bool_decide_false.
Qed.

Lemma X7_enabled_control_is_accepted_witness :
  (updateContractFields "c0" 0 demo_world1).1 = true.
Proof.
  destruct (X7_enabled_control_is_accepted demo_contract demo_world1)
    as (H & _ & _); [vm_compute; reflexivity |].
  apply (H (toContractField field_name) 0). reflexivity.
Defined.

(** X8: every field has a stage at which its control is enabled: in
    CREATED exactly the fields with no [editableBy], 'manager' or 'both',
    in SENT exactly those with 'client' or 'both'; so a field is enabled
    at both stages exactly when its [editableBy] is 'both'. *)
Theorem X8_every_field_has_an_editor field :
  (isDisabled CREATED field = false ∨ isDisabled SENT field = false)
  ∧ (isDisabled CREATED field = false
     ↔ cf_editableBy field = None ∨ cf_editableBy field = Some manager
       ∨ cf_editableBy field = Some both)
  ∧ (isDisabled SENT field = false
     ↔ cf_editableBy field = Some client ∨ cf_editableBy field = Some both)
  ∧ (isDisabled CREATED field = false ∧ isDisabled SENT field = false
     ↔ cf_editableBy field = Some both).
Proof.
  unfold isDisabled, isManagerField, isClientField. cbn [bool_decide].
  destruct (cf_editableBy field) as [[] |]; cbn; naive_solver.
Qed.

(* ===================================================================== *)
(** ** Contract page: handlers that only call the store                   *)
(* ===================================================================== *)

Lemma transitionStatus_refused id s w :
  (transitionStatus id s w).1 = false → (transitionStatus id s w).2 = w.
Proof.
  unfold transitionStatus. destruct (getContract id w); [| done].
  by destruct (negb _).
Qed.

(** X9: [handleTransition] asks the store for the transition, closes the
    confirmation modal and shows the message of the requested status; the
    fall-back message built from [STATUS_LABELS] is never used, and the
    message is shown also when the store refused and the state is as it
    was. *)
Theorem X9_handleTransition STATUS_LABELS c newStatus vs w :
  ∃ vs',
    handleTransition STATUS_LABELS c newStatus vs w
    = ((transitionStatus (c_id c) newStatus w).2, vs',
       [Toast (toastMessages newStatus)])
    ∧ showTransitionModal vs' = None
    ∧ showDeleteModal vs' = showDeleteModal vs
    ∧ showSendModal vs' = showSendModal vs
    ∧ showSignModal vs' = showSignModal vs
    ∧ recipientEmail vs' = recipientEmail vs
    ∧ modalSignature vs' = modalSignature vs
    ∧ ((transitionStatus (c_id c) newStatus w).1 = false →
         (handleTransition STATUS_LABELS c newStatus vs w).1.1 = w).
Proof.
  exists (mkViewState (showDeleteModal vs) None (showSendModal vs)
            (showSignModal vs) (recipientEmail vs) (modalSignature vs)).
  unfold handleTransition. split_and!; try reflexivity.
  - by destruct newStatus.
  - cbn [fst]. apply transitionStatus_refused.
Qed.

(** X10: [handleSendContract] does nothing at all when the recipient
    address is empty or white space only: no store call, no message, the
    modal stays open.  Otherwise it asks the store for the transition to
    SENT, closes the modal, clears the address and shows the message
    with the address as typed, also when the store refused and the state
    is as it was. *)
Theorem X10_handleSendContract c vs w :
  (whitespace_only (recipientEmail vs) = true →
     handleSendContract c vs w = (w, vs, []))
  ∧ (whitespace_only (recipientEmail vs) = false →
       ∃ vs',
         handleSendContract c vs w
         = ((transitionStatus (c_id c) SENT w).2, vs',
            [Toast (js "Email sent to " ++ recipientEmail vs
                    ++ js " (simulated).")])
         ∧ showSendModal vs' = false
         ∧ recipientEmail vs' = []
         ∧ ((transitionStatus (c_id c) SENT w).1 = false →
              (handleSendContract c vs w).1.1 = w)).
Proof.
  unfold handleSendContract. split.
  - intros H. by rewrite (proj2 (trim_empty _) H).
  - intros H.
    assert (Ht : truthy_js (trim (recipientEmail vs)) = true).
    { apply not_false_iff_true. intros E. apply trim_empty in E. congruence. }
    rewrite Ht. cbn [negb]. eexists. split_and!; try reflexivity.
    cbn [fst]. apply transitionStatus_refused.
Qed.

Lemma X10_handleSendContract_witness :
  handleSendContract demo_contract
    (mkViewState false None true false [0x20; 0xA0]%N None) demo_approved
  = (demo_approved, mkViewState false None true false [0x20; 0xA0]%N None, [])
  ∧ (handleSendContract demo_contract demo_view demo_world1).1.1 = demo_world1.
Proof.
  split.
  - destruct (X10_handleSendContract demo_contract
                (mkViewState false None true false [0x20; 0xA0]%N None) demo_approved)
      as [H _].
    apply H. vm_compute. reflexivity.
  - destruct (X10_handleSendContract demo_contract demo_view demo_world1)
      as [_ H].
    destruct (H eq_refl) as (vs' & _ & _ & _ & Hw). apply Hw. reflexivity.
Defined.

(** X11: after [handleDelete] the page of the deleted contract is the
    "Contract Not Found" page, whatever the contract's status, and the
    handler asks to navigate to "/"; the page of an empty route parameter
    is always "Contract Not Found". *)
Theorem X11_handleDelete_then_page c w :
  page_contract (Some (c_id c)) (handleDelete c w).1 = None
  ∧ (handleDelete c w).2 = [Navigate "/"]
  ∧ page_contract (Some "") w = None
  ∧ page_contract None w = None.
Proof.
  split_and!; try reflexivity.
  unfold page_contract, handleDelete. cbn [fst].
  destruct (truthy_str (c_id c)); [| done]. apply deleteContract_get_none.
Qed.

(* ===================================================================== *)
(** ** Contract page: editing field values                                *)
(* ===================================================================== *)

Lemma remap_fields_read fieldId value efs : ∀ n n0 h,
  n0 ≤ n →
  Forall (λ p, p.1 < n0 ∧ read_cfield h p.1 = Some p.2) efs →
  mapM (read_cfield
          (alloc_cells (remap_fields fieldId value efs n).2 n h))
       (remap_fields fieldId value efs n).1
  = Some (changed fieldId value <$> efs.*2).
Proof.
  induction efs as [| [l f] efs IH]; intros n n0 h Hn Hall; [done |].
  apply Forall_cons in Hall as [[Hl Hf] Hall]. cbn [fst snd] in Hl, Hf.
  cbn [remap_fields]. rewrite !fmap_cons. cbn [snd].
  unfold changed at 1. case_bool_decide as Hid.
  - specialize (IH (S n) n0 (<[n := CContractField (with_value value f)]> h)).
    destruct (remap_fields fieldId value efs (S n)) as [es objs].
    cbn [fst snd alloc_cells] in *.
    apply mapM_Some. constructor.
    + unfold read_cfield. rewrite alloc_cells_lookup_lt by lia.
      by rewrite lookup_insert_eq.
    + apply mapM_Some, IH; [lia |].
      eapply Forall_impl; [exact Hall |]. intros [l' f'] [Hl' Hf'].
      cbn [fst snd] in *. split; [done |].
      unfold read_cfield. rewrite lookup_insert_ne by lia. exact Hf'.
  - specialize (IH n n0 h Hn Hall).
    destruct (remap_fields fieldId value efs n) as [es objs].
    cbn [fst snd] in *.
    apply mapM_Some. constructor.
    + unfold read_cfield. rewrite alloc_cells_lookup_lt by lia. exact Hf.
    + by apply mapM_Some.
Qed.

(** What [fields.map(...)] of [handleFieldChange] leaves: a new array at
    the old allocation pointer denoting the changed fields, every existing
    object as it was, and both stores untouched. *)
Lemma map_with_value_spec a fieldId value w es fs :
  read_array (w_heap w) a = Some es →
  mapM (read_cfield (w_heap w)) es = Some fs →
  (∀ l, l ∈ es → l < w_next w) →
  ∃ w1,
    map_with_value a fieldId value w = Some (w_next w, w1)
    ∧ contract_fields (w_heap w1) (w_next w)
      = Some (changed fieldId value <$> fs)
    ∧ (∀ l, l < w_next w → w_heap w1 !! l = w_heap w !! l)
    ∧ w_next w < w_next w1
    ∧ w_contracts w1 = w_contracts w
    ∧ w_blueprints w1 = w_blueprints w
    ∧ w_clock w1 = w_clock w
    ∧ w_ticks w1 = w_ticks w.
Proof.
  intros Hes Hfs Hlt. unfold map_with_value.
  rewrite Hes. cbn [mbind option_bind]. rewrite Hfs. cbn [mbind option_bind].
  pose proof (length_mapM _ _ _ Hfs) as Hlen.
  destruct (remap_fields fieldId value (zip es fs) (S (w_next w)))
    as [es' objs] eqn:Hre.
  eexists. split; [reflexivity |].
  cbn [w_heap w_next w_contracts w_blueprints w_clock w_ticks set_heap].
  split_and!; try done; [| | lia].
  - unfold contract_fields, read_array.
    rewrite alloc_cells_lookup_lt, lookup_insert_eq by lia.
    cbn [mbind option_bind].
    pose proof (remap_fields_read fieldId value (zip es fs)
                  (S (w_next w)) (w_next w)
                  (<[w_next w := CArray es']> (w_heap w))) as Hr.
    rewrite Hre in Hr. cbn [fst snd] in Hr.
    rewrite snd_zip in Hr by lia. apply Hr; [lia |].
    apply Forall_forall. intros [l f] Hp. cbn [fst snd].
    pose proof (elem_of_zip_l _ _ _ _ Hp) as Hl. specialize (Hlt l Hl).
    split; [done |].
    apply mapM_Some, Forall2_zip_Forall in Hfs.
    rewrite Forall_forall in Hfs. specialize (Hfs _ Hp). cbn [fst snd] in Hfs.
    unfold read_cfield. rewrite lookup_insert_ne by lia. exact Hfs.
  - intros l Hl. rewrite alloc_cells_lookup_lt by lia.
    apply lookup_insert_ne. lia.
Qed.

Lemma contract_denotes_inv c fs w :
  contract_denotes c fs w →
  ∃ es, read_array (w_heap w) (c_fields c) = Some es
        ∧ mapM (read_cfield (w_heap w)) es = Some fs
        ∧ c_fields c < w_next w
        ∧ ∀ l, l ∈ es → l < w_next w.
Proof.
  intros [Hf Hlt]. unfold contract_fields in Hf.
  destruct (read_array (w_heap w) (c_fields c)) as [es |] eqn:Hes; [| done].
  cbn [mbind option_bind] in Hf. exists es. split_and!; try done.
  - apply Hlt. unfold contract_locs. set_solver.
  - intros l Hl. apply Hlt. unfold contract_locs.
    rewrite (array_elems_read _ _ _ Hes). set_solver.
Qed.

Lemma contract_fields_frame h h' a fs n :
  contract_fields h a = Some fs →
  (∀ l, l ∈ a :: array_elems h a → l < n) →
  (∀ l, l < n → h' !! l = h !! l) →
  contract_fields h' a = Some fs.
Proof.
  intros Hf Hlt Hsame. unfold contract_fields in *.
  assert (Hr : read_array h' a = read_array h a).
  { unfold read_array. rewrite Hsame; [done |]. apply Hlt. set_solver. }
  rewrite Hr. destruct (read_array h a) as [es |] eqn:Hes; [| done].
  cbn [mbind option_bind] in *. rewrite <- Hf.
  apply mapM_read_cfield_same. intros l Hl. apply Hsame, Hlt.
  rewrite (array_elems_read _ _ _ Hes). set_solver.
Qed.

Lemma handleFieldChange_editable c fs fieldId value w :
  getContract (c_id c) w = Some c →
  contract_denotes c fs w →
  c_status c = CREATED ∨ c_status c = SENT →
  ∃ w' c',
    handleFieldChange c fieldId value w = Some w'
    ∧ getContract (c_id c) w' = Some c'
    ∧ c_status c' = c_status c
    ∧ same_identity c c'
    ∧ c_updatedAt c' = (getCurrentTimestamp w).1
    ∧ contract_fields (w_heap w') (c_fields c')
      = Some (changed fieldId value <$> fs)
    ∧ ((∀ f, f ∈ fs → cf_id f ≠ fieldId) →
         contract_fields (w_heap w') (c_fields c') = Some fs)
    ∧ contract_fields (w_heap w') (c_fields c) = Some fs
    ∧ (∀ l, l < w_next w → w_heap w' !! l = w_heap w !! l)
    ∧ w_blueprints w' = w_blueprints w.
Proof.
  intros Hget Hden Hst.
  destruct (contract_denotes_inv _ _ _ Hden) as (es & Hes & Hfs & Ha & Hlt).
  destruct (map_with_value_spec (c_fields c) fieldId value w es fs Hes Hfs Hlt)
    as (w1 & Hmap & Hnew & Hframe & Hnext & Hcs & Hbs & Hclk & Htk).
  assert (Hget1 : getContract (c_id c) w1 = Some c).
  { unfold getContract in *. by rewrite Hcs. }
  pose proof (apply_stamped_updated_to (c_id c) (with_fields (w_next w)) w1 c
                (with_fields_id (w_next w)) Hget1)
    as (Hg & _ & _ & Hheap & Hbp).
  assert (Hupd : updateContractFields (c_id c) (w_next w) w1
                 = (true, apply_stamped (c_id c) (with_fields (w_next w)) w1)).
  { unfold updateContractFields. rewrite Hget1.
    by destruct Hst as [-> | ->]. }
  eexists _, _. unfold handleFieldChange. rewrite Hmap.
  cbn [mbind option_bind]. rewrite Hupd. cbn [snd].
  split; [reflexivity |]. split; [exact Hg |]. rewrite Hheap, Hbp.
  cbn [c_status c_fields c_updatedAt with_fields getCurrentTimestamp fst].
  split_and!; try done.
  - by rewrite Hclk, Htk.
  - intros Hno. rewrite Hnew. f_equal.
    rewrite <- (list_fmap_id fs) at 2. apply list_fmap_ext.
    intros i f Hi. unfold changed. rewrite bool_decide_false; [done |].
    apply Hno. by eapply list_elem_of_lookup_2.
  - apply (contract_fields_frame (w_heap w) _ _ _ (w_next w));
      [apply Hden | | done].
    intros l Hl. by apply Hden.
Qed.

(** X12: on a stored contract in status CREATED or SENT,
    [handleFieldChange(fieldId, value)] makes the stored contract denote
    its former fields with the value of every field of that id replaced,
    in the same order, whatever the field's [editableBy]; a [fieldId] no
    field has leaves the field values as they were.  Status and identity
    are kept, [updatedAt] is the clock reading, and no object that existed
    before is modified: the array the contract had still denotes the old
    fields, and the blueprint store is as it was. *)
Theorem X12_handleFieldChange_editable c fs fieldId value w :
  getContract (c_id c) w = Some c →
  contract_denotes c fs w →
  c_status c = CREATED ∨ c_status c = SENT →
  ∃ w' c',
    handleFieldChange c fieldId value w = Some w'
    ∧ getContract (c_id c) w' = Some c'
    ∧ c_status c' = c_status c
    ∧ same_identity c c'
    ∧ c_updatedAt c' = (getCurrentTimestamp w).1
    ∧ contract_fields (w_heap w') (c_fields c')
      = Some (changed fieldId value <$> fs)
    ∧ ((∀ f, f ∈ fs → cf_id f ≠ fieldId) →
         contract_fields (w_heap w') (c_fields c') = Some fs)
    ∧ contract_fields (w_heap w') (c_fields c) = Some fs
    ∧ (∀ l, l < w_next w → w_heap w' !! l = w_heap w !! l)
    ∧ w_blueprints w' = w_blueprints w.
Proof. apply handleFieldChange_editable. Qed.

(** X13: when the store has no contract of that id any more, or has it in
    a status other than CREATED and SENT, [handleFieldChange] leaves the
    contract store as it was and modifies no object that existed before,
    so the contract still denotes the same fields. *)
Theorem X13_handleFieldChange_locked c fs fieldId value w :
  contract_denotes c fs w →
  (∀ c0, getContract (c_id c) w = Some c0 →
         c_status c0 ≠ CREATED ∧ c_status c0 ≠ SENT) →
  ∃ w',
    handleFieldChange c fieldId value w = Some w'
    ∧ w_contracts w' = w_contracts w
    ∧ w_blueprints w' = w_blueprints w
    ∧ w_ticks w' = w_ticks w
    ∧ contract_fields (w_heap w') (c_fields c) = Some fs
    ∧ (∀ l, l < w_next w → w_heap w' !! l = w_heap w !! l).
Proof.
  intros Hden Hlock.
  destruct (contract_denotes_inv _ _ _ Hden) as (es & Hes & Hfs & Ha & Hlt).
  destruct (map_with_value_spec (c_fields c) fieldId value w es fs Hes Hfs Hlt)
    as (w1 & Hmap & Hnew & Hframe & Hnext & Hcs & Hbs & Hclk & Htk).
  assert (Hupd : updateContractFields (c_id c) (w_next w) w1 = (false, w1)).
  { unfold updateContractFields.
    assert (Hg : getContract (c_id c) w1 = getContract (c_id c) w)
      by (unfold getContract; by rewrite Hcs).
    rewrite Hg. destruct (getContract (c_id c) w) as [c0 |]; [| done].
    destruct (Hlock c0 eq_refl) as [H1 H2]. by rewrite !bool_decide_false. }
  exists w1. unfold handleFieldChange. rewrite Hmap.
  cbn [mbind option_bind]. rewrite Hupd. cbn [snd].
  split_and!; try done.
  apply (contract_fields_frame (w_heap w) _ _ _ (w_next w));
    [apply Hden | | done].
  intros l Hl. by apply Hden.
Qed.

(* ===================================================================== *)
(** ** Contract page: signing                                             *)
(* ===================================================================== *)

Lemma find_field_spec h p es : ∀ fs,
  mapM (read_cfield h) es = Some fs →
  find_field h p es = Some (List.find p fs).
Proof.
  induction es as [| l es IH]; intros fs Hfs.
  - apply mapM_Some in Hfs. inversion Hfs. done.
  - apply mapM_Some in Hfs. inversion Hfs as [| ? f ? fs' Hl Hrest]; subst.
    cbn [find_field List.find]. rewrite Hl. cbn [mbind option_bind].
    destruct (p f); [done |]. apply IH. by apply mapM_Some.
Qed.

Lemma handleSignContract_unsigned c fs vs w :
  contract_denotes c fs w →
  modalSignature vs = None ∨ modalSignature vs = Some ""
  ∨ List.find (λ f, bool_decide (cf_type f = SIGNATURE)) fs = None →
  handleSignContract c vs w
  = Some ((transitionStatus (c_id c) SIGNED w).2,
          mkViewState (showDeleteModal vs) (showTransitionModal vs)
                      (showSendModal vs) false (recipientEmail vs) None,
          [Toast (js "Client signature recorded.")]).
Proof.
  intros Hden Hno.
  destruct (contract_denotes_inv _ _ _ Hden) as (es & Hes & Hfs & _ & _).
  unfold handleSignContract. rewrite Hes. cbn [mbind option_bind].
  rewrite (find_field_spec _ _ _ _ Hfs). cbn [mbind option_bind].
  destruct (List.find _ fs) as [sf |];
    destruct (modalSignature vs) as [[| a sig] |];
    try done.
  destruct Hno as [? | [? | ?]]; discriminate.
Qed.

(** X15: without a usable signature (none drawn, an empty one, or a
    contract with no SIGNATURE field) [handleSignContract] writes no field
    and still asks the store for the transition to SIGNED and shows
    "Client signature recorded."; on a stored contract from whose status
    [canTransition] accepts SIGNED, the contract ends SIGNED with the
    field array it had, denoting the same fields. *)
Theorem X15_sign_without_signature c fs vs w :
  contract_denotes c fs w →
  modalSignature vs = None ∨ modalSignature vs = Some ""
  ∨ List.find (λ f, bool_decide (cf_type f = SIGNATURE)) fs = None →
  ∃ w' vs',
    handleSignContract c vs w
    = Some (w', vs', [Toast (js "Client signature recorded.")])
    ∧ w' = (transitionStatus (c_id c) SIGNED w).2
    ∧ showSignModal vs' = false ∧ modalSignature vs' = None
    ∧ w_heap w' = w_heap w
    ∧ (getContract (c_id c) w = Some c →
       canTransition (c_status c) SIGNED = true →
       ∃ c', getContract (c_id c) w' = Some c'
             ∧ c_status c' = SIGNED
             ∧ c_fields c' = c_fields c
             ∧ contract_fields (w_heap w') (c_fields c') = Some fs).
Proof.
  intros Hden Hno. eexists _, _.
  split; [by apply (handleSignContract_unsigned c fs) |].
  split; [done |]. split; [done |]. split; [done |].
  split; [by destruct (transitionStatus_frame (c_id c) SIGNED w) |].
  intros Hget Hcan. unfold transitionStatus. rewrite Hget, Hcan.
  cbn [negb snd].
  pose proof (apply_stamped_updated_to (c_id c) (with_status SIGNED) w c
                (with_status_id SIGNED) Hget) as (Hg & _ & _ & Hh & _).
  eexists. split; [exact Hg |]. rewrite Hh. split_and!; try done.
  apply Hden.
Qed.

Lemma handleSignContract_signature c fs sf sig vs w :
  getContract (c_id c) w = Some c →
  contract_denotes c fs w →
  c_status c = CREATED ∨ c_status c = SENT →
  List.find (λ f, bool_decide (cf_type f = SIGNATURE)) fs = Some sf →
  modalSignature vs = Some sig →
  sig ≠ "" →
  ∃ w' vs' c',
    handleSignContract c vs w
    = Some (w', vs', [Toast (js "Client signature recorded.")])
    ∧ showSignModal vs' = false ∧ modalSignature vs' = None
    ∧ getContract (c_id c) w' = Some c'
    ∧ c_status c'
      = (if canTransition (c_status c) SIGNED then SIGNED else c_status c)
    ∧ same_identity c c'
    ∧ contract_fields (w_heap w') (c_fields c')
      = Some (changed (cf_id sf) (VString sig) <$> fs).
Proof.
  intros Hget Hden Hst Hfind Hsig Hne.
  destruct (handleFieldChange_editable c fs (cf_id sf) (VString sig) w
              Hget Hden Hst)
    as (w2 & c2 & Hh & Hg2 & Hs2 & Hid2 & _ & Hf2 & _).
  destruct (contract_denotes_inv _ _ _ Hden) as (es & Hes & Hfs & _ & _).
  unfold handleFieldChange in Hh. unfold handleSignContract.
  rewrite Hes. cbn [mbind option_bind].
  rewrite (find_field_spec _ _ _ _ Hfs), Hfind, Hsig.
  cbn [mbind option_bind].
  assert (Ht : truthy_str sig = true) by (by destruct sig).
  rewrite Ht.
  destruct (map_with_value (c_fields c) (cf_id sf) (VString sig) w)
    as [[a w1] |]; [| done].
  cbn [mbind option_bind] in Hh |- *. injection Hh as Hw2. rewrite Hw2.
  unfold transitionStatus. rewrite Hg2, Hs2.
  destruct (canTransition (c_status c) SIGNED) eqn:Hcan; cbn [negb snd].
  - pose proof (apply_stamped_updated_to (c_id c) (with_status SIGNED) w2 c2
                  (with_status_id SIGNED) Hg2) as (Hg & _ & _ & Hheap & _).
    eexists _, _, _. split; [reflexivity |].
    split; [done |]. split; [done |]. split; [exact Hg |].
    rewrite Hheap. cbn [c_status c_fields with_status].
    split_and!; try done.
    all: destruct Hid2 as (? & ? & ? & ? & ?); by repeat split.
  - eexists _, _, _. split; [reflexivity |]. by split_and!.
Qed.

(** X14: with a drawn signature, on a stored contract in status SENT or
    CREATED that has a SIGNATURE field, [handleSignContract] stores the
    signature as the value of the first SIGNATURE field (of every field
    with its id), leaving the other fields as they were, and then asks
    for the transition to SIGNED.  The contract ends SIGNED when
    [canTransition] accepts it from the contract's status; when it does
    not, the signature has been stored, the status is unchanged, and
    "Client signature recorded." is shown all the same. *)
Theorem X14_sign_with_signature c fs sf sig vs w :
  getContract (c_id c) w = Some c →
  contract_denotes c fs w →
  c_status c = CREATED ∨ c_status c = SENT →
  List.find (λ f, bool_decide (cf_type f = SIGNATURE)) fs = Some sf →
  modalSignature vs = Some sig →
  sig ≠ "" →
  ∃ w' vs' c',
    handleSignContract c vs w
    = Some (w', vs', [Toast (js "Client signature recorded.")])
    ∧ showSignModal vs' = false ∧ modalSignature vs' = None
    ∧ getContract (c_id c) w' = Some c'
    ∧ c_status c'
      = (if canTransition (c_status c) SIGNED then SIGNED else c_status c)
    ∧ same_identity c c'
    ∧ contract_fields (w_heap w') (c_fields c')
      = Some (changed (cf_id sf) (VString sig) <$> fs).
Proof. apply handleSignContract_signature. Qed.

(* ===================================================================== *)
(** ** Contract page: the order of the fields                             *)
(* ===================================================================== *)

Lemma read_cfield_insert_array h a es l f :
  read_array h a = Some es →
  read_cfield h l = Some f →
  ∀ es', read_cfield (<[a := CArray es']> h) l = Some f.
Proof.
  unfold read_array, read_cfield. intros Ha Hl es'.
  destruct (decide (a = l)) as [-> | Hne].
  - destruct (h !! l) as [[] |]; simplify_eq.
  - by rewrite lookup_insert_ne.
Qed.

Lemma Sorted_zip_snd {A B} (key : B → Z) (ks : list B) : ∀ es : list A,
  Sorted (key_le key) ks →
  Sorted (key_le (λ p : A * B, key p.2)) (zip es ks).
Proof.
  induction ks as [| k ks IH]; intros es Hs.
  - destruct es; constructor.
  - destruct es as [| e es]; [constructor |].
    apply Sorted_inv in Hs as [Hs Hhd]. cbn [zip zip_with].
    constructor; [by apply IH |].
    destruct Hhd as [| k' ks' Hk]; [destruct es; constructor |].
    destruct es as [| e' es]; constructor. exact Hk.
Qed.

Lemma set_heap_same w : set_heap (w_heap w) (w_next w) w = w.
Proof. by destruct w. Qed.

Lemma Sorted_changed fieldId value fs :
  Sorted (key_le cf_position) fs →
  Sorted (key_le cf_position) (changed fieldId value <$> fs).
Proof.
  assert (Hpos : ∀ f, cf_position (changed fieldId value f) = cf_position f).
  { intros f. unfold changed. by case_bool_decide. }
  induction 1 as [| f fs Hs IH Hhd]; [constructor |].
  rewrite fmap_cons. constructor; [done |].
  destruct Hhd as [| f' fs' Hf]; rewrite ?fmap_cons; constructor.
  unfold key_le in *. by rewrite !Hpos.
Qed.

(** What the sort of the render does to the contract's array. *)
Lemma sort_contract_fields_spec a fs w :
  contract_fields (w_heap w) a = Some fs →
  ∃ w',
    sort_contract_fields a w = Some w'
    ∧ contract_fields (w_heap w') a = Some (sort_by cf_position fs)
    ∧ (∀ l, l ≠ a → w_heap w' !! l = w_heap w !! l)
    ∧ w_next w' = w_next w
    ∧ w_contracts w' = w_contracts w
    ∧ w_blueprints w' = w_blueprints w
    ∧ (Sorted (key_le cf_position) fs → w' = w).
Proof.
  intros Hf. unfold contract_fields in Hf.
  destruct (read_array (w_heap w) a) as [es |] eqn:Hes; [| done].
  cbn [mbind option_bind] in Hf.
  pose proof (length_mapM _ _ _ Hf) as Hlen.
  unfold sort_contract_fields. rewrite Hes. cbn [mbind option_bind].
  rewrite Hf. cbn [mbind option_bind]. eexists. split; [reflexivity |].
  cbn [w_heap w_next w_contracts w_blueprints set_heap].
  split_and!; try done.
  - unfold contract_fields, read_array. rewrite lookup_insert_eq.
    cbn [mbind option_bind].
    assert (Hsnd : (sort_by (λ p : loc * ContractField, cf_position p.2)
                            (zip es fs)).*2 = sort_by cf_position fs).
    { etrans; [exact (sort_by_fmap snd cf_position (zip es fs)) |].
      by rewrite snd_zip by lia. }
    rewrite <- Hsnd. apply mapM_pairs, Forall_forall.
    intros [l f] Hp. cbn [fst snd]. rewrite sort_by_Permutation in Hp.
    apply mapM_Some, Forall2_zip_Forall in Hf.
    rewrite Forall_forall in Hf. specialize (Hf _ Hp). cbn [fst snd] in Hf.
    by eapply read_cfield_insert_array.
  - intros l Hl. by apply lookup_insert_ne.
  - intros Hs.
    rewrite (sort_by_sorted_id _ _ (Sorted_zip_snd cf_position fs es Hs)).
    rewrite fst_zip by lia.
    rewrite insert_id; [apply set_heap_same |].
    unfold read_array in Hes.
    by destruct (w_heap w !! a) as [[] |]; simplify_eq.
Qed.

(** X16: the render shows the contract's fields stably sorted by
    position, each with its [disabled] flag, and obtains the order by
    sorting the stored array in place: afterwards the contract's array
    denotes the sorted sequence, whatever the contract's status, while no
    other object and neither store list changes.  If the fields were in
    position order already the state is untouched, and rendering a second
    time gives the same fields and changes nothing. *)
Theorem X16_render_sorts_in_place c fs w :
  contract_fields (w_heap w) (c_fields c) = Some fs →
  ∃ w',
    render_fields c w
    = Some ((λ f, (f, isDisabled (c_status c) f)) <$> sort_by cf_position fs,
            w')
    ∧ contract_fields (w_heap w') (c_fields c) = Some (sort_by cf_position fs)
    ∧ sort_by cf_position fs ≡ₚ fs
    ∧ Sorted (key_le cf_position) (sort_by cf_position fs)
    ∧ (∀ l, l ≠ c_fields c → w_heap w' !! l = w_heap w !! l)
    ∧ w_contracts w' = w_contracts w
    ∧ w_blueprints w' = w_blueprints w
    ∧ (Sorted (key_le cf_position) fs → w' = w)
    ∧ render_fields c w'
      = Some ((λ f, (f, isDisabled (c_status c) f))
                <$> sort_by cf_position fs, w').
Proof.
  intros Hf.
  destruct (sort_contract_fields_spec _ _ _ Hf)
    as (w' & Hsort & Hf' & Hframe & _ & Hcs & Hbs & Hid).
  exists w'. unfold render_fields.
  rewrite Hsort. cbn [mbind option_bind]. rewrite Hf'.
  cbn [mbind option_bind].
  split_and!; try done.
  - apply sort_by_Permutation.
  - apply sort_by_Sorted.
  - destruct (sort_contract_fields_spec _ _ _ Hf')
      as (w'' & Hsort2 & _ & _ & _ & _ & _ & Hid2).
    rewrite (Hid2 (sort_by_Sorted cf_position fs)) in Hsort2.
    rewrite Hsort2. cbn [mbind option_bind]. rewrite Hf'. done.
Qed.

Lemma Sorted_toContractField fs :
  Sorted (key_le bf_position) fs →
  Sorted (key_le cf_position) (toContractField <$> fs).
Proof.
  induction 1 as [| f fs Hs IH Hhd]; [constructor |].
  rewrite fmap_cons. constructor; [done |].
  destruct Hhd; rewrite ?fmap_cons; by constructor.
Qed.

(** X17: the fields of every contract the page can show are kept in
    position order by the code that writes them, so the sort of the
    render finds nothing to do: it leaves the state untouched right after
    [createContract] returned the contract, and again after a
    [handleFieldChange] on a contract whose fields were in order. *)
Theorem X17_render_changes_nothing :
  (∀ input w c w',
     createContract input w = Some (Some c, w') →
     sort_contract_fields (c_fields c) w' = Some w')
  ∧ (∀ c fs fieldId value w,
       getContract (c_id c) w = Some c →
       contract_denotes c fs w →
       c_status c = CREATED ∨ c_status c = SENT →
       Sorted (key_le cf_position) fs →
       ∃ w' c',
         handleFieldChange c fieldId value w = Some w'
         ∧ getContract (c_id c) w' = Some c'
         ∧ sort_contract_fields (c_fields c') w' = Some w').
Proof.
  split.
  - intros input w c w' H.
    destruct (createContract_inv _ _ _ _ H) as (bp & es & fs & Hn & Hbp & Hes & Hfs).
    rewrite (createContract_success _ _ _ _ _ Hn Hbp Hes Hfs) in H.
    injection H as <- <-. cbn [c_fields created_contract].
    match goal with |- sort_contract_fields _ ?W = _ => set (w1 := W) end.
    assert (Hf : contract_fields (w_heap w1) (w_next w)
                 = Some (toContractField <$> sort_by bf_position fs)).
    { apply created_heap_fields. by eapply length_mapM. }
    destruct (sort_contract_fields_spec _ _ _ Hf)
      as (w2 & Hsort & _ & _ & _ & _ & _ & Hid).
    rewrite Hsort. f_equal. apply Hid.
    apply Sorted_toContractField, sort_by_Sorted.
  - intros c fs fieldId value w Hget Hden Hst Hs.
    destruct (handleFieldChange_editable c fs fieldId value w Hget Hden Hst)
      as (w' & c' & Hh & Hg & _ & _ & _ & Hf & _).
    exists w', c'. split; [done |]. split; [done |].
    destruct (sort_contract_fields_spec _ _ _ Hf)
      as (w2 & Hsort & _ & _ & _ & _ & _ & Hid).
    rewrite Hsort. f_equal. apply Hid. by apply Sorted_changed.
Qed.

(* ===================================================================== *)
(** ** The sample run on the page                                         *)
(* ===================================================================== *)

Lemma demo_get1 : getContract "c0" demo_world1 = Some demo_contract.
Proof. vm_compute. reflexivity. Qed.

Lemma demo_get_sent : getContract "c0" demo_sent = Some demo_sent_contract.
Proof. vm_compute. reflexivity. Qed.

Lemma demo_denotes1 :
  contract_denotes demo_contract demo_contract_fields demo_world1.
Proof.
  split; [vm_compute; reflexivity |].
  apply Forall_forall. apply (bool_decide_unpack _). by vm_compute.
Qed.

Lemma demo_denotes_sent :
  contract_denotes demo_sent_contract demo_contract_fields demo_sent.
Proof.
  split; [vm_compute; reflexivity |].
  apply Forall_forall. apply (bool_decide_unpack _). by vm_compute.
Qed.

Lemma demo_denotes_signed :
  contract_denotes demo_signed_contract demo_contract_fields demo_signed.
Proof.
  split; [vm_compute; reflexivity |].
  apply Forall_forall. apply (bool_decide_unpack _). by vm_compute.
Qed.

Lemma X9_handleTransition_witness :
  (handleTransition (λ _, []) demo_contract LOCKED demo_view demo_world1).1.1
  = demo_world1.
Proof.
  destruct (X9_handleTransition (λ _, []) demo_contract LOCKED demo_view
              demo_world1) as (vs' & _ & _ & _ & _ & _ & _ & _ & H).
  apply H. reflexivity.
Defined.

Lemma X12_handleFieldChange_editable_witness :
  ∃ w' c',
    handleFieldChange demo_contract "f-name" (VString "Ada") demo_world1
    = Some w'
    ∧ getContract "c0" w' = Some c'
    ∧ contract_fields (w_heap w') (c_fields c')
      = Some (changed "f-name" (VString "Ada") <$> demo_contract_fields)
    ∧ contract_fields (w_heap w') (c_fields demo_contract)
      = Some demo_contract_fields.
Proof.
  destruct (X12_handleFieldChange_editable demo_contract demo_contract_fields
              "f-name" (VString "Ada") demo_world1 demo_get1 demo_denotes1
              (or_introl eq_refl))
    as (w' & c' & H1 & H2 & _ & _ & _ & H6 & _ & H8 & _).
  by exists w', c'.
Defined.

Lemma X13_handleFieldChange_locked_witness :
  ∃ w',
    handleFieldChange demo_signed_contract "f-name" (VString "Ada") demo_signed
    = Some w'
    ∧ w_contracts w' = w_contracts demo_signed
    ∧ contract_fields (w_heap w') (c_fields demo_signed_contract)
      = Some demo_contract_fields.
Proof.
  destruct (X13_handleFieldChange_locked demo_signed_contract
              demo_contract_fields "f-name" (VString "Ada") demo_signed
              demo_denotes_signed)
    as (w' & H1 & H2 & _ & _ & H5 & _).
  - intros c0 Hc0. vm_compute in Hc0. injection Hc0 as <-. by split.
  - by exists w'.
Defined.

Lemma X14_sign_with_signature_witness :
  (∃ w' vs' c',
     handleSignContract demo_sent_contract demo_view demo_sent
     = Some (w', vs', [Toast (js "Client signature recorded.")])
     ∧ getContract "c0" w' = Some c' ∧ c_status c' = SIGNED)
  ∧ (∃ w' vs' c',
       handleSignContract demo_contract demo_view demo_world1
       = Some (w', vs', [Toast (js "Client signature recorded.")])
       ∧ getContract "c0" w' = Some c' ∧ c_status c' = CREATED
       ∧ contract_fields (w_heap w') (c_fields c')
         = Some (changed "f-sign" (VString "sig-data")
                   <$> demo_contract_fields)).
Proof.
  split.
  - destruct (X14_sign_with_signature demo_sent_contract demo_contract_fields
                (toContractField field_sign) "sig-data" demo_view demo_sent
                demo_get_sent demo_denotes_sent (or_intror eq_refl)
                eq_refl eq_refl)
      as (w' & vs' & c' & H1 & _ & _ & H4 & H5 & _); [discriminate |].
    by exists w', vs', c'.
  - destruct (X14_sign_with_signature demo_contract demo_contract_fields
                (toContractField field_sign) "sig-data" demo_view demo_world1
                demo_get1 demo_denotes1 (or_introl eq_refl)
                eq_refl eq_refl)
      as (w' & vs' & c' & H1 & _ & _ & H4 & H5 & _ & H7); [discriminate |].
    by exists w', vs', c'.
Defined.

Lemma X15_sign_without_signature_witness :
  ∃ w' vs' c',
    handleSignContract demo_sent_contract
      (mkViewState false None false true [] None) demo_sent
    = Some (w', vs', [Toast (js "Client signature recorded.")])
    ∧ getContract "c0" w' = Some c'
    ∧ c_status c' = SIGNED
    ∧ contract_fields (w_heap w') (c_fields c') = Some demo_contract_fields.
Proof.
  destruct (X15_sign_without_signature demo_sent_contract
              demo_contract_fields
              (mkViewState false None false true [] None) demo_sent
              demo_denotes_sent (or_introl eq_refl))
    as (w' & vs' & H1 & _ & _ & _ & _ & H6).
  destruct (H6 demo_get_sent eq_refl) as (c' & Hc' & Hs & _ & Hf).
  by exists w', vs', c'.
Defined.

Lemma X16_render_sorts_in_place_witness :
  ∃ w',
    render_fields demo_contract demo_world1
    = Some ((λ f, (f, isDisabled CREATED f))
              <$> sort_by cf_position demo_contract_fields, w')
    ∧ w' = demo_world1.
Proof.
  destruct (X16_render_sorts_in_place demo_contract demo_contract_fields
              demo_world1 (proj1 demo_denotes1))
    as (w' & H1 & _ & _ & _ & _ & _ & _ & H8 & _).
  exists w'. split; [exact H1 |]. apply H8.
  repeat first [apply Sorted_nil | apply Sorted_cons
               | apply HdRel_nil | apply HdRel_cons];
    unfold key_le; simpl; lia.
Defined.

Lemma X17_render_changes_nothing_witness :
  sort_contract_fields (c_fields demo_contract) demo_world1 = Some demo_world1.
Proof.
  destruct X17_render_changes_nothing as [H _].
  apply (H demo_input demo_world). exact demo_create.
Defined.

(* ===================================================================== *)
(** ** Contracts do not disturb one another                               *)
(* ===================================================================== *)

Lemma map_stamped_find_other id upd clock id2 cs :
  (∀ c ts, c_id (upd c ts) = c_id c) → id2 ≠ id → ∀ t,
  List.find (λ c, bool_decide (c_id c = id2))
            (map_stamped id upd clock t cs).1
  = List.find (λ c, bool_decide (c_id c = id2)) cs.
Proof.
  intros Hupd Hne. induction cs as [| c cs IH]; intros t; [done |].
  cbn [map_stamped]. case_bool_decide as Hid.
  - specialize (IH (S t)). destruct (map_stamped id upd clock (S t) cs).
    cbn [fst List.find] in *. rewrite Hupd, IH.
    by rewrite (bool_decide_false (c_id c = id2)) by congruence.
  - specialize (IH t). destruct (map_stamped id upd clock t cs).
    cbn [fst List.find] in *. by rewrite IH.
Qed.

Lemma updateContractFields_get_other id a w id2 :
  id2 ≠ id →
  getContract id2 (updateContractFields id a w).2 = getContract id2 w.
Proof.
  intros Hne. unfold updateContractFields.
  destruct (getContract id w); [| done]. destruct (_ && _); [done |].
  cbn [snd]. unfold getContract at 1. rewrite apply_stamped_contracts.
  by apply map_stamped_find_other.
Qed.

(** X18: editing a field of one contract leaves every other contract
    alone: after [handleFieldChange] on a stored contract, the lookup of
    any other id returns the same contract as before and its field array
    denotes the same fields. *)
Theorem X18_edits_do_not_leak c fs fieldId value w w' id2 c2 fs2 :
  contract_denotes c fs w →
  handleFieldChange c fieldId value w = Some w' →
  id2 ≠ c_id c →
  getContract id2 w = Some c2 →
  contract_denotes c2 fs2 w →
  getContract id2 w' = Some c2
  ∧ contract_fields (w_heap w') (c_fields c2) = Some fs2.
Proof.
  intros Hden Hh Hne Hget2 Hden2.
  destruct (contract_denotes_inv _ _ _ Hden) as (es & Hes & Hfs & Ha & Hlt).
  destruct (map_with_value_spec (c_fields c) fieldId value w es fs Hes Hfs Hlt)
    as (w1 & Hmap & _ & Hframe & _ & Hcs & _).
  unfold handleFieldChange in Hh. rewrite Hmap in Hh.
  cbn [mbind option_bind] in Hh. injection Hh as <-. split.
  - rewrite updateContractFields_get_other by done.
    unfold getContract in *. by rewrite Hcs.
  - destruct (updateContractFields_frame (c_id c) (w_next w) w1) as (-> & _).
    apply (contract_fields_frame (w_heap w) _ _ _ (w_next w));
      [apply Hden2 | | done].
    intros l Hl. by apply Hden2.
Qed.

(** X19: creating a contract leaves the contracts made before alone,
    although it sorts the blueprint's array in place: a contract none of
    whose objects the blueprint store holds keeps its objects and denotes
    the same fields after any later [createContract], from whichever
    blueprint, and shares no object with the new contract. *)
Theorem X19_create_leaves_other_contracts c2 input w c w' :
  isolated c2 w →
  createContract input w = Some (Some c, w') →
  isolated c2 w'
  ∧ contract_fields (w_heap w') (c_fields c2)
    = contract_fields (w_heap w) (c_fields c2)
  ∧ (∀ l, l ∈ contract_locs (w_heap w') c2 →
          l ∉ contract_locs (w_heap w') c).
Proof.
  intros Hiso H.
  pose proof (createContract_heap_edit _ _ _ _ (proj1 Hiso) H) as He.
  destruct (heap_edit_isolated _ _ _ Hiso He) as (Hiso' & Hlocs & Hf).
  split_and!; try done.
  intros l Hl Hl'. rewrite Hlocs in Hl. destruct Hiso as [_ Hc2].
  destruct (Hc2 l Hl) as [Hlt _].
  destruct (createContract_inv _ _ _ _ H) as (bp & es & fs & Hn & Hbp & Hes & Hfs).
  rewrite (createContract_success _ _ _ _ _ Hn Hbp Hes Hfs) in H.
  injection H as <- <-. unfold contract_locs in Hl'.
  cbn [c_fields created_contract w_heap] in Hl'.
  unfold array_elems in Hl'. rewrite created_heap_array in Hl'.
  cbn [default] in Hl'. apply elem_of_cons in Hl' as [-> | Hl']; [lia |].
  apply elem_of_seq in Hl'. lia.
Qed.

Lemma X18_edits_do_not_leak_witness :
  ∃ w1 w2 c1,
    createContract (mkInput (js "Second") "bp-1") demo_world1 = Some (Some c1, w1)
    ∧ handleFieldChange c1 "f-name" (VString "Ada") w1 = Some w2
    ∧ getContract "c0" w2 = Some demo_contract
    ∧ contract_fields (w_heap w2) (c_fields demo_contract)
      = Some demo_contract_fields.
Proof.
  destruct (createContract (mkInput (js "Second") "bp-1") demo_world1)
    as [[[c1 |] w1] |] eqn:Hc; try (vm_compute in Hc; discriminate).
  destruct (handleFieldChange c1 "f-name" (VString "Ada") w1)
    as [w2 |] eqn:Hh;
    [| vm_compute in Hc; injection Hc as <- <-;
       vm_compute in Hh; discriminate].
  exists w1, w2, c1. split; [done |]. split; [done |].
  apply (X18_edits_do_not_leak c1 demo_contract_fields "f-name"
           (VString "Ada") w1 w2 "c0" demo_contract demo_contract_fields);
    try done.
  - vm_compute in Hc. injection Hc as <- <-.
    split; [vm_compute; reflexivity |].
    apply Forall_forall. apply (bool_decide_unpack _). by vm_compute.
  - vm_compute in Hc. injection Hc as <- <-. discriminate.
  - vm_compute in Hc. injection Hc as <- <-. vm_compute. reflexivity.
  - vm_compute in Hc. injection Hc as <- <-.
    split; [vm_compute; reflexivity |].
    apply Forall_forall. apply (bool_decide_unpack _). by vm_compute.
Defined.

Lemma X19_create_leaves_other_contracts_witness :
  ∃ c w',
    createContract (mkInput (js "Second") "bp-1") demo_world1 = Some (Some c, w')
    ∧ contract_fields (w_heap w') (c_fields demo_contract)
      = Some demo_contract_fields.
Proof.
  destruct (createContract (mkInput (js "Second") "bp-1") demo_world1)
    as [[[c |] w'] |] eqn:Hc; try (vm_compute in Hc; discriminate).
  exists c, w'. split; [done |].
  destruct (X19_create_leaves_other_contracts demo_contract
              (mkInput (js "Second") "bp-1") demo_world1 c w') as (_ & -> & _);
    [| done | vm_compute; reflexivity].
  split.
  - unfold bp_allocated. apply Forall_forall.
    apply (bool_decide_unpack _). by vm_compute.
  - intros l Hl.
    assert (Hall : Forall (λ l, l < w_next demo_world1 ∧ l ∉ bp_locs demo_world1)
                     (contract_locs (w_heap demo_world1) demo_contract)).
    { apply (bool_decide_unpack _). by vm_compute. }
    rewrite Forall_forall in Hall. by apply Hall.
Defined.
